(** * Domain filter: industry matching, scoring and bucketed selection

    A shallow embedding of [domain_filter.py] and the properties of its
    scoring-and-selection pipeline.

    Modelling conventions.
    - A Python [str] is a [string]: a sequence of characters with code
      points below 256 (Latin-1); [lower], [strip] and [isspace] follow
      Python on that range.
    - A Python [int] is a [Z].  A Python [float] is a [Q]: the arithmetic
      of [calculate_combined_score] and of [select_top_domains] is carried
      out exactly, and [round(x, 2)] rounds the exact value half to even.
      Module [Binary64] re-evaluates the worked example on IEEE doubles.
    - A [dict] record built field by field is a record whose late fields
      are options; reading an absent key ([KeyError]) is [None] in the
      option monad.
    - A [set] of strings is a [gset string], a row of [csv.DictReader] a
      [gmap string string]; dictionaries that are iterated in insertion
      order are association lists. *)

From Stdlib Require Import ZArith QArith Qround Qminmax Lia Lqa.
From Stdlib Require Import Ascii String List Permutation Sorted.
From Stdlib Require Floats.PrimFloat.
From stdpp Require Import base option list gmap strings.

Local Open Scope string_scope.
Local Open Scope list_scope.

(** ** Strings *)

Module Str.

Definition code (c : ascii) : N := N_of_ascii c.

(** [str.lower] on one character: A-Z, and the Latin-1 capitals
    U+00C0..U+00DE without the multiplication sign U+00D7. *)
Definition lower_char (c : ascii) : ascii :=
  let n := code c in
  if ((65 <=? n) && (n <=? 90))%N then ascii_of_N (n + 32)
  else if ((192 <=? n) && (n <=? 222) && negb (n =? 215))%N
       then ascii_of_N (n + 32)
  else c.

Fixpoint lower (s : string) : string :=
  match s with
  | EmptyString => EmptyString
  | String c s' => String (lower_char c) (lower s')
  end.

(** [str.isspace] on one character. *)
Definition isspace (c : ascii) : bool :=
  let n := code c in
  (((9 <=? n) && (n <=? 13)) || ((28 <=? n) && (n <=? 32))
   || (n =? 133) || (n =? 160))%N.

(** Drops the leading characters that [space] accepts. *)
Fixpoint lstrip_by (space : ascii -> bool) (s : string) : string :=
  match s with
  | String c s' => if space c then lstrip_by space s' else s
  | EmptyString => EmptyString
  end.

(** Drops the trailing characters that [space] accepts: a character is kept
    when [space] rejects it or when something is kept after it. *)
Fixpoint rstrip_by (space : ascii -> bool) (s : string) : string :=
  match s with
  | EmptyString => EmptyString
  | String c s' =>
      match rstrip_by space s' with
      | EmptyString => if space c then EmptyString else String c EmptyString
      | r => String c r
      end
  end.

(** [s.strip()] *)
Definition strip (s : string) : string :=
  rstrip_by isspace (lstrip_by isspace s).

(** [s.startswith(k)] *)
Definition startswith (s k : string) : bool := String.prefix k s.

(** [s.endswith(k)] *)
Fixpoint endswith (s k : string) : bool :=
  if String.eqb s k then true
  else match s with
       | EmptyString => false
       | String _ s' => endswith s' k
       end.

(** [k in s] *)
Fixpoint contains (s k : string) : bool :=
  if String.prefix k s then true
  else match s with
       | EmptyString => false
       | String _ s' => contains s' k
       end.

(** [sep.join(l)] *)
Fixpoint join (sep : string) (l : list string) : string :=
  match l with
  | [] => ""
  | [x] => x
  | x :: l' => x ++ sep ++ join sep l'
  end.

End Str.

(** ** Exact arithmetic for the float operations *)

Definition Qltb (a b : Q) : bool := negb (Qle_bool b a).

(** [int(x)] of a float: truncation towards zero. *)
Definition Qtrunc (q : Q) : Z := Z.quot (Qnum q) (Zpos (Qden q)).

(** Rounding to the nearest integer, ties to the even one. *)
Definition round_half_even (q : Q) : Z :=
  let f := Qfloor q in
  let d := (q - inject_Z f)%Q in
  if Qltb d (1 # 2) then f
  else if Qltb (1 # 2) d then (f + 1)%Z
  else if Z.even f then f else (f + 1)%Z.

(** [round(x, 2)] *)
Definition round2 (x : Q) : Q := round_half_even (x * 100)%Q # 100.

(** ** Configuration *)

Definition CURRENT_YEAR : Z := 2025.

Definition INDUSTRY_KEYWORDS : list (string * list string) :=
  [ ("IT / Software",
      ["tech"; "software"; "digital"; "cloud"; "web"; "system"; "dev";
       "app"; "platform"; "code"; "api"; "saas"; "solution"; "cyber";
       "data"; "net"; "host"; "server"; "online"; "site"; "media"]);
    ("Manufacturing",
      ["manufacture"; "factory"; "production"; "industrial"; "machinery";
       "assembly"; "plant"; "fabrication"; "automation"]);
    ("Healthcare",
      ["health"; "care"; "medical"; "clinic"; "pharma"; "bio"; "med";
       "hospital"; "therapy"; "wellness"; "diagnostic"; "patient"; "doctor"]);
    ("Engineering",
      ["engineer"; "mechanical"; "civil"; "design"; "rd"; "cad";
       "construction"; "structural"; "technical"; "consult"; "architect"]);
    ("HR / Recruitment",
      ["hr"; "job"; "recruit"; "talent"; "staff"; "career"; "hire";
       "employment"; "workforce"; "personnel"; "resume"]);
    ("Analytics",
      ["analytics"; "insight"; "metrics"; "intelligence";
       "dashboard"; "report"; "visualization"; "ml"; "algorithm"]);
    ("Cybersecurity",
      ["secure"; "shield"; "protect"; "defense"; "security";
       "firewall"; "encryption"; "audit"; "compliance"; "risk"]);
    ("Wellness / Education Tech",
      ["wellness"; "edu"; "learn"; "school"; "fitness"; "training";
       "course"; "academy"; "teaching"; "student"; "nutrition"; "yoga"]) ].

(** ** Industry classifier *)

(** The quality a keyword earns on a name it occurs in. *)
Definition keyword_score (domain_name keyword : string) : Q :=
  if String.eqb domain_name keyword
     || Str.startswith domain_name keyword
     || Str.endswith domain_name keyword
  then 1%Q else 7 # 10.

(** Body of the inner loop: [best] is [(best_industry, best_score)]. *)
Definition match_step (domain_name industry : string)
    (best : option string * Q) (keyword : string) : option string * Q :=
  if Str.contains domain_name keyword then
    let score := keyword_score domain_name keyword in
    if Qltb (snd best) score then (Some industry, score) else best
  else best.

Definition match_industry_in (table : list (string * list string))
    (domain_name : string) : option string * Q :=
  fold_left
    (fun best entry =>
       fold_left (match_step domain_name (fst entry)) (snd entry) best)
    table (None, 0%Q).

Definition match_industry (domain_name : string) : option string * Q :=
  match_industry_in INDUSTRY_KEYWORDS domain_name.

(** ** Records *)

(** The dictionary built by [load_csv_files] and enriched in place by
    [filter_and_score_domains].  The keys added by the later stage are
    absent ([None]) until it sets them. *)
Record domain_data := mk_domain_data {
  domain : string;
  price : Q;
  age : Z;
  tf : Z;
  cf : Z;
  traffic : Z;
  backlinks : Z;
  referring_domains : Z;
  domain_name_clean : option string;
  tld : option string;
  industry : option string;
  industry_match_quality : option Q;
  register_date : option Z;
  combined_score : option Q
}.

(** The five assignments of the classification branch. *)
Definition set_classification (d : domain_data)
    (name t ind : string) (quality : Q) : domain_data :=
  {| domain := domain d; price := price d; age := age d; tf := tf d;
     cf := cf d; traffic := traffic d; backlinks := backlinks d;
     referring_domains := referring_domains d;
     domain_name_clean := Some name;
     tld := Some t;
     industry := Some ind;
     industry_match_quality := Some quality;
     register_date := Some (CURRENT_YEAR - age d)%Z;
     combined_score := combined_score d |}.

(** [domain_data['combined_score'] = score] *)
Definition set_combined_score (d : domain_data) (score : Q) : domain_data :=
  {| domain := domain d; price := price d; age := age d; tf := tf d;
     cf := cf d; traffic := traffic d; backlinks := backlinks d;
     referring_domains := referring_domains d;
     domain_name_clean := domain_name_clean d;
     tld := tld d;
     industry := industry d;
     industry_match_quality := industry_match_quality d;
     register_date := register_date d;
     combined_score := Some score |}.

(** ** Scorer *)

(** The weighted sum before the bonuses, on a scale of 0 to 100. *)
Definition base_score (d : domain_data) (industry_weight : Q)
    (max_age max_backlinks max_traffic : Z) : Q :=
  let age_score :=
    if (0 <? max_age)%Z
    then Qmin (inject_Z (age d) / inject_Z max_age) 1 else 0%Q in
  let tf_cf_score := (inject_Z (tf d + cf d) / 100)%Q in
  let backlink_total := (backlinks d + referring_domains d)%Z in
  let backlink_score :=
    if (0 <? max_backlinks)%Z
    then Qmin (inject_Z backlink_total / inject_Z (Z.max max_backlinks 1)) 1
    else 0%Q in
  let traffic_score :=
    if (0 <? max_traffic)%Z
    then Qmin (inject_Z (traffic d) / inject_Z (Z.max max_traffic 1)) 1
    else 0%Q in
  (((25 # 100) * industry_weight
    + (20 # 100) * age_score
    + (20 # 100) * tf_cf_score
    + (20 # 100) * backlink_score
    + (15 # 100) * traffic_score) * 100)%Q.

Definition tld_bonus (t : string) : Q :=
  if String.eqb t ".com" then 1%Q else 85 # 100.

Definition health_bonus (d : domain_data) : Q :=
  let health_ratio :=
    if (0 <? cf d)%Z
    then (inject_Z (tf d) / inject_Z (Z.max (cf d) 1))%Q else 1%Q in
  if Qle_bool (7 # 10) health_ratio then 1%Q else 9 # 10.

Definition calculate_combined_score (d : domain_data)
    (max_age max_backlinks max_traffic : Z) : option Q :=
  industry_weight ← industry_match_quality d;
  let combined_score :=
    base_score d industry_weight max_age max_backlinks max_traffic in
  t ← tld d;
  let combined_score :=
    (combined_score * (tld_bonus t * health_bonus d))%Q in
  Some (round2 (Qmin combined_score 100)).

(** ** Presenter: menu navigation *)

Definition base_menu : list string := ["Home"; "About"; "Contact"].

Definition industry_specific : list (string * list string) :=
  [ ("Manufacturing", ["Products"; "Solutions"; "Industries"; "Resources"]);
    ("IT / Software",
      ["Solutions"; "Products"; "Pricing"; "Resources"; "Developers"]);
    ("Healthcare", ["Services"; "Solutions"; "Resources"; "Patients"]);
    ("Engineering", ["Services"; "Projects"; "Solutions"; "Resources"]);
    ("HR / Recruitment", ["Jobs"; "Employers"; "Candidates"; "Resources"]);
    ("Analytics", ["Platform"; "Solutions"; "Insights"; "Resources"]);
    ("Cybersecurity", ["Solutions"; "Services"; "Resources"; "Partners"]);
    ("Wellness / Education Tech",
      ["Courses"; "Programs"; "Resources"; "Community"]) ].

(** [table.get(key, default)] on a dictionary literal with distinct keys. *)
Fixpoint dict_get {V} (table : list (string * V)) (key : string)
    (default : V) : V :=
  match table with
  | [] => default
  | (k, v) :: table' =>
      if String.eqb k key then v else dict_get table' key default
  end.

Definition middle_items (industry : string) : list string :=
  dict_get industry_specific industry ["Products"; "Services"; "Resources"].

Definition menu_items (industry : string) : list string :=
  firstn 7 (firstn 1 base_menu ++ middle_items industry ++ skipn 1 base_menu).

Definition generate_menu_navigation (industry : string) : string :=
  Str.join " | " (menu_items industry).

(** ** List slices and sorting *)

Section Lists.
Context {A : Type}.

Definition len (l : list A) : Z := Z.of_nat (length l).

(** A slice bound clipped to the list: negative bounds count from the
    end. *)
Definition slice_index (l : list A) (i : Z) : nat :=
  Z.to_nat (if (i <? 0)%Z then Z.max 0 (i + len l) else Z.min i (len l)).

(** [l[:stop]] *)
Definition slice_to (l : list A) (stop : Z) : list A :=
  firstn (slice_index l stop) l.

(** [l[start:stop]] *)
Definition slice (l : list A) (start stop : Z) : list A :=
  let a := slice_index l start in
  let b := slice_index l stop in
  firstn (b - a) (skipn a l).

(** [l.sort(key=key, reverse=True)]: descending and stable, so an element
    is put in front of the first one whose key is not greater. *)
Fixpoint insert_desc (key : A -> Q) (x : A) (l : list A) : list A :=
  match l with
  | [] => [x]
  | y :: l' =>
      if Qltb (key x) (key y) then y :: insert_desc key x l'
      else x :: y :: l'
  end.

Definition sort_desc (key : A -> Q) (l : list A) : list A :=
  fold_right (insert_desc key) [] l.

(** [max(xs, default=default)] over integers. *)
Definition py_max (default : Z) (xs : list Z) : Z :=
  match xs with
  | [] => default
  | x :: xs' => fold_left Z.max xs' x
  end.

End Lists.

(** The key [x['combined_score']] paired with its record. *)
Definition score_key (d : domain_data) : option (Q * domain_data) :=
  s ← combined_score d; Some (s, d).

(** [l.sort(key=lambda x: x['combined_score'], reverse=True)]: the keys are
    read first, a missing one raises. *)
Definition sort_by_score (l : list domain_data) : option (list domain_data) :=
  keyed ← mapM score_key l;
  Some (map snd (sort_desc fst keyed)).

(** ** Bucketed selector *)

(** The score range printed for a non-empty selection reads the score of
    its first and of its last record. *)
Definition print_score_range (l : list domain_data) : option unit :=
  match l with
  | [] => Some tt
  | d :: _ =>
      _ ← combined_score d; _ ← combined_score (List.last l d); Some tt
  end.

Definition it_quota (total_count : Z) (it_percentage : Q) : Z :=
  Qtrunc (inject_Z total_count * it_percentage).

(** The records chosen from the two buckets, before the final sort. *)
Definition selected_buckets (it_domains other_domains : list domain_data)
    (total_count : Z) (it_percentage : Q)
    : list domain_data * list domain_data :=
  let it_count := it_quota total_count it_percentage in
  let other_count := (total_count - it_count)%Z in
  let selected_it := slice_to it_domains it_count in
  let selected_other := slice_to other_domains other_count in
  let it_gap := (it_count - len selected_it)%Z in
  let other_gap := (other_count - len selected_other)%Z in
  let selected_other :=
    if (0 <? it_gap)%Z && (other_count <? len other_domains)%Z
    then selected_other
           ++ slice other_domains other_count (other_count + it_gap)
    else selected_other in
  let selected_it :=
    if (0 <? other_gap)%Z && (it_count <? len it_domains)%Z
    then selected_it ++ slice it_domains it_count (it_count + other_gap)
    else selected_it in
  (selected_it, selected_other).

Definition select_top_domains (it_domains other_domains : list domain_data)
    (total_count : Z) (it_percentage : Q) : option (list domain_data) :=
  let it_count := it_quota total_count it_percentage in
  let other_count := (total_count - it_count)%Z in
  _ ← print_score_range (slice_to it_domains it_count);
  _ ← print_score_range (slice_to other_domains other_count);
  let '(selected_it, selected_other) :=
    selected_buckets it_domains other_domains total_count it_percentage in
  sort_by_score (selected_it ++ selected_other).

(** ** Normalizer *)

Definition KNOWN_TLDS : list string :=
  ["com"; "net"; "org"; "info"; "biz"; "co"; "io"; "ai"; "tech"; "cc";
   "tv"; "us"; "ws"].

(** [re.sub(r'\.(com|net|...|ws)$', '', s)] on a string without a trailing
    newline: the pattern matches at the first position from which the rest
    of the string is a dot and one of the known suffixes, and the match
    runs to the end. *)
Fixpoint sub_known_tld (s : string) : string :=
  if existsb (fun t => String.eqb s ("." ++ t)) KNOWN_TLDS then ""
  else match s with
       | EmptyString => EmptyString
       | String c s' => String c (sub_known_tld s')
       end.

Definition clean_domain (domain : string) : string :=
  let domain := Str.strip (Str.lower domain) in
  sub_known_tld domain.

Definition is_az (c : ascii) : bool :=
  ((97 <=? Str.code c) && (Str.code c <=? 122))%N.

Definition newline : string := String (ascii_of_N 10) "".

(** [([a-z]+)$] at the start of [s]: one or more letters that run to the
    end of the string or to its final newline. *)
Fixpoint letters_to_end (s : string) : option string :=
  match s with
  | EmptyString => None
  | String c s' =>
      if is_az c then
        if String.eqb s' "" || String.eqb s' newline
        then Some (String c "")
        else String c <$> letters_to_end s'
      else None
  end.

(** [re.search(r'\.([a-z]+)$', s)]: the group of the leftmost match. *)
Fixpoint search_tld (s : string) : option string :=
  match s with
  | EmptyString => None
  | String c s' =>
      if Ascii.eqb c "." then
        match letters_to_end s' with
        | Some g => Some g
        | None => search_tld s'
        end
      else search_tld s'
  end.

Definition get_tld (domain : string) : string :=
  match search_tld (Str.lower domain) with
  | Some g => "." ++ g
  | None => ".com"
  end.

(** ** Classification, deny-list and batch scoring *)

(** Truth value of [industry] in [if industry:]. *)
Definition truthy (industry : option string) : option string :=
  match industry with
  | Some "" => None
  | other => other
  end.

(** The record as the classification branch leaves it, or the record
    untouched when no industry matched. *)
Definition classify (d : domain_data) : domain_data :=
  let domain_name := clean_domain (domain d) in
  let '(industry, match_quality) := match_industry domain_name in
  match truthy industry with
  | Some ind =>
      set_classification d domain_name (get_tld (domain d)) ind match_quality
  | None => d
  end.

(** One turn of the first loop: [buckets] is [(it_domains, other_domains)]. *)
Definition bucket_step (buckets : list domain_data * list domain_data)
    (d : domain_data) : list domain_data * list domain_data :=
  let '(it_domains, other_domains) := buckets in
  let domain_name := clean_domain (domain d) in
  let '(industry, match_quality) := match_industry domain_name in
  match truthy industry with
  | Some ind =>
      let d :=
        set_classification d domain_name (get_tld (domain d)) ind
          match_quality in
      if bool_decide (tld d = Some ".org") then buckets
      else if Str.contains domain_name "horizon" then buckets
      else if String.eqb ind "IT / Software"
           then (it_domains ++ [d], other_domains)
           else (it_domains, other_domains ++ [d])
  | None => buckets
  end.

Definition fill_buckets (domains : list domain_data)
    : list domain_data * list domain_data :=
  fold_left bucket_step domains ([], []).

Definition batch_max_age (all_matched : list domain_data) : Z :=
  py_max 26 (map age all_matched).

Definition batch_max_backlinks (all_matched : list domain_data) : Z :=
  py_max 500
    (map (fun d => (backlinks d + referring_domains d)%Z) all_matched).

Definition batch_max_traffic (all_matched : list domain_data) : Z :=
  py_max 100 (map traffic all_matched).

(** Body of the scoring loop. *)
Definition score_record (max_age max_backlinks max_traffic : Z)
    (d : domain_data) : option domain_data :=
  score ← calculate_combined_score d max_age max_backlinks max_traffic;
  Some (set_combined_score d score).

Definition filter_and_score_domains (domains : list domain_data)
    : option (list domain_data * list domain_data) :=
  let '(it_domains, other_domains) := fill_buckets domains in
  let all_matched := it_domains ++ other_domains in
  match all_matched with
  | [] => Some (it_domains, other_domains)
  | _ =>
      let max_age := batch_max_age all_matched in
      let max_backlinks := batch_max_backlinks all_matched in
      let max_traffic := batch_max_traffic all_matched in
      it_domains ← mapM (score_record max_age max_backlinks max_traffic)
                     it_domains;
      other_domains ← mapM (score_record max_age max_backlinks max_traffic)
                        other_domains;
      it_domains ← sort_by_score it_domains;
      other_domains ← sort_by_score other_domains;
      Some (it_domains, other_domains)
  end.

(** ** Loading rows *)

Definition is_digit (c : ascii) : bool :=
  ((48 <=? Str.code c) && (Str.code c <=? 57))%N.

Definition digit_value (c : ascii) : Z := Z.of_N (Str.code c - 48).

(** The digits after a first digit: single underscores may separate
    digits. *)
Fixpoint int_digits (acc : Z) (s : string) : option Z :=
  match s with
  | EmptyString => Some acc
  | String c s' =>
      if is_digit c then int_digits (acc * 10 + digit_value c) s'
      else if Ascii.eqb c "_" then
        match s' with
        | String c' s'' =>
            if is_digit c'
            then int_digits (acc * 10 + digit_value c') s''
            else None
        | EmptyString => None
        end
      else None
  end.

Definition int_unsigned (s : string) : option Z :=
  match s with
  | String c s' => if is_digit c then int_digits (digit_value c) s' else None
  | EmptyString => None
  end.

(** The whitespace that [int] accepts around the number: unlike
    [str.strip] it leaves the separators U+001C..U+001F in place. *)
Definition int_space (c : ascii) : bool :=
  let n := Str.code c in
  (((9 <=? n) && (n <=? 13)) || (n =? 32) || (n =? 133) || (n =? 160))%N.

(** [int(s)] on a string in base ten; [None] is [ValueError]. *)
Definition py_int (s : string) : option Z :=
  match Str.rstrip_by int_space (Str.lstrip_by int_space s) with
  | String "+" s' => int_unsigned s'
  | String "-" s' => Z.opp <$> int_unsigned s'
  | s' => int_unsigned s'
  end.

(** [conv(cell) if cell else zero] *)
Definition cell_or_zero {X} (conv : string -> option X) (zero : X)
    (cell : string) : option X :=
  if String.eqb cell "" then Some zero else conv cell.

(** A row of [csv.DictReader] maps each column of the header to the text of
    its cell.  Rows shorter than the header, whose missing cells the reader
    fills with [None], are not modelled. *)
Section Loading.

(** [float(s)] of the price column; [None] is [ValueError]. *)
Variable py_float : string -> option Q.

(** The dictionary literal of the loading loop; [None] is the
    [ValueError] or [KeyError] that the loop catches. *)
Definition build_record (row : gmap string string) (domain_name : string)
    : option domain_data :=
  p ← row !! "Price" ≫= cell_or_zero py_float 0%Q;
  a ← row !! "Domain Age" ≫= cell_or_zero py_int 0%Z;
  t ← row !! "Majestic TF" ≫= cell_or_zero py_int 0%Z;
  c ← row !! "Majestic CF" ≫= cell_or_zero py_int 0%Z;
  tr ← row !! "Traffic" ≫= cell_or_zero py_int 0%Z;
  b ← row !! "Backlinks" ≫= cell_or_zero py_int 0%Z;
  r ← row !! "Referring Domains" ≫= cell_or_zero py_int 0%Z;
  Some {| domain := domain_name; price := p; age := a; tf := t; cf := c;
          traffic := tr; backlinks := b; referring_domains := r;
          domain_name_clean := None; tld := None; industry := None;
          industry_match_quality := None; register_date := None;
          combined_score := None |}.

(** The state of the loading loops. *)
Record load_state := mk_load_state {
  all_domains : list domain_data;
  seen_domains : gset string;
  excluded_count : Z
}.

(** One row: the body of the [try] block. *)
Definition load_row (excluded_domains : gset string) (st : load_state)
    (row : gmap string string) : load_state :=
  match row !! "Domain Name" with
  | None => st
  | Some cell =>
      let domain_name := Str.strip cell in
      let domain_lower := Str.lower domain_name in
      if bool_decide (domain_lower ∈ seen_domains st) then st
      else if bool_decide (domain_lower ∈ excluded_domains) then
        mk_load_state (all_domains st) (seen_domains st)
          (excluded_count st + 1)
      else
        let seen := seen_domains st ∪ {[ domain_lower ]} in
        match build_record row domain_name with
        | Some domain_data =>
            mk_load_state (all_domains st ++ [domain_data]) seen
              (excluded_count st)
        | None => mk_load_state (all_domains st) seen (excluded_count st)
        end
  end.

Definition load_file (excluded_domains : gset string) (st : load_state)
    (rows : list (gmap string string)) : load_state :=
  fold_left (load_row excluded_domains) rows st.

(** [files] holds, in directory order, the rows of each CSV file. *)
Definition load_state_of (files : list (list (gmap string string)))
    (excluded_domains : gset string) : load_state :=
  fold_left (load_file excluded_domains) files (mk_load_state [] ∅ 0).

Definition load_csv_files (files : list (list (gmap string string)))
    (excluded_domains : gset string) : list domain_data :=
  all_domains (load_state_of files excluded_domains).

(** The records that [main] hands to the output stage; [None] when a
    stage stops the run. *)
Definition main_selection (files : list (list (gmap string string)))
    (excluded_domains : gset string) (domain_count : Z)
    (it_percentage : Q) : option (list domain_data) :=
  let all_domains := load_csv_files files excluded_domains in
  match all_domains with
  | [] => None
  | _ =>
      '(it_domains, other_domains) ← filter_and_score_domains all_domains;
      match it_domains ++ other_domains with
      | [] => None
      | _ =>
          selected ← select_top_domains it_domains other_domains
                       domain_count it_percentage;
          match selected with
          | [] => None
          | _ => Some selected
          end
      end
  end.

End Loading.


(** ** Reference definitions for the classifier *)

(** The table as the sequence of (industry, keyword) pairs in iteration
    order. *)
Definition table_pairs (table : list (string * list string))
    : list (string * string) :=
  flat_map (fun entry => map (pair (fst entry)) (snd entry)) table.

(** The loop body on one (industry, keyword) pair. *)
Definition pair_step (domain_name : string) (best : option string * Q)
    (p : string * string) : option string * Q :=
  match_step domain_name (fst p) best (snd p).

(** The name equals, starts with or ends with the keyword. *)
Definition at_edge (domain_name keyword : string) : bool :=
  String.eqb domain_name keyword
  || Str.startswith domain_name keyword
  || Str.endswith domain_name keyword.

(** The classifier as the specification words it: quality 1 with the first
    pair whose keyword occurs at an edge of the name; failing that, quality
    0.7 with the first pair whose keyword occurs at all; failing that, no
    industry. *)
Definition match_industry_spec (table : list (string * list string))
    (domain_name : string) : option string * Q :=
  let pairs := table_pairs table in
  match
    find (fun p => Str.contains domain_name (snd p)
                   && at_edge domain_name (snd p)) pairs
  with
  | Some p => (Some (fst p), 1%Q)
  | None =>
      match find (fun p => Str.contains domain_name (snd p)) pairs with
      | Some p => (Some (fst p), 7 # 10)
      | None => (None, 0%Q)
      end
  end.

(** ** The worked example *)

(** The record of the example, classified by [match_industry]. *)
Definition mytechsolutions : domain_data :=
  {| domain := "mytechsolutions.com"; price := 500; age := 10; tf := 15;
     cf := 10; traffic := 25; backlinks := 50; referring_domains := 10;
     domain_name_clean := Some "mytechsolutions";
     tld := Some ".com";
     industry := fst (match_industry "mytechsolutions");
     industry_match_quality := Some (snd (match_industry "mytechsolutions"));
     register_date := Some 2015%Z;
     combined_score := None |}.

(** The formula of the scorer written out on the numbers of the example. *)
Definition mytechsolutions_formula : Q :=
  round2
    (Qmin
       (100 * ((25 # 100) * (7 # 10)
               + (20 # 100) * (10 / 20)
               + (20 # 100) * ((15 + 10) / 100)
               + (20 # 100) * ((50 + 10) / 200)
               + (15 # 100) * (25 / 100)) * 1 * 1)
       100)%Q.

(** The same evaluation on IEEE 754 doubles, up to the final rounding.  The
    integers involved are doubles, so the true division of two of them is
    the division of doubles. *)
Module Binary64.
Import PrimFloat.
Local Open Scope float_scope.

#[warnings="-inexact-float"]
Definition mytechsolutions_unrounded : float :=
  let age_score := 10 / 20 in
  let tf_cf_score := (15 + 10) / 100 in
  let backlink_score := (50 + 10) / 200 in
  let traffic_score := 25 / 100 in
  let combined_score :=
    (0.25 * 0.7 + 0.20 * age_score + 0.20 * tf_cf_score
     + 0.20 * backlink_score + 0.15 * traffic_score) * 100 in
  combined_score * (1.0 * 1.0).

Definition expected : float := 42.25.
End Binary64.

(** ** The menu as the specification describes it *)

(** "Home", at most four middle items, "About" and "Contact", cut to seven
    entries and joined. *)
Definition menu_as_specified (industry : string) : Prop :=
  exists middle : list string,
    (length middle <= 4)%nat
    /\ generate_menu_navigation industry
       = Str.join " | "
           (firstn 7 (["Home"] ++ middle ++ ["About"; "Contact"])).

(** The menu of "IT / Software". *)
Definition it_software_menu : string :=
  "Home | Solutions | Products | Pricing | Resources | Developers | About".

(** ** Vocabulary of the selection properties *)

(** The record carries the key [combined_score]. *)
Definition has_score (d : domain_data) : Prop := is_Some (combined_score d).

(** Keys never increase along the list. *)
Definition descending {A} (key : A -> Q) (l : list A) : Prop :=
  StronglySorted (fun x y => (key y <= key x)%Q) l.

(** A scored record. *)
Definition sample_record (name : string) (score : Q) : domain_data :=
  {| domain := name; price := 0; age := 0; tf := 0; cf := 0; traffic := 0;
     backlinks := 0; referring_domains := 0;
     domain_name_clean := None; tld := None; industry := None;
     industry_match_quality := None; register_date := None;
     combined_score := Some score |}.

(** [n] scored records with distinct names, best first, the best with
    score [top]. *)
Definition sample_bucket (prefix : string) (top : Z) (n : nat)
    : list domain_data :=
  map (fun i =>
         sample_record (prefix +:+ String (ascii_of_nat (97 + i)) ".com")
           (inject_Z (top - Z.of_nat i)))
    (seq 0 n).

(** Sample buckets whose scores do not interleave. *)
Definition sample_it (n : nat) : list domain_data :=
  sample_bucket "tech" 100 n.

Definition sample_other (n : nat) : list domain_data :=
  sample_bucket "med" 50 n.

(** ** Reference definitions for classification and batch scoring *)

(** What one turn of the first loop does with a record: the bucket it is
    appended to ([true] for the IT bucket) and the record as appended, or
    [None] when the record is skipped. *)
Definition placed (d : domain_data) : option (bool * domain_data) :=
  let domain_name := clean_domain (domain d) in
  let '(industry, match_quality) := match_industry domain_name in
  match truthy industry with
  | Some ind =>
      let d :=
        set_classification d domain_name (get_tld (domain d)) ind
          match_quality in
      if bool_decide (tld d = Some ".org") then None
      else if Str.contains domain_name "horizon" then None
      else Some (String.eqb ind "IT / Software", d)
  | None => None
  end.

Definition placed_it (d : domain_data) : option domain_data :=
  match placed d with
  | Some (true, d') => Some d'
  | _ => None
  end.

Definition placed_other (d : domain_data) : option domain_data :=
  match placed d with
  | Some (false, d') => Some d'
  | _ => None
  end.

(** The records that reach a bucket, IT bucket first. *)
Definition all_placed (domains : list domain_data) : list domain_data :=
  omap placed_it domains ++ omap placed_other domains.

(** The record after the scoring loop has visited it. *)
Definition scored_with (max_age max_backlinks max_traffic : Z)
    (d : domain_data) : domain_data :=
  match score_record max_age max_backlinks max_traffic d with
  | Some d' => d'
  | None => d
  end.

(** The scoring loop on one record, with the maxima of the batch. *)
Definition batch_scorer (all_matched : list domain_data)
    : domain_data -> domain_data :=
  scored_with (batch_max_age all_matched) (batch_max_backlinks all_matched)
    (batch_max_traffic all_matched).

(** The sort by score on records that all carry one. *)
Definition sort_scored (l : list domain_data) : list domain_data :=
  map snd
    (sort_desc fst (map (fun d => (default 0%Q (combined_score d), d)) l)).

(** The two buckets in closed form: the placed records, scored against the
    maxima of the batch and sorted. *)
Definition scored_buckets (domains : list domain_data)
    : list domain_data * list domain_data :=
  let it_domains := omap placed_it domains in
  let other_domains := omap placed_other domains in
  let all_matched := it_domains ++ other_domains in
  (sort_scored (map (batch_scorer all_matched) it_domains),
   sort_scored (map (batch_scorer all_matched) other_domains)).

(** The record went through the classification branch. *)
Definition classified (d : domain_data) : Prop :=
  is_Some (industry_match_quality d) /\ is_Some (tld d).

(** The record is outside the deny-list: its TLD is not ".org" and its
    normalized name does not contain "horizon". *)
Definition passes_deny_list (d : domain_data) : Prop :=
  tld d = Some (get_tld (domain d))
  /\ get_tld (domain d) <> ".org"
  /\ domain_name_clean d = Some (clean_domain (domain d))
  /\ Str.contains (clean_domain (domain d)) "horizon" = false.

(** The list [domains] as the call leaves it: the dictionaries are updated
    in place, so the caller sees the classification of every matched
    record and the score of every record that reached a bucket. *)
Definition domains_after (domains : list domain_data) : list domain_data :=
  let '(it_domains, other_domains) := fill_buckets domains in
  let all_matched := it_domains ++ other_domains in
  let max_age := batch_max_age all_matched in
  let max_backlinks := batch_max_backlinks all_matched in
  let max_traffic := batch_max_traffic all_matched in
  map (fun d =>
         match placed d with
         | Some (_, d') => scored_with max_age max_backlinks max_traffic d'
         | None => classify d
         end)
    domains.

(** Two records with the same loaded fields. *)
Definition same_base (d1 d2 : domain_data) : Prop :=
  domain d1 = domain d2 /\ price d1 = price d2 /\ age d1 = age d2
  /\ tf d1 = tf d2 /\ cf d1 = cf d2 /\ traffic d1 = traffic d2
  /\ backlinks d1 = backlinks d2
  /\ referring_domains d1 = referring_domains d2.

(** Two records that differ at most in the key [combined_score]. *)
Definition same_but_score (d1 d2 : domain_data) : Prop :=
  set_combined_score d1 0 = set_combined_score d2 0.

(** A record as the loader builds it. *)
Definition raw_record (name : string) (a t c tr b r : Z) : domain_data :=
  {| domain := name; price := 0; age := a; tf := t; cf := c; traffic := tr;
     backlinks := b; referring_domains := r;
     domain_name_clean := None; tld := None; industry := None;
     industry_match_quality := None; register_date := None;
     combined_score := None |}.

(** The deny-listed example of the specification. *)
Definition horizonhealthcare : domain_data :=
  raw_record "horizonhealthcare.com" 12 20 18 40 300 25.

(** A batch with records for both buckets. *)
Definition sample_batch : list domain_data :=
  [raw_record "mytechsolutions.com" 10 15 10 25 50 10;
   raw_record "citymedical.net" 20 30 40 100 150 50;
   raw_record "bestjobs.io" 3 5 20 0 12 1].

(** ** Vocabulary of the loading properties *)

(** The key under which a record counts as a duplicate. *)
Definition domain_key (d : domain_data) : string := Str.lower (domain d).

(** The same key, read off a row. *)
Definition row_key (row : gmap string string) : option string :=
  (fun cell => Str.lower (Str.strip cell)) <$> row !! "Domain Name".

(** The record a row yields when all its fields parse. *)
Definition row_record (py_float : string -> option Q)
    (row : gmap string string) : option domain_data :=
  cell ← row !! "Domain Name"; build_record py_float row (Str.strip cell).

(** Row [i] of [rows] is [row], it carries [key], and no earlier row does. *)
Definition first_with_key (rows : list (gmap string string)) (i : nat)
    (row : gmap string string) (key : string) : Prop :=
  rows !! i = Some row
  /\ row_key row = Some key
  /\ forall j row', (j < i)%nat -> rows !! j = Some row' ->
       row_key row' <> Some key.

(** "The first occurrence in load order is kept", as the specification
    states it. *)
Definition first_occurrence_kept (py_float : string -> option Q)
    (files : list (list (gmap string string)))
    (excluded_domains : gset string) : Prop :=
  forall i row key,
    first_with_key (concat files) i row key ->
    exists d,
      In d (load_csv_files py_float files excluded_domains)
      /\ domain_key d = key.

(** What the loading loop has established after the rows [rows]: the seen
    set holds the keys met so far that are not excluded, the loaded records
    are the records of the first rows of the keys that are not excluded,
    and no two of them share a key. *)
Record load_invariant (py_float : string -> option Q)
    (excluded_domains : gset string) (rows : list (gmap string string))
    (st : load_state) : Prop := {
  seen_spec : forall key,
    (key ∈ seen_domains st)
    <-> ((key ∉ excluded_domains)
         /\ exists i row, rows !! i = Some row /\ row_key row = Some key);
  all_spec : forall d,
    In d (all_domains st)
    <-> (exists i row key,
           first_with_key rows i row key /\ (key ∉ excluded_domains)
           /\ row_record py_float row = Some d);
  keys_nodup : NoDup (map domain_key (all_domains st))
}.

(** A row with all eight columns. *)
Definition csv_row (name p a t c tr b r : string) : gmap string string :=
  list_to_map
    [("Domain Name", name); ("Price", p); ("Domain Age", a);
     ("Majestic TF", t); ("Majestic CF", c); ("Traffic", tr);
     ("Backlinks", b); ("Referring Domains", r)].

(** A row whose age does not parse, followed by a well-formed row for the
    same domain. *)
Definition malformed_then_valid : list (list (gmap string string)) :=
  [[csv_row "Tech.com" "" "n/a" "" "" "" "" "";
    csv_row "tech.com" "" "10" "15" "10" "25" "50" "10"]].

(** A float parser for the examples: integers only. *)
Definition int_as_float (s : string) : option Q := inject_Z <$> py_int s.

(** Two files; the second repeats a domain of the first in another case. *)
Definition sample_files : list (list (gmap string string)) :=
  [[csv_row "MyTechSolutions.com" "500" "10" "15" "10" "25" "50" "10";
    csv_row "CityMedical.net" "120" "20" "30" "40" "100" "150" "50"];
   [csv_row "mytechsolutions.COM " "90" "1" "1" "1" "1" "1" "1";
    csv_row "bestjobs.io" "75" "3" "5" "20" "0" "12" "1"]].

(** * Definitions for the further properties *)

(** ** Vocabulary of the normalizer properties *)

(** Every character of the string is one of a-z. *)
Fixpoint all_az (s : string) : bool :=
  match s with
  | EmptyString => true
  | String c s' => is_az c && all_az s'
  end.

(** The string holds no dot. *)
Fixpoint no_dot (s : string) : bool :=
  match s with
  | EmptyString => true
  | String c s' => negb (Ascii.eqb c ".") && no_dot s'
  end.

(** ** Vocabulary of the pipeline properties *)

(** The score a record carries, 0 when it carries none. *)
Definition score_of (d : domain_data) : Q := default 0%Q (combined_score d).

(** The record carries score [s]. *)
Definition scores (s : Q) (d : domain_data) : bool := Qeq_bool (score_of d) s.

(** The keys set by the classification branch hold what the normalizer and
    the classifier return on the record's own domain. *)
Definition bucket_record (d : domain_data) : Prop :=
  domain_name_clean d = Some (clean_domain (domain d))
  /\ tld d = Some (get_tld (domain d))
  /\ register_date d = Some (CURRENT_YEAR - age d)%Z
  /\ exists ind q,
       match_industry (clean_domain (domain d)) = (Some ind, q)
       /\ ind <> ""
       /\ industry d = Some ind
       /\ industry_match_quality d = Some q.

(** The score of the record is the scorer's value on the record itself
    under the maxima of the batch [all_matched]. *)
Definition scored_in (all_matched : list domain_data) (d : domain_data)
    : Prop :=
  is_Some (combined_score d)
  /\ combined_score d
     = calculate_combined_score d (batch_max_age all_matched)
         (batch_max_backlinks all_matched) (batch_max_traffic all_matched).

(** All numbers of the record are non-negative. *)
Definition nonneg_fields (d : domain_data) : Prop :=
  (0 <= age d)%Z /\ (0 <= tf d)%Z /\ (0 <= cf d)%Z /\ (0 <= traffic d)%Z
  /\ (0 <= backlinks d)%Z /\ (0 <= referring_domains d)%Z.

(** ** Exclusion file *)

(** The reading loop of [load_excluded_domains], rows as in the loader: a
    row without the column "Domain Name" raises [KeyError], which ends the
    loop and keeps the domains added before it. *)
Fixpoint excluded_of_rows (excluded : gset string)
    (rows : list (gmap string string)) : gset string :=
  match rows with
  | [] => excluded
  | row :: rows' =>
      match row !! "Domain Name" with
      | Some cell =>
          excluded_of_rows (excluded ∪ {[ Str.lower (Str.strip cell) ]}) rows'
      | None => excluded
      end
  end.

(** [file] is [None] when the path is empty or names no existing file, and
    the rows of the file otherwise. *)
Definition load_excluded_domains (file : option (list (gmap string string)))
    : gset string :=
  match file with
  | None => ∅
  | Some rows => excluded_of_rows ∅ rows
  end.

(** The rows in front of the first row that lacks the column. *)
Fixpoint rows_read (rows : list (gmap string string))
    : list (gmap string string) :=
  match rows with
  | [] => []
  | row :: rows' =>
      match row !! "Domain Name" with
      | Some _ => row :: rows_read rows'
      | None => []
      end
  end.

(** ** Presenter: comment *)

From Stdlib Require DecimalString.

(** [str(n)] of an integer, as an f-string prints it. *)
Definition str_int (n : Z) : string :=
  DecimalString.NilZero.string_of_int (Z.to_int n).

Definition age_comment (d : domain_data) : list string :=
  if (15 <=? age d)%Z then
    ["Established " +:+ str_int (age d)
     +:+ "-year domain provides strong authority"]
  else if (10 <=? age d)%Z then
    ["Mature " +:+ str_int (age d) +:+ "-year domain with proven history"]
  else [].

Definition trust_comment (d : domain_data) : list string :=
  if (10 <? tf d)%Z then
    ["Excellent Trust Flow (" +:+ str_int (tf d)
     +:+ ") indicates quality backlinks"]
  else if (0 <? tf d)%Z && (0 <? cf d)%Z then
    let ratio := (inject_Z (tf d) / inject_Z (cf d))%Q in
    if Qle_bool (7 # 10) ratio then
      ["Healthy TF/CF ratio (" +:+ str_int (tf d) +:+ "/"
       +:+ str_int (cf d) +:+ ") shows natural profile"]
    else []
  else [].

Definition traffic_comment (d : domain_data) : list string :=
  if (20 <? traffic d)%Z then
    ["Existing traffic (" +:+ str_int (traffic d)
     +:+ "/mo) demonstrates audience"]
  else [].

Definition price_comment (d : domain_data) : list string :=
  if Qltb (price d) 1000 then ["Attractive entry price point"] else [].

Definition score_comment (score : Q) : list string :=
  if Qle_bool 75 score then ["STRONG BUY recommendation"]
  else if Qle_bool 60 score then ["Good investment opportunity"]
  else [].

(** The list [comments] when the last [if] is reached. *)
Definition comments (d : domain_data) (score : Q) : list string :=
  age_comment d ++ trust_comment d ++ traffic_comment d
  ++ price_comment d ++ score_comment score.

Definition fallback_comment : string :=
  "Solid domain with industry relevance and clean metrics.".

Definition generate_comment (d : domain_data) : option string :=
  score ← combined_score d;
  Some match comments d score with
       | c0 :: c1 :: _ => c0 +:+ ". " +:+ c1 +:+ "."
       | [c0] => c0 +:+ "."
       | [] => fallback_comment
       end.

(** ** Vocabulary of the comment properties *)



(** ** User input *)

(** The values [float()] returns: the loops of [get_user_inputs] treat the
    infinities and the not-a-number unlike the finite ones. *)
Inductive pyfloat : Type :=
| Finite (q : Q)
| PosInf
| NegInf
| NaN.

(** [x < 0 or x > 100]: every comparison with a not-a-number is false. *)
Definition out_of_percent_range (x : pyfloat) : bool :=
  match x with
  | Finite q => Qltb q 0 || Qltb 100 q
  | PosInf => true
  | NegInf => true
  | NaN => false
  end.

(** [x / 100] *)
Definition div_100 (x : pyfloat) : pyfloat :=
  match x with
  | Finite q => Finite (q / 100)
  | other => other
  end.

(** The dictionary that [get_user_inputs] returns. *)
Record config := mk_config {
  input_folder : string;
  domain_count : Z;
  it_percentage : pyfloat;
  exclude_file : option string;
  output_file : string
}.

Definition default_folder : string := "./unfiltered-domains-csv".

Section UserInput.

(** [os.path.exists] *)
Variable path_exists : string -> bool.

(** [float(s)]; [None] is [ValueError]. *)
Variable float_of : string -> option pyfloat.

(** The loop that asks for the number of domains.  [lines] are the lines
    that [input] has still to return, and [None] is the [EOFError] it
    raises when they run out; the result carries the lines left. *)
Fixpoint ask_domain_count (lines : list string)
    : option (Z * list string) :=
  match lines with
  | [] => None
  | line :: rest =>
      let domain_count := Str.strip line in
      match
        if String.eqb domain_count "" then Some 50%Z else py_int domain_count
      with
      | Some domain_count =>
          if (domain_count <=? 0)%Z then ask_domain_count rest
          else Some (domain_count, rest)
      | None => ask_domain_count rest
      end
  end.

(** The loop that asks for the IT percentage. *)
Fixpoint ask_it_percent (lines : list string)
    : option (pyfloat * list string) :=
  match lines with
  | [] => None
  | line :: rest =>
      let it_percent := Str.strip line in
      match
        if String.eqb it_percent "" then Some (Finite 80)
        else float_of it_percent
      with
      | Some it_percent =>
          if out_of_percent_range it_percent then ask_it_percent rest
          else Some (div_100 it_percent, rest)
      | None => ask_it_percent rest
      end
  end.

(** The outer [None] is [EOFError], the inner one the [None] returned when
    the input folder does not exist. *)
Definition get_user_inputs (lines : list string) : option (option config) :=
  match lines with
  | [] => None
  | line :: lines =>
      let input_folder := Str.strip line in
      let input_folder :=
        if String.eqb input_folder "" then default_folder
        else input_folder in
      if negb (path_exists input_folder) then Some None
      else
        '(domain_count, lines) ← ask_domain_count lines;
        '(it_percent, lines) ← ask_it_percent lines;
        match lines with
        | [] => None
        | line :: lines =>
            let exclude_file := Str.strip line in
            let exclude_file :=
              if negb (String.eqb exclude_file "")
                 && negb (path_exists exclude_file)
              then None else Some exclude_file in
            match lines with
            | [] => None
            | line :: _ =>
                let default_output :=
                  "filtered_domains_" +:+ str_int domain_count +:+ ".csv" in
                let output_file := Str.strip line in
                let output_file :=
                  if String.eqb output_file "" then default_output
                  else output_file in
                let output_file :=
                  if Str.endswith output_file ".csv" then output_file
                  else output_file +:+ ".csv" in
                Some (Some {| input_folder := input_folder;
                              domain_count := domain_count;
                              it_percentage := it_percent;
                              exclude_file := exclude_file;
                              output_file := output_file |})
            end
        end
  end.

End UserInput.

(** ** Vocabulary of the user input properties *)

(** A ratio that the percentage loop lets through. *)
Definition accepted_ratio (x : pyfloat) : Prop :=
  x = NaN \/ exists q, x = Finite q /\ (0 <= q)%Q /\ (q <= 1)%Q.

(** An exclusion path that [get_user_inputs] returns: dropped, empty, or
    the path of an existing file. *)
Definition accepted_exclusion (path_exists : string -> bool)
    (p : option string) : Prop :=
  p = None \/ p = Some "" \/ exists f, p = Some f /\ path_exists f = true.

(** A file system with the default folder only. *)
Definition sample_exists (p : string) : bool := String.eqb p default_folder.

(** A float parser for the examples: integers and "nan". *)
Definition sample_float (s : string) : option pyfloat :=
  if String.eqb s "nan" then Some NaN
  else (fun n => Finite (inject_Z n)) <$> py_int s.

(** * Properties *)

(** ** The classifier *)

Section Classifier.
Variable domain_name : string.

Lemma keyword_score_edge keyword :
  keyword_score domain_name keyword
  = if at_edge domain_name keyword then 1%Q else 7 # 10.
Proof. reflexivity. Qed.

Lemma match_industry_pairs table best :
  fold_left
    (fun best entry =>
       fold_left (match_step domain_name (fst entry)) (snd entry) best)
    table best
  = fold_left (pair_step domain_name) (table_pairs table) best.
Proof.
  revert best. induction table as [|[ind kws] table IH]; intros best.
  - reflexivity.
  - cbn [fold_left table_pairs flat_map fst snd].
    rewrite fold_left_app, IH. f_equal.
    clear IH. revert best.
    induction kws as [|k kws IHk]; intros best; [reflexivity|].
    cbn [map fold_left]. apply IHk.
Qed.

(** Once the best score is 1 nothing replaces it. *)
Lemma scan_saturated pairs ind :
  fold_left (pair_step domain_name) pairs (ind, 1%Q) = (ind, 1%Q).
Proof.
  induction pairs as [|p pairs IH]; [reflexivity|].
  cbn [fold_left]. unfold pair_step at 2, match_step.
  destruct (Str.contains domain_name (snd p)); [|exact IH].
  rewrite keyword_score_edge. cbn [snd].
  destruct (at_edge domain_name (snd p)); exact IH.
Qed.

(** With a mid-string match in hand only an edge match replaces it. *)
Lemma scan_mid pairs ind :
  fold_left (pair_step domain_name) pairs (ind, 7 # 10)
  = match
      find (fun p => Str.contains domain_name (snd p)
                     && at_edge domain_name (snd p)) pairs
    with
    | Some p => (Some (fst p), 1%Q)
    | None => (ind, 7 # 10)
    end.
Proof.
  induction pairs as [|p pairs IH]; [reflexivity|].
  cbn [fold_left find]. unfold pair_step at 2, match_step.
  destruct (Str.contains domain_name (snd p)); [|exact IH].
  rewrite keyword_score_edge. cbn [snd andb].
  destruct (at_edge domain_name (snd p)).
  - apply scan_saturated.
  - exact IH.
Qed.

Lemma scan_fresh pairs :
  fold_left (pair_step domain_name) pairs (None, 0%Q)
  = match
      find (fun p => Str.contains domain_name (snd p)
                     && at_edge domain_name (snd p)) pairs
    with
    | Some p => (Some (fst p), 1%Q)
    | None =>
        match find (fun p => Str.contains domain_name (snd p)) pairs with
        | Some p => (Some (fst p), 7 # 10)
        | None => (None, 0%Q)
        end
    end.
Proof.
  induction pairs as [|p pairs IH]; [reflexivity|].
  cbn [fold_left find]. unfold pair_step at 2, match_step.
  destruct (Str.contains domain_name (snd p)); [|exact IH].
  rewrite keyword_score_edge. cbn [snd andb].
  destruct (at_edge domain_name (snd p)).
  - apply scan_saturated.
  - change (Qltb 0 (7 # 10)) with true. cbn iota. apply scan_mid.
Qed.

End Classifier.

(** C4. [match_industry] returns quality 1.0 with the industry of the first
    table pair whose keyword the name contains and equals, starts with or
    ends with; otherwise quality 0.7 with the industry of the first pair
    whose keyword the name contains; otherwise no industry and quality 0.
    Ties keep the first pair in table iteration order. *)
Theorem match_industry_first_best (domain_name : string) :
  match_industry domain_name
  = match_industry_spec INDUSTRY_KEYWORDS domain_name.
Proof.
  unfold match_industry, match_industry_in, match_industry_spec.
  rewrite match_industry_pairs. apply scan_fresh.
Qed.

(** The same for any keyword table. *)
Lemma match_industry_in_spec table domain_name :
  match_industry_in table domain_name = match_industry_spec table domain_name.
Proof.
  unfold match_industry_in, match_industry_spec.
  rewrite match_industry_pairs. apply scan_fresh.
Qed.

Lemma match_industry_in_spec_fixed domain_name :
  match_industry domain_name
  = match_industry_spec INDUSTRY_KEYWORDS domain_name.
Proof. apply match_industry_in_spec. Qed.

(** The three cases of the classifier, read off the table pairs. *)
Lemma match_industry_edge domain_name p :
  In p (table_pairs INDUSTRY_KEYWORDS) ->
  Str.contains domain_name (snd p) = true ->
  at_edge domain_name (snd p) = true ->
  snd (match_industry domain_name) = 1%Q.
Proof.
  intros Hin Hc He. rewrite match_industry_in_spec_fixed.
  unfold match_industry_spec.
  destruct (find (fun q => Str.contains _ (snd q) && _) _) as [q|] eqn:E;
    [reflexivity|].
  apply (find_none _ _ E) in Hin. rewrite Hc, He in Hin. discriminate.
Qed.

Lemma match_industry_mid domain_name p :
  In p (table_pairs INDUSTRY_KEYWORDS) ->
  Str.contains domain_name (snd p) = true ->
  (forall q, In q (table_pairs INDUSTRY_KEYWORDS) ->
     Str.contains domain_name (snd q) = true ->
     at_edge domain_name (snd q) = false) ->
  snd (match_industry domain_name) = 7 # 10.
Proof.
  intros Hin Hc Hmid. rewrite match_industry_in_spec_fixed.
  unfold match_industry_spec.
  destruct (find (fun q => Str.contains _ (snd q) && _) _) as [q|] eqn:E.
  - apply find_some in E as [Hq E]. apply andb_prop in E as [E1 E2].
    rewrite (Hmid q Hq E1) in E2. discriminate.
  - destruct (find (fun q => Str.contains _ (snd q)) _) as [q|] eqn:E';
      [reflexivity|].
    apply (find_none _ _ E') in Hin. rewrite Hc in Hin. discriminate.
Qed.

Lemma match_industry_none domain_name :
  (forall p, In p (table_pairs INDUSTRY_KEYWORDS) ->
     Str.contains domain_name (snd p) = false) ->
  match_industry domain_name = (None, 0%Q).
Proof.
  intros Hnone. rewrite match_industry_in_spec_fixed.
  unfold match_industry_spec.
  destruct (find (fun q => Str.contains _ (snd q) && _) _) as [q|] eqn:E.
  - apply find_some in E as [Hq E]. apply andb_prop in E as [E1 _].
    rewrite (Hnone q Hq) in E1. discriminate.
  - destruct (find (fun q => Str.contains _ (snd q)) _) as [q|] eqn:E';
      [|reflexivity].
    apply find_some in E' as [Hq E']. rewrite (Hnone q Hq) in E'.
    discriminate.
Qed.

(** C1. The record "mytechsolutions" is classified "IT / Software" with
    quality 0.7, and its combined score under the batch maxima 20, 200 and
    100 is the value of the scoring formula on its numbers, 42.25. *)
Theorem mytechsolutions_score :
  match_industry "mytechsolutions" = (Some "IT / Software", 7 # 10)
  /\ calculate_combined_score mytechsolutions 20 200 100
     = Some mytechsolutions_formula
  /\ mytechsolutions_formula = 4225 # 100
  /\ (mytechsolutions_formula == 42.25)%Q.
Proof.
  repeat split; vm_compute; reflexivity.
Qed.

(** On IEEE 754 doubles the same operations give exactly 42.25 before the
    final rounding, a value that [round(x, 2)] leaves as it is. *)
Lemma mytechsolutions_binary64 :
  Binary64.mytechsolutions_unrounded = Binary64.expected.
Proof. vm_compute. reflexivity. Qed.

(** ** The scorer *)

Lemma Qltb_lt a b : Qltb a b = true -> (a < b)%Q.
Proof.
  unfold Qltb. intros H. apply Qnot_le_lt. intros Hle.
  apply Qle_bool_iff in Hle. rewrite Hle in H. discriminate.
Qed.

Lemma Qltb_ge a b : Qltb a b = false -> (b <= a)%Q.
Proof.
  unfold Qltb. intros H. apply Qle_bool_iff.
  destruct (Qle_bool b a); [reflexivity | discriminate].
Qed.



Lemma Qdiv_nonneg (a b : Z) :
  (0 <= a)%Z -> (0 < b)%Z -> (0 <= inject_Z a / inject_Z b)%Q.
Proof.
  intros Ha Hb. apply Qle_shift_div_l.
  - change 0%Q with (inject_Z 0). rewrite <- Zlt_Qlt. exact Hb.
  - rewrite Qmult_0_l. change 0%Q with (inject_Z 0). rewrite <- Zle_Qle.
    exact Ha.
Qed.

Lemma unit_ratio_bounds (a b : Z) :
  (0 <= a)%Z -> (0 < b)%Z ->
  (0 <= Qmin (inject_Z a / inject_Z b) 1)%Q
  /\ (Qmin (inject_Z a / inject_Z b) 1 <= 1)%Q.
Proof.
  intros Ha Hb. split.
  - apply Q.min_glb; [apply Qdiv_nonneg; assumption | lra].
  - apply Q.le_min_r.
Qed.


Lemma bonus_positive t d : (0 < tld_bonus t * health_bonus d)%Q.
Proof.
  unfold tld_bonus, health_bonus.
  destruct (String.eqb t ".com"); destruct (Qle_bool _ _); reflexivity.
Qed.



(** ** The menu *)

Lemma endswith_refl k : Str.endswith k k = true.
Proof.
  destruct k; cbn; [reflexivity|].
  rewrite Ascii.eqb_refl, String.eqb_refl. reflexivity.
Qed.

Lemma endswith_app a s k :
  Str.endswith s k = true -> Str.endswith (a +:+ s) k = true.
Proof.
  intros H. induction a as [|c a IH]; [exact H|].
  change (String c a +:+ s) with (String c (a +:+ s)).
  change (Str.endswith (String c (a +:+ s)) k)
    with (if String.eqb (String c (a +:+ s)) k then true
          else Str.endswith (a +:+ s) k).
  rewrite IH. destruct (String.eqb _ _); reflexivity.
Qed.

Lemma join_endswith_last sep l x :
  Str.endswith (Str.join sep (l ++ [x])) x = true.
Proof.
  induction l as [|y l IH].
  - apply endswith_refl.
  - cbn [app Str.join]. destruct (l ++ [x]) eqn:E.
    + destruct l; discriminate.
    + rewrite <- E in *. do 2 apply endswith_app. exact IH.
Qed.

(** C9, as stated, fails on "IT / Software": that industry has five middle
    items, and the cut to seven entries removes "Contact". *)
Lemma menu_it_software_not_as_specified :
  ~ menu_as_specified "IT / Software".
Proof.
  intros (middle & Hlen & Heq).
  assert (Hend : Str.endswith (generate_menu_navigation "IT / Software")
                   "Contact" = true).
  { rewrite Heq. rewrite firstn_all2.
    - replace (["Home"] ++ middle ++ ["About"; "Contact"])
        with (("Home" :: middle ++ ["About"]) ++ ["Contact"])
        by (cbn; rewrite <- app_assoc; reflexivity).
      apply join_endswith_last.
    - rewrite !length_app. cbn. lia. }
  vm_compute in Hend. discriminate.
Qed.

Lemma dict_get_miss {V} (table : list (string * V)) key default :
  existsb (fun e => String.eqb (fst e) key) table = false ->
  dict_get table key default = default.
Proof.
  induction table as [|[k v] table IH]; [reflexivity|].
  cbn [existsb dict_get fst]. destruct (String.eqb k key); [discriminate|].
  exact IH.
Qed.

Lemma dict_get_hit {V} (table : list (string * V)) key default :
  existsb (fun e => String.eqb (fst e) key) table = true ->
  In (key, dict_get table key default) table.
Proof.
  induction table as [|[k v] table IH]; [discriminate|].
  cbn [existsb dict_get fst]. destruct (String.eqb_spec k key) as [->|_].
  - intros _. left. reflexivity.
  - intros H. right. apply IH, H.
Qed.

(** Every mapped industry other than "IT / Software" has four middle
    items, and an unmapped one has three. *)
Lemma middle_items_length industry :
  String.eqb industry "IT / Software" = false ->
  (length (middle_items industry) <= 4)%nat.
Proof.
  intros Hit. unfold middle_items, industry_specific.
  cbn [dict_get].
  repeat match goal with
  | |- context [String.eqb ?k industry] =>
      destruct (String.eqb_spec k industry) as [<-|_];
      [first [cbn; lia | vm_compute in Hit; discriminate Hit]|]
  end.
  cbn. lia.
Qed.

(** C9, amended.  The menu is the first seven entries of "Home", the
    industry's middle items and "About", "Contact", joined with " | ".  The
    middle items come from the static table, or are Products, Services,
    Resources for an unmapped industry.  For every industry but
    "IT / Software" there are at most four of them and nothing is cut;
    "IT / Software" has five, and its menu ends with "About". *)
Theorem menu_navigation_shape (industry : string) :
  generate_menu_navigation industry
  = Str.join " | "
      (firstn 7 (["Home"] ++ middle_items industry ++ ["About"; "Contact"]))
  /\ (if existsb (fun e => String.eqb (fst e) industry) industry_specific
      then In (industry, middle_items industry) industry_specific
      else middle_items industry = ["Products"; "Services"; "Resources"])
  /\ (if String.eqb industry "IT / Software"
      then generate_menu_navigation industry = it_software_menu
      else (length (middle_items industry) <= 4)%nat
           /\ generate_menu_navigation industry
              = Str.join " | "
                  (["Home"] ++ middle_items industry ++ ["About"; "Contact"])).
Proof.
  split; [reflexivity|]. split.
  - destruct (existsb _ _) eqn:E.
    + apply dict_get_hit, E.
    + apply dict_get_miss, E.
  - destruct (String.eqb_spec industry "IT / Software") as [->|Hne].
    + reflexivity.
    + assert (Hlen : (length (middle_items industry) <= 4)%nat).
      { apply middle_items_length. apply String.eqb_neq, Hne. }
      split; [exact Hlen|].
      unfold generate_menu_navigation, menu_items. f_equal.
      apply firstn_all2. cbn [base_menu firstn skipn].
      rewrite !length_app. cbn [length]. lia.
Qed.

(** ** Slices *)

Section SliceFacts.
Context {A : Type}.
Implicit Types l : list A.

Lemma slice_index_le l i : (slice_index l i <= length l)%nat.
Proof. unfold slice_index, len. destruct (Z.ltb_spec i 0); lia. Qed.

Lemma slice_index_nonneg l i :
  (0 <= i)%Z -> slice_index l i = Nat.min (Z.to_nat i) (length l).
Proof.
  intros Hi. unfold slice_index, len.
  destruct (Z.ltb_spec i 0); lia.
Qed.

Lemma firstn_firstn_skipn l a k :
  firstn a l ++ firstn k (skipn a l) = firstn (a + k) l.
Proof.
  revert l. induction a as [|a IH]; intros l; [reflexivity|].
  destruct l as [|x l]; cbn [firstn skipn app Nat.add].
  - destruct k; reflexivity.
  - rewrite IH. reflexivity.
Qed.

(** A quota slice followed by the slice that starts at the same index is
    again a prefix of the list. *)
Lemma slice_to_slice l c e :
  slice_to l c ++ slice l c e
  = firstn (Nat.max (slice_index l c) (slice_index l e)) l.
Proof.
  unfold slice_to, slice. rewrite firstn_firstn_skipn. f_equal. lia.
Qed.

Lemma slice_to_nonneg l c :
  (0 <= c)%Z -> slice_to l c = firstn (Z.to_nat c) l.
Proof.
  intros Hc. unfold slice_to. rewrite slice_index_nonneg by exact Hc.
  destruct (Nat.le_ge_cases (Z.to_nat c) (length l)) as [H|H].
  - rewrite Nat.min_l by exact H. reflexivity.
  - rewrite Nat.min_r by exact H.
    rewrite !firstn_all2 by lia. reflexivity.
Qed.




End SliceFacts.

(** ** Sorting *)

Section SortFacts.
Context {A : Type} (key : A -> Q).

Lemma insert_desc_perm x l : Permutation (insert_desc key x l) (x :: l).
Proof.
  induction l as [|y l IH]; [reflexivity|].
  cbn [insert_desc]. destruct (Qltb (key x) (key y)); [|reflexivity].
  rewrite IH. apply perm_swap.
Qed.

Lemma sort_desc_perm l : Permutation (sort_desc key l) l.
Proof.
  induction l as [|x l IH]; [reflexivity|].
  cbn [sort_desc fold_right]. rewrite insert_desc_perm.
  apply perm_skip, IH.
Qed.

Lemma insert_desc_descending x l :
  descending key l -> descending key (insert_desc key x l).
Proof.
  unfold descending. induction l as [|y l IH]; intros Hs.
  - constructor; constructor.
  - apply StronglySorted_inv in Hs as [Hs Hy]. cbn [insert_desc].
    destruct (Qltb (key x) (key y)) eqn:E.
    + constructor; [apply IH, Hs|].
      apply Qltb_lt, Qlt_le_weak in E.
      rewrite List.Forall_forall in Hy |- *. intros z Hz.
      apply (Permutation_in _ (insert_desc_perm x l)) in Hz.
      destruct Hz as [<-|Hz]; [exact E | apply Hy, Hz].
    + apply Qltb_ge in E. constructor.
      * constructor; assumption.
      * constructor; [exact E|].
        rewrite List.Forall_forall in Hy |- *. intros z Hz.
        eapply Qle_trans; [apply Hy, Hz | exact E].
Qed.

Lemma sort_desc_descending l : descending key (sort_desc key l).
Proof.
  induction l as [|x l IH]; [constructor|].
  cbn [sort_desc fold_right]. apply insert_desc_descending, IH.
Qed.

End SortFacts.

Lemma mapM_score_key l keyed :
  mapM score_key l = Some keyed ->
  map snd keyed = l
  /\ Forall (fun p => combined_score (snd p) = Some (fst p)) keyed.
Proof.
  rewrite mapM_Some. induction 1 as [|d p l keyed Hp _ IH].
  - split; constructor.
  - destruct IH as [IH1 IH2]. unfold score_key in Hp.
    destruct (combined_score d) as [s|] eqn:E; [|discriminate].
    cbn in Hp. injection Hp as <-. cbn [map snd]. rewrite IH1.
    split; [reflexivity|]. constructor; [exact E | exact IH2].
Qed.

Lemma sort_by_score_perm l sel :
  sort_by_score l = Some sel -> Permutation sel l.
Proof.
  unfold sort_by_score. intros H.
  destruct (mapM score_key l) as [keyed|] eqn:E; [|discriminate].
  cbn in H. injection H as <-.
  apply mapM_score_key in E as [E _].
  rewrite <- E. apply Permutation_map, sort_desc_perm.
Qed.



(** ** The bucketed selector *)




(** Whatever the arguments, each bucket contributes a prefix of itself. *)
Lemma selected_buckets_prefixes it other N r :
  exists a b, selected_buckets it other N r = (firstn a it, firstn b other).
Proof.
  unfold selected_buckets.
  set (q := it_quota N r). set (oc := (N - q)%Z).
  set (it_gap := (q - len (slice_to it q))%Z).
  set (other_gap := (oc - len (slice_to other oc))%Z).
  destruct (_ && _); destruct (_ && _);
    rewrite ?slice_to_slice; unfold slice_to; eauto.
Qed.




Lemma select_top_domains_sorts it other N r sel :
  select_top_domains it other N r = Some sel ->
  sort_by_score (fst (selected_buckets it other N r)
                 ++ snd (selected_buckets it other N r)) = Some sel.
Proof.
  unfold select_top_domains.
  destruct (print_score_range (slice_to it _));
    [|intros H; discriminate H].
  destruct (print_score_range (slice_to other _));
    [|intros H; discriminate H].
  cbn [mbind option_bind].
  destruct (selected_buckets it other N r). exact (fun H => H).
Qed.









(** Every gap-fill slice is cut from what lies behind the quota slice of
    its bucket. *)
Lemma slice_behind_slice_to {A} (l : list A) c e :
  exists k, slice l c e = firstn k (skipn (length (slice_to l c)) l).
Proof.
  unfold slice, slice_to. rewrite length_firstn.
  rewrite Nat.min_l by apply slice_index_le. eauto.
Qed.

Lemma selected_buckets_disjoint it other N r :
  let q := it_quota N r in
  let oc := (N - q)%Z in
  (exists k, fst (selected_buckets it other N r)
             = slice_to it q ++ firstn k (skipn (length (slice_to it q)) it))
  /\ (exists k, snd (selected_buckets it other N r)
                = slice_to other oc
                  ++ firstn k (skipn (length (slice_to other oc)) other)).
Proof.
  intros q oc. unfold selected_buckets. fold q. fold oc. cbn [fst snd].
  split.
  - destruct (_ && _).
    + destruct (slice_behind_slice_to it q
                  (q + (oc - len (slice_to other oc)))) as [k ->]. eauto.
    + exists 0%nat. cbn [firstn]. rewrite app_nil_r. reflexivity.
  - destruct (_ && _).
    + destruct (slice_behind_slice_to other oc
                  (oc + (q - len (slice_to it q)))) as [k ->]. eauto.
    + exists 0%nat. cbn [firstn]. rewrite app_nil_r. reflexivity.
Qed.

(** C10. Whatever the buckets, the count and the ratio, a selection that
    [select_top_domains] returns takes each gap-fill slice from behind the
    quota slice of the same bucket, so it is a rearrangement of a prefix of
    the IT bucket and a prefix of the other bucket: every selected record
    comes from one position of the input, and distinct input records stay
    distinct. *)
Theorem select_no_record_twice it other N r sel :
  select_top_domains it other N r = Some sel ->
  let q := it_quota N r in
  let oc := (N - q)%Z in
  (exists k,
     fst (selected_buckets it other N r)
     = slice_to it q ++ firstn k (skipn (length (slice_to it q)) it))
  /\ (exists k,
        snd (selected_buckets it other N r)
        = slice_to other oc
          ++ firstn k (skipn (length (slice_to other oc)) other))
  /\ (exists a b,
        selected_buckets it other N r = (firstn a it, firstn b other)
        /\ Permutation sel (firstn a it ++ firstn b other))
  /\ (NoDup (it ++ other) -> NoDup sel).
Proof.
  intros Hsel q oc.
  destruct (selected_buckets_disjoint it other N r) as [H1 H2].
  split; [exact H1|]. split; [exact H2|].
  apply select_top_domains_sorts, sort_by_score_perm in Hsel.
  destruct (selected_buckets_prefixes it other N r) as (a & b & Hab).
  rewrite Hab in Hsel. cbn [fst snd] in Hsel.
  split.
  - exists a, b. split; [exact Hab | exact Hsel].
  - intros Hnd. rewrite Hsel.
    eapply sublist_NoDup; [exact Hnd|].
    apply sublist_app; apply sublist_take.
Qed.

(** A selection of five records out of distinct ones. *)
Lemma select_no_record_twice_witness :
  select_top_domains (sample_it 3) (sample_other 4)
    5 (8 # 10)
  = Some (sample_it 3 ++ firstn 2 (sample_other 4))
  /\ NoDup (sample_it 3 ++ firstn 2 (sample_other 4)).
Proof.
  assert (Hsel : select_top_domains (sample_it 3)
                   (sample_other 4) 5 (8 # 10)
                 = Some (sample_it 3
                         ++ firstn 2 (sample_other 4)))
    by (vm_compute; reflexivity).
  split; [exact Hsel|].
  apply (select_no_record_twice _ _ _ _ _ Hsel).
  apply (NoDup_fmap_1 domain).
  apply (bool_decide_unpack _). vm_compute. exact I.
Defined.

(** ** Classification and the deny-list *)

Lemma bucket_step_placed buckets d :
  bucket_step buckets d
  = match placed d with
    | Some (true, d') => (fst buckets ++ [d'], snd buckets)
    | Some (false, d') => (fst buckets, snd buckets ++ [d'])
    | None => buckets
    end.
Proof.
  destruct buckets as [it other]. unfold bucket_step, placed.
  destruct (match_industry (clean_domain (domain d))) as [industry quality].
  destruct (truthy industry) as [ind|]; [|reflexivity].
  cbv zeta. destruct (bool_decide _); [reflexivity|].
  destruct (Str.contains _ _); [reflexivity|].
  destruct (String.eqb ind _); reflexivity.
Qed.

Lemma omap_cons_match {A B} (f : A -> option B) x l :
  omap f (x :: l)
  = match f x with
    | Some y => y :: omap f l
    | None => omap f l
    end.
Proof. reflexivity. Qed.

Lemma placed_it_eq d :
  placed_it d
  = match placed d with
    | Some (true, d') => Some d'
    | _ => None
    end.
Proof. reflexivity. Qed.

Lemma placed_other_eq d :
  placed_other d
  = match placed d with
    | Some (false, d') => Some d'
    | _ => None
    end.
Proof. reflexivity. Qed.

Lemma fill_buckets_step d it other :
  bucket_step (it, other) d
  = (it ++ from_option (fun x => [x]) [] (placed_it d),
     other ++ from_option (fun x => [x]) [] (placed_other d)).
Proof.
  rewrite bucket_step_placed, placed_it_eq, placed_other_eq.
  destruct (placed d) as [[[] d']|]; cbn [fst snd from_option];
    rewrite ?app_nil_r; reflexivity.
Qed.

Lemma fold_left_nil_eq {A B} (f : A -> B -> A) a : fold_left f [] a = a.
Proof. reflexivity. Qed.

Lemma fold_left_cons_eq {A B} (f : A -> B -> A) x l a :
  fold_left f (x :: l) a = fold_left f l (f a x).
Proof. reflexivity. Qed.

Lemma omap_nil_eq {A B} (f : A -> option B) : omap f [] = [].
Proof. reflexivity. Qed.

Lemma fill_buckets_from domains it other :
  fold_left bucket_step domains (it, other)
  = (it ++ omap placed_it domains, other ++ omap placed_other domains).
Proof.
  revert it other. induction domains as [|d domains IH]; intros it other.
  - rewrite fold_left_nil_eq, !omap_nil_eq, !app_nil_r. reflexivity.
  - rewrite fold_left_cons_eq, fill_buckets_step, IH.
    rewrite !omap_cons_match.
    destruct (placed_it d), (placed_other d); cbn [from_option];
      rewrite <- ?app_assoc, ?app_nil_r; reflexivity.
Qed.

Lemma placed_facts d b d' :
  placed d = Some (b, d') ->
  domain d' = domain d /\ classified d' /\ passes_deny_list d'
  /\ combined_score d' = combined_score d
  /\ (b = true <-> industry d' = Some "IT / Software").
Proof.
  unfold placed.
  destruct (match_industry (clean_domain (domain d))) as [ind0 quality].
  destruct (truthy ind0) as [ind|]; [|discriminate].
  cbv zeta. cbn [tld set_classification].
  destruct (bool_decide_reflect (Some (get_tld (domain d)) = Some ".org"))
    as [|Horg]; [discriminate|].
  destruct (Str.contains _ _) eqn:Hhz; [discriminate|].
  intros H. injection H as <- <-.
  unfold classified, passes_deny_list.
  cbn [domain tld domain_name_clean combined_score industry
       industry_match_quality set_classification].
  split; [reflexivity|]. split; [split; eexists; reflexivity|].
  split; [|split; [reflexivity|]].
  - split; [reflexivity|]. split; [|split; [reflexivity | exact Hhz]].
    intros E. apply Horg. rewrite E. reflexivity.
  - split.
    + intros H. apply String.eqb_eq in H. rewrite H. reflexivity.
    + intros H. injection H as ->. reflexivity.
Qed.

Lemma fill_buckets_omap domains :
  fill_buckets domains = (omap placed_it domains, omap placed_other domains).
Proof. unfold fill_buckets. apply fill_buckets_from. Qed.

(** ** Batch scoring *)

Lemma score_record_classified ma mb mt d :
  classified d ->
  score_record ma mb mt d = Some (scored_with ma mb mt d)
  /\ has_score (scored_with ma mb mt d).
Proof.
  intros [[q Hq] [t Ht]].
  assert (H : exists s, score_record ma mb mt d
                        = Some (set_combined_score d s)).
  { unfold score_record, calculate_combined_score. rewrite Hq, Ht.
    eexists. reflexivity. }
  destruct H as [s Hs]. unfold scored_with. rewrite Hs.
  split; [reflexivity|]. eexists. reflexivity.
Qed.

Lemma scored_with_cases ma mb mt d :
  scored_with ma mb mt d = d
  \/ exists s, scored_with ma mb mt d = set_combined_score d s.
Proof.
  unfold scored_with, score_record.
  destruct (calculate_combined_score d ma mb mt) as [s|]; [right|left].
  - exists s. reflexivity.
  - reflexivity.
Qed.

Lemma scored_with_passes ma mb mt d :
  passes_deny_list d -> passes_deny_list (scored_with ma mb mt d).
Proof.
  intros H. destruct (scored_with_cases ma mb mt d) as [->|[s ->]];
    [exact H|]. exact H.
Qed.

Lemma scored_with_domain ma mb mt d :
  domain (scored_with ma mb mt d) = domain d.
Proof.
  destruct (scored_with_cases ma mb mt d) as [->|[s ->]]; reflexivity.
Qed.

Lemma mapM_score_records ma mb mt l :
  Forall classified l ->
  mapM (score_record ma mb mt) l = Some (map (scored_with ma mb mt) l)
  /\ Forall has_score (map (scored_with ma mb mt) l).
Proof.
  intros Hl. split.
  - apply mapM_Some. induction Hl as [|d l Hd _ IH]; constructor.
    + apply score_record_classified, Hd.
    + exact IH.
  - induction Hl as [|d l Hd _ IH]; constructor.
    + apply score_record_classified, Hd.
    + exact IH.
Qed.

Lemma sort_by_score_scored l :
  Forall has_score l -> sort_by_score l = Some (sort_scored l).
Proof.
  intros Hl. unfold sort_by_score, sort_scored.
  assert (E : mapM score_key l
              = Some (map (fun d => (default 0%Q (combined_score d), d)) l)).
  { apply mapM_Some. induction Hl as [|d l [s Hs] _ IH]; constructor.
    - unfold score_key. rewrite Hs. reflexivity.
    - exact IH. }
  rewrite E. reflexivity.
Qed.

Lemma sort_scored_perm l : Permutation (sort_scored l) l.
Proof.
  unfold sort_scored. rewrite sort_desc_perm, map_map. cbn [snd].
  rewrite map_id. reflexivity.
Qed.

Lemma placed_it_classified domains :
  Forall (fun d => classified d /\ passes_deny_list d
                   /\ industry d = Some "IT / Software")
    (omap placed_it domains).
Proof.
  apply List.Forall_forall. intros d' Hin. apply list_elem_of_In in Hin.
  apply list_elem_of_omap in Hin as (d & _ & Hd).
  rewrite placed_it_eq in Hd.
  destruct (placed d) as [[b x]|] eqn:E; [|discriminate].
  destruct b; [|discriminate]. injection Hd as ->.
  apply placed_facts in E as (_ & Hc & Hp & _ & Hi).
  split; [exact Hc|]. split; [exact Hp|]. apply Hi. reflexivity.
Qed.

Lemma placed_other_classified domains :
  Forall (fun d => classified d /\ passes_deny_list d
                   /\ industry d <> Some "IT / Software")
    (omap placed_other domains).
Proof.
  apply List.Forall_forall. intros d' Hin. apply list_elem_of_In in Hin.
  apply list_elem_of_omap in Hin as (d & _ & Hd).
  rewrite placed_other_eq in Hd.
  destruct (placed d) as [[b x]|] eqn:E; [|discriminate].
  destruct b; [discriminate|]. injection Hd as ->.
  apply placed_facts in E as (_ & Hc & Hp & _ & Hi).
  split; [exact Hc|]. split; [exact Hp|]. intros H. apply Hi in H.
  discriminate.
Qed.

(** [filter_and_score_domains] never raises, and its buckets are the
    placed records scored against the batch maxima and sorted. *)
Lemma filter_and_score_closed domains :
  filter_and_score_domains domains = Some (scored_buckets domains).
Proof.
  unfold filter_and_score_domains, scored_buckets.
  rewrite fill_buckets_omap.
  pose proof (placed_it_classified domains) as Hit.
  pose proof (placed_other_classified domains) as Hother.
  revert Hit Hother.
  generalize (omap placed_it domains) (omap placed_other domains).
  intros it other Hit Hother. cbv zeta.
  assert (Hcit : Forall classified it).
  { eapply Forall_impl; [exact Hit|]. intros d H. apply H. }
  assert (Hcother : Forall classified other).
  { eapply Forall_impl; [exact Hother|]. intros d H. apply H. }
  unfold batch_scorer.
  set (ma := batch_max_age (it ++ other)).
  set (mb := batch_max_backlinks (it ++ other)).
  set (mt := batch_max_traffic (it ++ other)).
  destruct (mapM_score_records ma mb mt it Hcit) as [Eit Sit].
  destruct (mapM_score_records ma mb mt other Hcother) as [Eother Sother].
  destruct (it ++ other) as [|d0 all] eqn:Eall.
  - apply app_eq_nil in Eall as [-> ->]. reflexivity.
  - rewrite Eit, Eother. cbn [mbind option_bind].
    rewrite (sort_by_score_scored _ Sit), (sort_by_score_scored _ Sother).
    reflexivity.
Qed.

Lemma scored_buckets_pass domains :
  Forall passes_deny_list
    (fst (scored_buckets domains) ++ snd (scored_buckets domains)).
Proof.
  unfold scored_buckets, batch_scorer. cbv zeta. cbn [fst snd].
  generalize (batch_max_age
                (omap placed_it domains ++ omap placed_other domains))
             (batch_max_backlinks
                (omap placed_it domains ++ omap placed_other domains))
             (batch_max_traffic
                (omap placed_it domains ++ omap placed_other domains)).
  intros ma mb mt.
  rewrite !sort_scored_perm. apply Forall_app. split.
  - apply Forall_map. eapply Forall_impl; [apply placed_it_classified|].
    intros d (_ & Hp & _). apply scored_with_passes, Hp.
  - apply Forall_map. eapply Forall_impl; [apply placed_other_classified|].
    intros d (_ & Hp & _). apply scored_with_passes, Hp.
Qed.

Lemma select_top_domains_from it other N r sel :
  select_top_domains it other N r = Some sel ->
  forall d, In d sel -> In d (it ++ other).
Proof.
  intros Hsel d Hd.
  apply select_top_domains_sorts, sort_by_score_perm in Hsel.
  destruct (selected_buckets_prefixes it other N r) as (a & b & Hab).
  rewrite Hab in Hsel. cbn [fst snd] in Hsel.
  apply (Permutation_in _ Hsel) in Hd.
  apply in_app_or in Hd. apply in_or_app.
  destruct Hd as [Hd|Hd]; [left|right];
    apply list_elem_of_In; apply list_elem_of_In in Hd;
    eapply subseteq_take; exact Hd.
Qed.

(** C5. Whatever the batch, [filter_and_score_domains] returns two buckets
    in which no record has TLD ".org" or a normalized name that contains
    "horizon", and so has no selection drawn from them.  The record
    "horizonhealthcare.com" is classified "Healthcare" (its name contains
    the keyword "health") and reaches no bucket. *)
Theorem deny_list_respected (domains : list domain_data) :
  exists it_domains other_domains,
    filter_and_score_domains domains = Some (it_domains, other_domains)
    /\ Forall passes_deny_list (it_domains ++ other_domains)
    /\ (forall N r selected,
          select_top_domains it_domains other_domains N r = Some selected ->
          Forall passes_deny_list selected)
    /\ clean_domain "horizonhealthcare.com" = "horizonhealthcare"
    /\ In ("Healthcare", "health") (table_pairs INDUSTRY_KEYWORDS)
    /\ Str.contains "horizonhealthcare" "health" = true
    /\ fst (match_industry "horizonhealthcare") = Some "Healthcare"
    /\ industry (classify horizonhealthcare) = Some "Healthcare"
    /\ Str.contains "horizonhealthcare" "horizon" = true
    /\ filter_and_score_domains [horizonhealthcare] = Some ([], []).
Proof.
  exists (fst (scored_buckets domains)), (snd (scored_buckets domains)).
  split; [rewrite filter_and_score_closed, <- surjective_pairing;
          reflexivity|].
  pose proof (scored_buckets_pass domains) as Hpass.
  split; [exact Hpass|]. split.
  - intros N r selected Hsel. apply List.Forall_forall. intros d Hd.
    rewrite List.Forall_forall in Hpass. apply Hpass.
    eapply select_top_domains_from; eassumption.
  - repeat split; try (vm_compute; reflexivity).
    vm_compute. do 30 right. left. reflexivity.
Qed.

(** A batch with both deny-list rules at work: only the third record
    reaches a bucket. *)
Lemma deny_list_respected_witness :
  filter_and_score_domains
    [horizonhealthcare; raw_record "cloudteam.org" 5 10 10 10 10 10;
     raw_record "mytechsolutions.com" 10 15 10 25 50 10]
  = Some ([set_combined_score
             (classify (raw_record "mytechsolutions.com" 10 15 10 25 50 10))
             (7750 # 100)], [])
  /\ passes_deny_list
       (set_combined_score
          (classify (raw_record "mytechsolutions.com" 10 15 10 25 50 10))
          (7750 # 100)).
Proof.
  assert (E : filter_and_score_domains
                [horizonhealthcare;
                 raw_record "cloudteam.org" 5 10 10 10 10 10;
                 raw_record "mytechsolutions.com" 10 15 10 25 50 10]
              = Some ([set_combined_score
                         (classify (raw_record "mytechsolutions.com"
                                      10 15 10 25 50 10))
                         (7750 # 100)], []))
    by (vm_compute; reflexivity).
  split; [exact E|].
  destruct (deny_list_respected
              [horizonhealthcare;
               raw_record "cloudteam.org" 5 10 10 10 10 10;
               raw_record "mytechsolutions.com" 10 15 10 25 50 10])
    as (it & other & Hf & Hpass & _).
  rewrite E in Hf. injection Hf as <- <-.
  inversion Hpass. assumption.
Defined.

(** ** Order independence of the batch maxima *)

Lemma fold_left_max_spec xs x :
  let m := fold_left Z.max xs x in
  (m = x \/ In m xs) /\ (x <= m)%Z /\ Forall (fun y => (y <= m)%Z) xs.
Proof.
  revert x. induction xs as [|y xs IH]; intros x; cbn [fold_left].
  - split; [left; reflexivity|]. split; [lia | constructor].
  - destruct (IH (Z.max x y)) as (Hin & Hle & Hall).
    split; [|split].
    + destruct Hin as [Hin|Hin].
      * destruct (Z.max_spec x y) as [[_ E]|[_ E]].
        -- right. left. congruence.
        -- left. congruence.
      * right. right. exact Hin.
    + lia.
    + constructor; [lia | exact Hall].
Qed.

Lemma py_max_spec default xs :
  xs <> [] ->
  In (py_max default xs) xs
  /\ Forall (fun y => (y <= py_max default xs)%Z) xs.
Proof.
  destruct xs as [|x xs]; [congruence|]. intros _. unfold py_max.
  destruct (fold_left_max_spec xs x) as (Hin & Hle & Hall).
  split.
  - destruct Hin as [->|Hin]; [left; reflexivity | right; exact Hin].
  - constructor; assumption.
Qed.

Lemma py_max_perm default xs ys :
  Permutation xs ys -> py_max default xs = py_max default ys.
Proof.
  intros Hp. destruct xs as [|x xs].
  - apply Permutation_nil in Hp. subst ys. reflexivity.
  - assert (Hys : ys <> []).
    { intros ->. apply Permutation_sym, Permutation_nil in Hp.
      discriminate. }
    destruct (py_max_spec default (x :: xs)) as [Hx Hxs]; [discriminate|].
    destruct (py_max_spec default ys Hys) as [Hy Hys'].
    rewrite List.Forall_forall in Hxs, Hys'.
    apply (Permutation_in _ Hp) in Hx.
    apply (Permutation_in _ (Permutation_sym Hp)) in Hy.
    apply Hys' in Hx. apply Hxs in Hy. lia.
Qed.

Lemma batch_maxima_perm l1 l2 :
  Permutation l1 l2 ->
  batch_max_age l1 = batch_max_age l2
  /\ batch_max_backlinks l1 = batch_max_backlinks l2
  /\ batch_max_traffic l1 = batch_max_traffic l2.
Proof.
  intros Hp. unfold batch_max_age, batch_max_backlinks, batch_max_traffic.
  repeat split; apply py_max_perm, Permutation_map, Hp.
Qed.

Lemma all_placed_perm ds1 ds2 :
  Permutation ds1 ds2 -> Permutation (all_placed ds1) (all_placed ds2).
Proof.
  intros Hp. unfold all_placed.
  apply Permutation_app; apply omap_Permutation, Hp.
Qed.

Lemma batch_scorer_perm l1 l2 d :
  Permutation l1 l2 -> batch_scorer l1 d = batch_scorer l2 d.
Proof.
  intros Hp. unfold batch_scorer.
  destruct (batch_maxima_perm l1 l2 Hp) as (-> & -> & ->). reflexivity.
Qed.

Lemma scored_buckets_perm ds1 ds2 :
  Permutation ds1 ds2 ->
  Permutation (fst (scored_buckets ds1)) (fst (scored_buckets ds2))
  /\ Permutation (snd (scored_buckets ds1)) (snd (scored_buckets ds2)).
Proof.
  intros Hp. unfold scored_buckets. cbv zeta. cbn [fst snd].
  fold (all_placed ds1). fold (all_placed ds2).
  rewrite !sort_scored_perm.
  pose proof (all_placed_perm ds1 ds2 Hp) as Hall.
  split.
  - rewrite (map_ext _ _ (fun d => batch_scorer_perm _ _ d Hall)).
    apply Permutation_map, omap_Permutation, Hp.
  - rewrite (map_ext _ _ (fun d => batch_scorer_perm _ _ d Hall)).
    apply Permutation_map, omap_Permutation, Hp.
Qed.

(** ** A second run over the records the first run left behind *)

Lemma same_base_refl d : same_base d d.
Proof. repeat split. Qed.

Lemma same_base_trans d1 d2 d3 :
  same_base d1 d2 -> same_base d2 d3 -> same_base d1 d3.
Proof.
  unfold same_base. intros H1 H2.
  destruct H1 as (?&?&?&?&?&?&?&?), H2 as (?&?&?&?&?&?&?&?).
  repeat split; congruence.
Qed.

Lemma set_classification_base d name t ind q :
  same_base (set_classification d name t ind q) d.
Proof. repeat split. Qed.

Lemma set_combined_score_base d s : same_base (set_combined_score d s) d.
Proof. repeat split. Qed.

Lemma scored_with_base ma mb mt d : same_base (scored_with ma mb mt d) d.
Proof.
  destruct (scored_with_cases ma mb mt d) as [->|[s ->]].
  - apply same_base_refl.
  - apply set_combined_score_base.
Qed.

Lemma classify_eq d :
  classify d
  = match truthy (fst (match_industry (clean_domain (domain d)))) with
    | Some ind =>
        set_classification d (clean_domain (domain d)) (get_tld (domain d))
          ind (snd (match_industry (clean_domain (domain d))))
    | None => d
    end.
Proof.
  unfold classify.
  destruct (match_industry (clean_domain (domain d))). reflexivity.
Qed.

Lemma classify_base d : same_base (classify d) d.
Proof.
  rewrite classify_eq. destruct (truthy _).
  - apply set_classification_base.
  - apply same_base_refl.
Qed.

Lemma placed_eq d :
  placed d
  = match truthy (fst (match_industry (clean_domain (domain d)))) with
    | Some ind =>
        if bool_decide (Some (get_tld (domain d)) = Some ".org") then None
        else if Str.contains (clean_domain (domain d)) "horizon" then None
        else Some (String.eqb ind "IT / Software",
                   set_classification d (clean_domain (domain d))
                     (get_tld (domain d)) ind
                     (snd (match_industry (clean_domain (domain d)))))
    | None => None
    end.
Proof.
  unfold placed.
  destruct (match_industry (clean_domain (domain d))). reflexivity.
Qed.

Lemma placed_base d b d' : placed d = Some (b, d') -> same_base d' d.
Proof.
  rewrite placed_eq. destruct (truthy _); [|discriminate].
  destruct (bool_decide _); [discriminate|].
  destruct (Str.contains _ _); [discriminate|].
  intros H. injection H as _ <-. apply set_classification_base.
Qed.

Lemma set_classification_same_but_score d1 d2 name t ind q :
  same_base d1 d2 ->
  same_but_score (set_classification d1 name t ind q)
    (set_classification d2 name t ind q).
Proof.
  destruct d1, d2. unfold same_base, same_but_score. cbn.
  intros (?&?&?&?&?&?&?&?). subst. reflexivity.
Qed.

(** Records with the same loaded fields are placed alike, up to the score
    they carried before. *)
Lemma placed_congr d1 d2 :
  same_base d1 d2 ->
  match placed d1, placed d2 with
  | Some (b1, d1'), Some (b2, d2') => b1 = b2 /\ same_but_score d1' d2'
  | None, None => True
  | _, _ => False
  end.
Proof.
  intros Hb. rewrite !placed_eq.
  assert (E : domain d1 = domain d2) by apply Hb. rewrite E.
  destruct (truthy _); [|exact I].
  destruct (bool_decide _); [exact I|].
  destruct (Str.contains _ _); [exact I|].
  split; [reflexivity|]. apply set_classification_same_but_score, Hb.
Qed.

Lemma same_but_score_fields d1 d2 :
  same_but_score d1 d2 ->
  same_base d1 d2 /\ tld d1 = tld d2
  /\ industry_match_quality d1 = industry_match_quality d2.
Proof.
  destruct d1, d2. unfold same_but_score, same_base. cbn.
  intros H. injection H as -> -> -> -> -> -> -> -> -> -> -> -> ->.
  repeat split.
Qed.

Lemma same_but_score_set d1 d2 s :
  same_but_score d1 d2 -> set_combined_score d1 s = set_combined_score d2 s.
Proof.
  destruct d1, d2. unfold same_but_score. cbn.
  intros H. injection H as -> -> -> -> -> -> -> -> -> -> -> -> ->.
  reflexivity.
Qed.

Lemma calculate_combined_score_congr d1 d2 ma mb mt :
  same_but_score d1 d2 ->
  calculate_combined_score d1 ma mb mt = calculate_combined_score d2 ma mb mt.
Proof.
  destruct d1, d2. unfold same_but_score. cbn.
  intros H. injection H as -> -> -> -> -> -> -> -> -> -> -> -> ->.
  reflexivity.
Qed.

Lemma scored_with_congr ma mb mt d1 d2 :
  same_but_score d1 d2 -> classified d1 ->
  scored_with ma mb mt d1 = scored_with ma mb mt d2.
Proof.
  intros Hs [[q Hq] [t Ht]]. unfold scored_with, score_record.
  rewrite <- (calculate_combined_score_congr d1 d2 ma mb mt Hs).
  unfold calculate_combined_score. rewrite Hq, Ht. cbn [mbind option_bind].
  apply same_but_score_set, Hs.
Qed.

Lemma omap_placed_congr l1 l2 :
  Forall2 same_base l1 l2 ->
  Forall2 same_but_score (omap placed_it l1) (omap placed_it l2)
  /\ Forall2 same_but_score (omap placed_other l1) (omap placed_other l2).
Proof.
  induction 1 as [|d1 d2 l1 l2 Hd _ [IHit IHother]].
  - split; constructor.
  - rewrite !omap_cons_match, !placed_it_eq, !placed_other_eq.
    pose proof (placed_congr d1 d2 Hd) as Hp.
    destruct (placed d1) as [[b1 x1]|], (placed d2) as [[b2 x2]|];
      try contradiction; [|split; assumption].
    destruct Hp as [<- Hs].
    destruct b1; split; try assumption; constructor; assumption.
Qed.

Lemma same_but_score_maxima l1 l2 :
  Forall2 same_but_score l1 l2 ->
  batch_max_age l1 = batch_max_age l2
  /\ batch_max_backlinks l1 = batch_max_backlinks l2
  /\ batch_max_traffic l1 = batch_max_traffic l2.
Proof.
  intros H. unfold batch_max_age, batch_max_backlinks, batch_max_traffic.
  assert (Hb : Forall2 same_base l1 l2).
  { eapply Forall2_impl; [exact H|]. intros d1 d2 Hd.
    apply same_but_score_fields, Hd. }
  repeat split; f_equal; clear H;
    induction Hb as [|d1 d2 l1 l2 (?&?&?&?&?&?&?&?) _ IH];
    cbn [map]; congruence.
Qed.

Lemma map_scored_with_congr ma mb mt l1 l2 :
  Forall2 same_but_score l1 l2 -> Forall classified l1 ->
  map (scored_with ma mb mt) l1 = map (scored_with ma mb mt) l2.
Proof.
  induction 1 as [|d1 d2 l1 l2 Hd _ IH]; intros Hc; [reflexivity|].
  apply Forall_cons in Hc as [Hc1 Hc]. cbn [map]. f_equal.
  - apply scored_with_congr; assumption.
  - apply IH, Hc.
Qed.

Lemma scored_buckets_congr ds1 ds2 :
  Forall2 same_base ds1 ds2 -> scored_buckets ds1 = scored_buckets ds2.
Proof.
  intros Hb. unfold scored_buckets, batch_scorer. cbv zeta.
  destruct (omap_placed_congr ds1 ds2 Hb) as [Hit Hother].
  assert (Hall : Forall2 same_but_score
                   (omap placed_it ds1 ++ omap placed_other ds1)
                   (omap placed_it ds2 ++ omap placed_other ds2))
    by (apply Forall2_app; assumption).
  destruct (same_but_score_maxima _ _ Hall) as (-> & -> & ->).
  f_equal; f_equal; apply map_scored_with_congr; try assumption.
  - eapply Forall_impl; [apply placed_it_classified|]. intros d H. apply H.
  - eapply Forall_impl; [apply placed_other_classified|]. intros d H. apply H.
Qed.

Lemma domains_after_eq domains :
  domains_after domains
  = map (fun d =>
           match placed d with
           | Some (_, d') => batch_scorer (all_placed domains) d'
           | None => classify d
           end)
      domains.
Proof.
  unfold domains_after. rewrite fill_buckets_omap. reflexivity.
Qed.

Lemma batch_scorer_base all d : same_base (batch_scorer all d) d.
Proof. unfold batch_scorer. apply scored_with_base. Qed.

Lemma domains_after_base domains :
  Forall2 same_base (domains_after domains) domains.
Proof.
  rewrite domains_after_eq. generalize (all_placed domains). intros all.
  induction domains as [|d domains IH]; [constructor|].
  rewrite map_cons. constructor; [|exact IH].
  destruct (placed d) as [[b d']|] eqn:E.
  - apply (same_base_trans _ d' _).
    + apply batch_scorer_base.
    + exact (placed_base d b d' E).
  - apply classify_base.
Qed.

(** Running the stage again on the records it has updated in place gives
    the same buckets, scores and order. *)
Lemma filter_and_score_rerun domains :
  filter_and_score_domains (domains_after domains)
  = filter_and_score_domains domains.
Proof.
  rewrite !filter_and_score_closed. f_equal.
  apply scored_buckets_congr, domains_after_base.
Qed.

Lemma all_placed_fill domains :
  fst (fill_buckets domains) ++ snd (fill_buckets domains)
  = all_placed domains.
Proof. rewrite fill_buckets_omap. reflexivity. Qed.

(** C7. The batch maxima, and with them the score of every record, do not
    depend on the order of the batch: on two batches that are permutations
    of one another [filter_and_score_domains] computes the same three
    maxima, scores every record alike and fills each bucket with the same
    scored records.  Running it again on the records it has updated gives
    the same scores in the same order. *)
Theorem scoring_order_independent (ds1 ds2 : list domain_data) :
  Permutation ds1 ds2 ->
  let all1 := fst (fill_buckets ds1) ++ snd (fill_buckets ds1) in
  let all2 := fst (fill_buckets ds2) ++ snd (fill_buckets ds2) in
  (batch_max_age all1 = batch_max_age all2
   /\ batch_max_backlinks all1 = batch_max_backlinks all2
   /\ batch_max_traffic all1 = batch_max_traffic all2)
  /\ (forall d,
        score_record (batch_max_age all1) (batch_max_backlinks all1)
          (batch_max_traffic all1) d
        = score_record (batch_max_age all2) (batch_max_backlinks all2)
            (batch_max_traffic all2) d)
  /\ (exists it1 other1 it2 other2,
        filter_and_score_domains ds1 = Some (it1, other1)
        /\ filter_and_score_domains ds2 = Some (it2, other2)
        /\ Permutation it1 it2 /\ Permutation other1 other2
        /\ forall d, In d (it1 ++ other1) <-> In d (it2 ++ other2))
  /\ filter_and_score_domains (domains_after ds1)
     = filter_and_score_domains ds1.
Proof.
  intros Hp all1 all2. subst all1 all2. rewrite !all_placed_fill.
  pose proof (all_placed_perm ds1 ds2 Hp) as Hall.
  destruct (batch_maxima_perm _ _ Hall) as (Ha & Hb & Ht).
  split; [repeat split; assumption|].
  split; [intros d; rewrite Ha, Hb, Ht; reflexivity|].
  split; [|apply filter_and_score_rerun].
  destruct (scored_buckets_perm ds1 ds2 Hp) as [Hit Hother].
  exists (fst (scored_buckets ds1)), (snd (scored_buckets ds1)),
         (fst (scored_buckets ds2)), (snd (scored_buckets ds2)).
  rewrite !filter_and_score_closed, <- !surjective_pairing.
  split; [reflexivity|]. split; [reflexivity|].
  split; [exact Hit|]. split; [exact Hother|].
  intros d. split; apply Permutation_in.
  - apply Permutation_app; assumption.
  - apply Permutation_sym, Permutation_app; assumption.
Qed.

(** A batch and the same batch in reverse order. *)
Lemma scoring_order_independent_witness :
  Permutation sample_batch (rev sample_batch)
  /\ (batch_max_age
        (fst (fill_buckets sample_batch) ++ snd (fill_buckets sample_batch))
      = batch_max_age
          (fst (fill_buckets (rev sample_batch))
           ++ snd (fill_buckets (rev sample_batch))))
  /\ (exists it1 other1 it2 other2,
        filter_and_score_domains sample_batch = Some (it1, other1)
        /\ filter_and_score_domains (rev sample_batch) = Some (it2, other2)
        /\ Permutation it1 it2 /\ Permutation other1 other2
        /\ forall d, In d (it1 ++ other1) <-> In d (it2 ++ other2)).
Proof.
  assert (Hp : Permutation sample_batch (rev sample_batch))
    by apply Permutation_rev.
  split; [exact Hp|].
  destruct (scoring_order_independent sample_batch (rev sample_batch) Hp)
    as ((Ha & _) & _ & Hex & _).
  split; [exact Ha | exact Hex].
Defined.

(** ** Loading *)

(** C8, as stated, fails: a first occurrence whose numbers do not parse is
    dropped, yet it has already marked its domain as seen, so the valid row
    behind it is skipped too and nothing is loaded for the domain. *)
Lemma first_occurrence_not_always_kept :
  ~ first_occurrence_kept int_as_float malformed_then_valid ∅.
Proof.
  intros H.
  destruct (H 0%nat (csv_row "Tech.com" "" "n/a" "" "" "" "" "") "tech.com")
    as (d & Hin & _).
  - split; [reflexivity|]. split; [vm_compute; reflexivity|].
    intros j row' Hj. lia.
  - vm_compute in Hin. exact Hin.
Qed.

Section LoadFacts.
Variable py_float : string -> option Q.
Variable excluded_domains : gset string.

Lemma build_record_domain row domain_name d :
  build_record py_float row domain_name = Some d -> domain d = domain_name.
Proof.
  unfold build_record. intros H.
  repeat match type of H with
  | (?o ≫= _) = Some _ =>
      destruct o; cbn [mbind option_bind] in H; [|discriminate H]
  end.
  injection H as <-. reflexivity.
Qed.

Lemma row_record_key row d :
  row_record py_float row = Some d -> row_key row = Some (domain_key d).
Proof.
  unfold row_record, row_key, domain_key.
  destruct (row !! "Domain Name") as [cell|]; [|discriminate].
  cbn [mbind option_bind fmap option_fmap option_map]. intros H.
  apply build_record_domain in H. rewrite H. reflexivity.
Qed.

(** One turn of the loading loop, by the key of the row. *)
Lemma load_row_eq st row :
  load_row py_float excluded_domains st row
  = match row_key row with
    | None => st
    | Some key =>
        if bool_decide (key ∈ seen_domains st) then st
        else if bool_decide (key ∈ excluded_domains) then
          mk_load_state (all_domains st) (seen_domains st)
            (excluded_count st + 1)
        else
          match row_record py_float row with
          | Some d =>
              mk_load_state (all_domains st ++ [d])
                (seen_domains st ∪ {[ key ]}) (excluded_count st)
          | None =>
              mk_load_state (all_domains st) (seen_domains st ∪ {[ key ]})
                (excluded_count st)
          end
    end.
Proof.
  unfold load_row, row_key, row_record.
  destruct (row !! "Domain Name"); reflexivity.
Qed.

Lemma load_state_of_concat files :
  load_state_of py_float files excluded_domains
  = fold_left (load_row py_float excluded_domains) (concat files)
      (mk_load_state [] ∅ 0).
Proof.
  unfold load_state_of. generalize (mk_load_state [] ∅ 0).
  induction files as [|rows files IH]; intros st; [reflexivity|].
  cbn [fold_left concat]. rewrite fold_left_app. apply IH.
Qed.

End LoadFacts.

Section LoadInvariant.
Variable py_float : string -> option Q.
Variable excluded_domains : gset string.
Implicit Types rows : list (gmap string string).

Lemma first_with_key_snoc rows r i row key :
  first_with_key (rows ++ [r]) i row key
  <-> (first_with_key rows i row key
       \/ (i = length rows /\ row = r /\ row_key r = Some key
           /\ forall j row', rows !! j = Some row' ->
                row_key row' <> Some key)).
Proof.
  unfold first_with_key. rewrite lookup_snoc_Some. split.
  - intros ([[Hi Hl]|[-> <-]] & Hk & Hfirst).
    + left. split; [exact Hl|]. split; [exact Hk|].
      intros j row' Hj Hl'. apply (Hfirst j row' Hj).
      apply lookup_snoc_Some. left. split; [lia | exact Hl'].
    + right. split; [reflexivity|]. split; [reflexivity|].
      split; [exact Hk|]. intros j row' Hl'.
      apply (Hfirst j row').
      * apply lookup_lt_Some in Hl'. exact Hl'.
      * apply lookup_snoc_Some. left.
        split; [eapply lookup_lt_Some, Hl' | exact Hl'].
  - intros [(Hl & Hk & Hfirst)|(-> & -> & Hk & Hfirst)].
    + split; [left; split; [eapply lookup_lt_Some, Hl | exact Hl]|].
      split; [exact Hk|]. intros j row' Hj Hl'.
      apply lookup_snoc_Some in Hl' as [[_ Hl']|[-> _]].
      * apply (Hfirst j row' Hj Hl').
      * apply lookup_lt_Some in Hl. lia.
    + split; [right; split; reflexivity|]. split; [exact Hk|].
      intros j row' Hj Hl'.
      apply lookup_snoc_Some in Hl' as [[_ Hl']|[-> _]].
      * apply (Hfirst j row' Hl').
      * lia.
Qed.

Lemma key_seen_snoc rows r key :
  (exists i row, (rows ++ [r]) !! i = Some row /\ row_key row = Some key)
  <-> ((exists i row, rows !! i = Some row /\ row_key row = Some key)
       \/ row_key r = Some key).
Proof.
  split.
  - intros (i & row & Hl & Hk).
    apply lookup_snoc_Some in Hl as [[_ Hl]|[_ <-]]; [left|right]; eauto.
  - intros [(i & row & Hl & Hk)|Hk].
    + exists i, row. split; [|exact Hk].
      apply lookup_snoc_Some. left.
      split; [eapply lookup_lt_Some, Hl | exact Hl].
    + exists (length rows), r. split; [|exact Hk].
      apply lookup_snoc_Some. right. split; reflexivity.
Qed.

Lemma load_invariant_init :
  load_invariant py_float excluded_domains [] (mk_load_state [] ∅ 0).
Proof.
  constructor; cbn [seen_domains all_domains].
  - intros key. split.
    + intros H. apply not_elem_of_empty in H. contradiction.
    + intros (_ & i & row & Hl & _). rewrite lookup_nil in Hl. discriminate.
  - intros d. split; [intros []|].
    intros (i & row & key & (Hl & _) & _). rewrite lookup_nil in Hl.
    discriminate.
  - constructor.
Qed.

(** A row that is skipped (no key, key already seen, key excluded) leaves
    the invariant in place. *)
Lemma load_invariant_skip rows st st' r :
  load_invariant py_float excluded_domains rows st ->
  all_domains st' = all_domains st ->
  seen_domains st' = seen_domains st ->
  (forall key, row_key r = Some key ->
     key ∈ excluded_domains \/ key ∈ seen_domains st) ->
  load_invariant py_float excluded_domains (rows ++ [r]) st'.
Proof.
  intros [Hseen Hall Hnd] Eall Eseen Hskip.
  constructor; rewrite ?Eall, ?Eseen.
  - intros k. rewrite Hseen, key_seen_snoc. split.
    + intros [Hk He]. split; [exact Hk | left; exact He].
    + intros [Hk [He|Hr]]; [split; assumption|].
      destruct (Hskip k Hr) as [Hex|Hin]; [contradiction|].
      apply Hseen, Hin.
  - intros d. rewrite Hall. split.
    + intros (i & row & k & Hf & Hk & Hr). exists i, row, k.
      split; [apply first_with_key_snoc; left; exact Hf|]. split; assumption.
    + intros (i & row & k & Hf & Hk & Hr).
      apply first_with_key_snoc in Hf as [Hf|(-> & -> & Hrk & Hfresh)].
      * exists i, row, k. split; [exact Hf|]. split; assumption.
      * exfalso. destruct (Hskip k Hrk) as [Hex|Hin]; [contradiction|].
        apply Hseen in Hin as (_ & j & row' & Hl & Hk').
        exact (Hfresh j row' Hl Hk').
  - exact Hnd.
Qed.

Lemma load_invariant_step rows st r :
  load_invariant py_float excluded_domains rows st ->
  load_invariant py_float excluded_domains (rows ++ [r])
    (load_row py_float excluded_domains st r).
Proof.
  intros Hinv. rewrite load_row_eq.
  destruct (row_key r) as [key|] eqn:Hkey.
  2:{ (* the row has no "Domain Name" column *)
    apply (load_invariant_skip rows st st r Hinv eq_refl eq_refl).
    intros k Hk. rewrite Hkey in Hk. discriminate. }
  destruct (bool_decide_reflect (key ∈ seen_domains st)) as [Hin|Hnot].
  { (* a later occurrence *)
    apply (load_invariant_skip rows st st r Hinv eq_refl eq_refl).
    intros k Hk. rewrite Hkey in Hk. injection Hk as <-. right. exact Hin. }
  destruct (bool_decide_reflect (key ∈ excluded_domains)) as [Hex|Hnex].
  { (* an excluded domain *)
    apply (load_invariant_skip rows st); [exact Hinv | reflexivity..|].
    intros k Hk. rewrite Hkey in Hk. injection Hk as <-. left. exact Hex. }
  destruct Hinv as [Hseen Hall Hnd].
  (* the first occurrence of a domain that is not excluded *)
  assert (Hfresh : forall j row', rows !! j = Some row' ->
                     row_key row' <> Some key).
  { intros j row' Hl Hk. apply Hnot, Hseen. eauto. }
  assert (Hseen' : forall k,
            (k ∈ seen_domains st ∪ {[ key ]})
            <-> ((k ∉ excluded_domains)
                 /\ exists i row, (rows ++ [r]) !! i = Some row
                                  /\ row_key row = Some k)).
  { intros k. rewrite elem_of_union, elem_of_singleton, Hseen,
      key_seen_snoc, Hkey. split.
    - intros [[Hk He]| ->].
      + split; [exact Hk | left; exact He].
      + split; [exact Hnex | right; reflexivity].
    - intros [Hk [He|Hr]].
      + left. split; assumption.
      + right. congruence. }
  destruct (row_record py_float r) as [d0|] eqn:Hrec.
  - constructor; cbn [seen_domains all_domains].
    + exact Hseen'.
    + intros d. rewrite in_app_iff, Hall.
      setoid_rewrite first_with_key_snoc. rewrite Hkey. cbn [In].
      split.
      * intros [(i & row & k & Hf & Hk & Hr)|[<-|[]]].
        -- exists i, row, k. eauto.
        -- exists (length rows), r, key. split; [right|]; eauto 10.
      * intros (i & row & k & [Hf|(-> & -> & Hk' & _)] & Hk & Hr).
        -- left. eauto 10.
        -- right. left. congruence.
    + rewrite map_app. cbn [map]. apply NoDup_app. split; [exact Hnd|].
      split; [|apply NoDup_singleton].
      intros k Hk Hk'. apply list_elem_of_singleton in Hk'. subst k.
      apply list_elem_of_In, in_map_iff in Hk as (d & Hd & Hin).
      apply Hall in Hin as (i & row & k & (Hl & Hrk & _) & _ & Hr).
      apply row_record_key in Hr. rewrite Hd in Hr.
      apply row_record_key in Hrec.
      rewrite Hkey in Hrec. injection Hrec as Hrec. rewrite <- Hrec in Hr.
      exact (Hfresh i row Hl Hr).
  - constructor; cbn [seen_domains all_domains].
    + exact Hseen'.
    + intros d. rewrite Hall. setoid_rewrite first_with_key_snoc.
      rewrite Hkey. split.
      * intros (i & row & k & Hf & Hk & Hr). exists i, row, k. eauto.
      * intros (i & row & k & [Hf|(-> & -> & Hk' & _)] & Hk & Hr).
        -- eauto 10.
        -- congruence.
    + exact Hnd.
Qed.

Lemma load_invariant_fold rows :
  load_invariant py_float excluded_domains rows
    (fold_left (load_row py_float excluded_domains) rows
       (mk_load_state [] ∅ 0)).
Proof.
  induction rows as [|r rows IH] using rev_ind.
  - apply load_invariant_init.
  - rewrite fold_left_app. cbn [fold_left]. apply load_invariant_step, IH.
Qed.

End LoadInvariant.

(** ** Uniqueness along the pipeline *)

Lemma placed_key d b d' :
  placed d = Some (b, d') -> domain_key d' = domain_key d.
Proof.
  intros H. apply placed_facts in H as (H & _). unfold domain_key.
  rewrite H. reflexivity.
Qed.

Lemma placed_it_key d d' :
  placed_it d = Some d' -> domain_key d' = domain_key d.
Proof.
  rewrite placed_it_eq.
  destruct (placed d) as [[[] x]|] eqn:E; try discriminate.
  intros H. injection H as <-. eapply placed_key, E.
Qed.

Lemma placed_other_key d d' :
  placed_other d = Some d' -> domain_key d' = domain_key d.
Proof.
  rewrite placed_other_eq.
  destruct (placed d) as [[[] x]|] eqn:E; try discriminate.
  intros H. injection H as <-. eapply placed_key, E.
Qed.

Lemma placed_exclusive d :
  placed_it d = None \/ placed_other d = None.
Proof.
  rewrite placed_it_eq, placed_other_eq.
  destruct (placed d) as [[[] x]|]; auto.
Qed.

Lemma omap_keys (f : domain_data -> option domain_data)
    (l : list domain_data) (k : string) :
  (forall d d', f d = Some d' -> domain_key d' = domain_key d) ->
  k ∈ domain_key <$> omap f l -> k ∈ domain_key <$> l.
Proof.
  intros Hf Hk. apply list_elem_of_fmap in Hk as (d' & -> & Hd').
  apply list_elem_of_omap in Hd' as (d & Hd & Hfd).
  apply list_elem_of_fmap. exists d. split; [apply Hf, Hfd | exact Hd].
Qed.

Lemma placed_keys_nodup (l : list domain_data) :
  NoDup (domain_key <$> l) ->
  NoDup (domain_key <$> (omap placed_it l ++ omap placed_other l)).
Proof.
  induction l as [|d l IH]; [intros _; constructor|].
  rewrite fmap_cons, NoDup_cons. intros [Hd Hl]. specialize (IH Hl).
  assert (Hfresh :
            domain_key d
            ∉ domain_key <$> (omap placed_it l ++ omap placed_other l)).
  { rewrite fmap_app, elem_of_app. intros [H|H]; apply Hd.
    - eapply omap_keys; [apply placed_it_key | exact H].
    - eapply omap_keys; [apply placed_other_key | exact H]. }
  rewrite !omap_cons_match.
  destruct (placed_it d) as [x|] eqn:Eit;
    destruct (placed_other d) as [y|] eqn:Eother.
  - destruct (placed_exclusive d); congruence.
  - cbn [app]. rewrite fmap_cons. apply NoDup_cons.
    rewrite (placed_it_key d x Eit). split; assumption.
  - rewrite <- Permutation_middle, fmap_cons. apply NoDup_cons.
    rewrite (placed_other_key d y Eother). split; assumption.
  - exact IH.
Qed.

Lemma batch_scorer_key all d : domain_key (batch_scorer all d) = domain_key d.
Proof.
  unfold domain_key, batch_scorer. rewrite scored_with_domain. reflexivity.
Qed.

Lemma scored_buckets_keys_nodup (l : list domain_data) :
  NoDup (domain_key <$> l) ->
  NoDup (domain_key <$> (fst (scored_buckets l) ++ snd (scored_buckets l))).
Proof.
  intros Hl. apply placed_keys_nodup in Hl.
  unfold scored_buckets. cbv zeta. cbn [fst snd].
  rewrite !sort_scored_perm, fmap_app, <- !list_fmap_compose.
  rewrite fmap_app in Hl.
  rewrite !(list_fmap_ext (domain_key ∘ batch_scorer _) domain_key);
    [exact Hl | intros; apply batch_scorer_key..].
Qed.

Lemma select_keys_nodup (it other : list domain_data) N r sel :
  NoDup (domain_key <$> (it ++ other)) ->
  select_top_domains it other N r = Some sel ->
  NoDup (domain_key <$> sel).
Proof.
  intros Hnd Hsel.
  apply select_top_domains_sorts, sort_by_score_perm in Hsel.
  destruct (selected_buckets_prefixes it other N r) as (a & b & Hab).
  rewrite Hab in Hsel. cbn [fst snd] in Hsel. rewrite Hsel.
  eapply sublist_NoDup; [exact Hnd|].
  apply fmap_sublist, sublist_app; apply sublist_take.
Qed.

Lemma main_selection_stages py_float files excluded_domains N r sel :
  main_selection py_float files excluded_domains N r = Some sel ->
  exists it other,
    filter_and_score_domains
      (load_csv_files py_float files excluded_domains) = Some (it, other)
    /\ select_top_domains it other N r = Some sel.
Proof.
  unfold main_selection.
  generalize (load_csv_files py_float files excluded_domains).
  intros loaded. destruct loaded as [|d loaded]; [discriminate|].
  generalize (filter_and_score_domains (d :: loaded)).
  intros [[it other]|]; [|discriminate]. cbn [mbind option_bind].
  destruct (it ++ other); [discriminate|].
  destruct (select_top_domains it other N r) as [sel'|] eqn:E;
    [|discriminate].
  cbn [mbind option_bind]. destruct sel'; [discriminate|].
  intros H. injection H as <-. exists it, other. split; [reflexivity|].
  exact E.
Qed.

(** C8, amended.  No two loaded records have the same lowercase domain.
    The loaded records are exactly the records of those rows that are the
    first in load order to carry their lowercase domain, whose domain is
    not in the exclusion set and whose fields all parse; every later row
    with the same lowercase domain is skipped.  The selection handed to the
    output therefore never holds two records with the same lowercase
    domain. *)
Theorem load_keeps_first_occurrence (py_float : string -> option Q)
    (files : list (list (gmap string string)))
    (excluded_domains : gset string) :
  let rows := concat files in
  let loaded := load_csv_files py_float files excluded_domains in
  NoDup (map domain_key loaded)
  /\ (forall d,
        In d loaded
        <-> (exists i row key,
               first_with_key rows i row key /\ (key ∉ excluded_domains)
               /\ row_record py_float row = Some d))
  /\ (forall N r selected,
        main_selection py_float files excluded_domains N r = Some selected ->
        NoDup (map domain_key selected)).
Proof.
  intros rows loaded.
  pose proof (load_invariant_fold py_float excluded_domains rows) as Hinv.
  unfold rows in Hinv. rewrite <- load_state_of_concat in Hinv.
  destruct Hinv as [_ Hall Hnd].
  split; [exact Hnd|]. split; [exact Hall|].
  intros N r selected Hsel.
  apply main_selection_stages in Hsel as (it & other & Hf & Hsel).
  rewrite filter_and_score_closed in Hf. injection Hf as <- <-.
  eapply select_keys_nodup; [|exact Hsel].
  apply scored_buckets_keys_nodup, Hnd.
Qed.

(** Two files that name one domain in two spellings. *)
Lemma load_keeps_first_occurrence_witness :
  exists selected,
    main_selection int_as_float sample_files ∅ 10 (8 # 10) = Some selected
    /\ map domain selected
       = ["CityMedical.net"; "MyTechSolutions.com"; "bestjobs.io"]
    /\ NoDup (map domain_key selected).
Proof.
  destruct (main_selection int_as_float sample_files ∅ 10 (8 # 10))
    as [selected|] eqn:E; [|vm_compute in E; discriminate E].
  exists selected. split; [reflexivity|]. split.
  - vm_compute in E. injection E as <-. reflexivity.
  - exact (proj2 (proj2 (load_keeps_first_occurrence int_as_float
                           sample_files ∅)) 10%Z (8 # 10) selected E).
Defined.

(** ** Order of the results *)

Lemma descending_map {A B} (key : B -> Q) (f : A -> B) (l : list A) :
  descending (fun x => key (f x)) l -> descending key (map f l).
Proof.
  unfold descending. induction 1 as [|x l _ IH Hx]; cbn [map].
  - constructor.
  - constructor; [exact IH|].
    apply List.Forall_map. exact Hx.
Qed.

Lemma descending_ext {A} (key1 key2 : A -> Q) (l : list A) :
  Forall (fun x => key1 x = key2 x) l ->
  descending key1 l -> descending key2 l.
Proof.
  unfold descending. intros Hl Hs. induction Hs as [|x l _ IH Hx].
  - constructor.
  - apply Forall_cons in Hl as [Ex Hl]. constructor; [apply IH, Hl|].
    rewrite List.Forall_forall in Hx, Hl |- *. intros y Hy.
    rewrite <- Ex, <- (Hl y Hy). apply Hx, Hy.
Qed.

(** The sort leaves the records in descending order of score. *)
Lemma sort_by_score_descending l sel :
  sort_by_score l = Some sel ->
  descending (fun d => default 0%Q (combined_score d)) sel.
Proof.
  unfold sort_by_score. intros H.
  destruct (mapM score_key l) as [keyed|] eqn:E; [|discriminate].
  cbn in H. injection H as <-.
  apply mapM_score_key in E as [_ Hkeys].
  apply descending_map.
  apply (descending_ext fst); [|apply sort_desc_descending].
  rewrite (sort_desc_perm fst keyed).
  eapply Forall_impl; [exact Hkeys|]. intros p Hp. cbn beta.
  rewrite Hp. reflexivity.
Qed.

Lemma select_top_domains_descending it other N r sel :
  select_top_domains it other N r = Some sel ->
  descending (fun d => default 0%Q (combined_score d)) sel.
Proof.
  intros H. apply select_top_domains_sorts in H.
  eapply sort_by_score_descending, H.
Qed.

(** * Further properties *)

(** ** The normalizer *)

Lemma append_nil_l (s : string) : "" +:+ s = s.
Proof. reflexivity. Qed.

Lemma append_cons c (a s : string) : String c a +:+ s = String c (a +:+ s).
Proof. reflexivity. Qed.

Lemma append_nil_r (s : string) : s +:+ "" = s.
Proof.
  induction s as [|c s IH]; [reflexivity|].
  rewrite append_cons, IH. reflexivity.
Qed.

Lemma append_assoc (a b c : string) : (a +:+ b) +:+ c = a +:+ (b +:+ c).
Proof.
  induction a as [|x a IH]; [reflexivity|].
  rewrite !append_cons, IH. reflexivity.
Qed.

Lemma letters_to_end_spec s g :
  letters_to_end s = Some g ->
  g <> "" /\ all_az g = true /\ (s = g \/ s = g +:+ newline).
Proof.
  revert g. induction s as [|c s IH]; intros g; [discriminate|].
  cbn [letters_to_end]. destruct (is_az c) eqn:Hc; [|discriminate].
  destruct (String.eqb_spec s "") as [->|Hne].
  - cbn [orb]. intros H. injection H as <-.
    split; [discriminate|]. split; [cbn; rewrite Hc; reflexivity|].
    left. reflexivity.
  - destruct (String.eqb_spec s newline) as [->|Hnl]; cbn [orb].
    + intros H. injection H as <-.
      split; [discriminate|]. split; [cbn; rewrite Hc; reflexivity|].
      right. reflexivity.
    + destruct (letters_to_end s) as [g'|]; [|discriminate].
      cbn. intros H. injection H as <-.
      destruct (IH g' eq_refl) as (_ & Haz & Hs).
      split; [discriminate|]. split; [cbn; rewrite Hc; exact Haz|].
      destruct Hs as [->| ->]; [left|right]; reflexivity.
Qed.

Lemma search_tld_spec s g :
  search_tld s = Some g ->
  g <> "" /\ all_az g = true
  /\ exists pre, s = pre +:+ "." +:+ g \/ s = pre +:+ "." +:+ g +:+ newline.
Proof.
  revert g. induction s as [|c s IH]; intros g; [discriminate|].
  cbn [search_tld]. destruct (Ascii.eqb_spec c ".") as [->|Hc].
  - destruct (letters_to_end s) as [g'|] eqn:E.
    + intros H. injection H as <-.
      apply letters_to_end_spec in E as (Hne & Haz & Hs).
      split; [exact Hne|]. split; [exact Haz|]. exists "".
      destruct Hs as [->| ->]; [left|right]; reflexivity.
    + intros H. destruct (IH g H) as (Hne & Haz & pre & Hs).
      split; [exact Hne|]. split; [exact Haz|]. exists (String "." pre).
      destruct Hs as [->| ->]; [left|right]; reflexivity.
  - intros H. destruct (IH g H) as (Hne & Haz & pre & Hs).
    split; [exact Hne|]. split; [exact Haz|]. exists (String c pre).
    destruct Hs as [->| ->]; [left|right]; reflexivity.
Qed.

Lemma letters_to_end_all_az g :
  g <> "" -> all_az g = true -> letters_to_end g = Some g.
Proof.
  induction g as [|c g IH]; [congruence|]. intros _ Haz.
  cbn [all_az] in Haz. apply andb_prop in Haz as [Hc Haz].
  cbn [letters_to_end]. rewrite Hc.
  destruct (String.eqb_spec g "") as [->|Hne]; [reflexivity|].
  destruct (String.eqb_spec g newline) as [->|Hnl]; [discriminate Haz|].
  cbn [orb]. rewrite (IH Hne Haz). reflexivity.
Qed.

Lemma letters_to_end_dot x y : letters_to_end (x +:+ "." +:+ y) = None.
Proof.
  induction x as [|c x IH].
  - reflexivity.
  - rewrite append_cons. cbn [letters_to_end].
    destruct (is_az c); [|reflexivity].
    destruct (String.eqb_spec (x +:+ "." +:+ y) "") as [E|_].
    { destruct x; discriminate E. }
    destruct (String.eqb_spec (x +:+ "." +:+ y) newline) as [E|_].
    { destruct x as [|c' [|c'' x]]; discriminate E. }
    cbn [orb]. rewrite IH. reflexivity.
Qed.

Lemma search_tld_suffix pre g :
  g <> "" -> all_az g = true -> search_tld (pre +:+ "." +:+ g) = Some g.
Proof.
  intros Hne Haz. induction pre as [|c pre IH].
  - rewrite append_nil_l, append_cons, append_nil_l. cbn [search_tld].
    rewrite Ascii.eqb_refl, (letters_to_end_all_az g Hne Haz). reflexivity.
  - rewrite append_cons. cbn [search_tld].
    rewrite letters_to_end_dot, IH. destruct (Ascii.eqb c "."); reflexivity.
Qed.

(** X1. [get_tld] always returns a dot followed by one or more lowercase
    letters: the letters that end the lowercased domain (or stand before
    its final newline) behind a dot, and the default ".com" only when the
    lowercased domain does not end with a dot and lowercase letters. *)
Theorem get_tld_shape (domain : string) :
  exists g,
    get_tld domain = "." +:+ g
    /\ g <> "" /\ all_az g = true
    /\ ((g = "com"
         /\ forall pre g',
              g' <> "" -> all_az g' = true ->
              Str.lower domain <> pre +:+ "." +:+ g')
        \/ exists pre,
             Str.lower domain = pre +:+ "." +:+ g
             \/ Str.lower domain = pre +:+ "." +:+ g +:+ newline).
Proof.
  unfold get_tld. destruct (search_tld (Str.lower domain)) as [g|] eqn:E.
  - exists g. apply search_tld_spec in E as (Hne & Haz & Hpre).
    split; [reflexivity|]. split; [exact Hne|]. split; [exact Haz|].
    right. exact Hpre.
  - exists "com". split; [reflexivity|]. split; [discriminate|].
    split; [reflexivity|]. left. split; [reflexivity|].
    intros pre g' Hne Haz Hd.
    rewrite Hd, (search_tld_suffix pre g' Hne Haz) in E. discriminate E.
Qed.

Lemma endswith_split s k :
  Str.endswith s k = true -> exists pre, s = pre +:+ k.
Proof.
  induction s as [|c s IH].
  - cbn [Str.endswith]. destruct (String.eqb_spec "" k) as [<-|_];
      [|discriminate]. exists "". reflexivity.
  - cbn [Str.endswith]. destruct (String.eqb_spec (String c s) k) as [<-|_].
    + exists "". reflexivity.
    + intros H. destruct (IH H) as [pre ->]. exists (String c pre).
      reflexivity.
Qed.

(** X2. When the lowercased domain ends with a dot and lowercase letters,
    [get_tld] returns exactly that ending; in particular a domain that ends
    with ".org" in any letter case has TLD ".org". *)
Theorem get_tld_suffix (domain pre g : string) :
  Str.lower domain = pre +:+ "." +:+ g ->
  g <> "" -> all_az g = true ->
  get_tld domain = "." +:+ g.
Proof.
  intros E Hne Haz. unfold get_tld.
  rewrite E, (search_tld_suffix pre g Hne Haz). reflexivity.
Qed.

(** The ending of "Example.ORG". *)
Lemma get_tld_suffix_witness :
  (Str.lower "Example.ORG" = "example" +:+ "." +:+ "org"
   /\ "org" <> "" /\ all_az "org" = true)
  /\ get_tld "Example.ORG" = ".org".
Proof.
  assert (E : Str.lower "Example.ORG" = "example" +:+ "." +:+ "org")
    by reflexivity.
  assert (Hne : "org" <> "") by discriminate.
  assert (Haz : all_az "org" = true) by reflexivity.
  split; [repeat split; assumption|].
  exact (get_tld_suffix "Example.ORG" "example" "org" E Hne Haz).
Defined.

(** X3. No record in a bucket of [filter_and_score_domains], and so no
    selected record, has a domain that ends with ".org" in any letter
    case. *)
Theorem org_domains_never_placed (domains : list domain_data)
    (it_domains other_domains : list domain_data) :
  filter_and_score_domains domains = Some (it_domains, other_domains) ->
  Forall (fun d => Str.endswith (Str.lower (domain d)) ".org" = false)
    (it_domains ++ other_domains)
  /\ forall N r selected,
       select_top_domains it_domains other_domains N r = Some selected ->
       Forall (fun d => Str.endswith (Str.lower (domain d)) ".org" = false)
         selected.
Proof.
  intros Hf. rewrite filter_and_score_closed in Hf. injection Hf as <- <-.
  assert (Hall : Forall
            (fun d => Str.endswith (Str.lower (domain d)) ".org" = false)
            (fst (scored_buckets domains) ++ snd (scored_buckets domains))).
  { eapply Forall_impl; [apply scored_buckets_pass|].
    intros d (_ & Htld & _).
    destruct (Str.endswith (Str.lower (domain d)) ".org") eqn:E;
      [|reflexivity].
    exfalso. apply Htld. apply endswith_split in E as [pre E].
    assert (E' : Str.lower (domain d) = pre +:+ "." +:+ "org") by exact E.
    unfold get_tld.
    rewrite E', (search_tld_suffix pre "org"); [reflexivity| |].
    - discriminate.
    - reflexivity. }
  split; [exact Hall|].
  intros N r selected Hsel. apply List.Forall_forall. intros d Hd.
  rewrite List.Forall_forall in Hall. apply Hall.
  eapply select_top_domains_from; eassumption.
Qed.

(** A batch with an upper-case ".ORG" domain. *)
Lemma org_domains_never_placed_witness :
  filter_and_score_domains
    [raw_record "CloudTeam.ORG" 5 10 10 10 10 10;
     raw_record "techbase.com" 5 10 10 10 10 10]
  = Some ([set_combined_score
             (classify (raw_record "techbase.com" 5 10 10 10 10 10))
             (8400 # 100)], [])
  /\ Forall (fun d => Str.endswith (Str.lower (domain d)) ".org" = false)
       ([set_combined_score
           (classify (raw_record "techbase.com" 5 10 10 10 10 10))
           (8400 # 100)] ++ []).
Proof.
  assert (E : filter_and_score_domains
                [raw_record "CloudTeam.ORG" 5 10 10 10 10 10;
                 raw_record "techbase.com" 5 10 10 10 10 10]
              = Some ([set_combined_score
                         (classify
                            (raw_record "techbase.com" 5 10 10 10 10 10))
                         (8400 # 100)], []))
    by (vm_compute; reflexivity).
  split; [exact E|].
  exact (proj1 (org_domains_never_placed _ _ _ E)).
Defined.

Lemma no_dot_append_dot x y : no_dot (x +:+ "." +:+ y) = false.
Proof.
  induction x as [|c x IH]; [reflexivity|].
  rewrite append_cons. cbn [no_dot]. rewrite IH. apply andb_false_r.
Qed.

Lemma known_tlds_no_dot t : In t KNOWN_TLDS -> no_dot t = true.
Proof.
  intros H. cbv [KNOWN_TLDS In] in H.
  repeat (destruct H as [<-|H]; [reflexivity|]). destruct H.
Qed.

Lemma known_suffix_test s :
  existsb (fun t => String.eqb s ("." +:+ t)) KNOWN_TLDS = true
  <-> exists t, In t KNOWN_TLDS /\ s = "." +:+ t.
Proof.
  rewrite existsb_exists. split; intros (t & Ht & E); exists t;
    (split; [exact Ht|]).
  - apply String.eqb_eq. exact E.
  - apply String.eqb_eq. exact E.
Qed.

Lemma sub_known_tld_eq s :
  sub_known_tld s
  = if existsb (fun t => String.eqb s ("." +:+ t)) KNOWN_TLDS then ""
    else match s with
         | EmptyString => EmptyString
         | String c s' => String c (sub_known_tld s')
         end.
Proof. destruct s; reflexivity. Qed.

Lemma sub_known_tld_spec s :
  (exists x t, In t KNOWN_TLDS /\ s = x +:+ "." +:+ t /\ sub_known_tld s = x)
  \/ ((forall x t, In t KNOWN_TLDS -> s <> x +:+ "." +:+ t)
      /\ sub_known_tld s = s).
Proof.
  induction s as [|c s IH].
  - right. split; [|reflexivity]. intros [|c x] t _ E; discriminate E.
  - rewrite sub_known_tld_eq.
    destruct (existsb _ KNOWN_TLDS) eqn:Ex.
    + apply known_suffix_test in Ex as (t & Ht & E).
      left. exists "", t. repeat split; [exact Ht|exact E].
    + destruct IH as [(x & t & Ht & E & R)|[Hno R]].
      * left. exists (String c x), t. rewrite R, E. repeat split. exact Ht.
      * right. rewrite R. split; [|reflexivity].
        intros [|c' x] t Ht E.
        -- assert (Ex' : existsb (fun t => String.eqb (String c s) ("." +:+ t))
                           KNOWN_TLDS = true).
           { apply known_suffix_test. exists t. split; [exact Ht|exact E]. }
           congruence.
        -- rewrite append_cons in E. injection E as _ E.
           exact (Hno x t Ht E).
Qed.

(** X4. [clean_domain] removes exactly one trailing known suffix from the
    lowercased, stripped domain when there is one, and otherwise returns
    the lowercased, stripped domain unchanged. *)
Theorem clean_domain_spec (domain : string) :
  (exists x t,
      In t KNOWN_TLDS
      /\ Str.strip (Str.lower domain) = x +:+ "." +:+ t
      /\ clean_domain domain = x)
  \/ ((forall x t,
          In t KNOWN_TLDS ->
          Str.strip (Str.lower domain) <> x +:+ "." +:+ t)
      /\ clean_domain domain = Str.strip (Str.lower domain)).
Proof. unfold clean_domain. apply sub_known_tld_spec. Qed.

(** X5. A trailing known suffix is always the part removed: whatever
    precedes it, dots and further known suffixes included, is returned
    whole. *)
Theorem clean_domain_known_suffix (domain x t : string) :
  In t KNOWN_TLDS ->
  Str.strip (Str.lower domain) = x +:+ "." +:+ t ->
  clean_domain domain = x.
Proof.
  intros Ht E. unfold clean_domain. rewrite E. clear E domain.
  induction x as [|c x IH].
  - rewrite append_nil_l, sub_known_tld_eq.
    assert (Ex : existsb (fun t' => String.eqb ("." +:+ t) ("." +:+ t'))
                   KNOWN_TLDS = true).
    { apply known_suffix_test. exists t. split; [exact Ht|reflexivity]. }
    rewrite Ex. reflexivity.
  - rewrite append_cons, sub_known_tld_eq.
    destruct (existsb _ KNOWN_TLDS) eqn:Ex.
    + apply known_suffix_test in Ex as (t' & Ht' & E).
      rewrite (append_cons "." "" t'), (append_nil_l t') in E.
      injection E as _ E.
      apply known_tlds_no_dot in Ht'. rewrite <- E in Ht'.
      rewrite no_dot_append_dot in Ht'. discriminate Ht'.
    + rewrite IH. reflexivity.
Qed.

(** " Shop.Co.COM " keeps "shop.co". *)
Lemma clean_domain_known_suffix_witness :
  (In "com" KNOWN_TLDS
   /\ Str.strip (Str.lower " Shop.Co.COM ") = "shop.co" +:+ "." +:+ "com")
  /\ clean_domain " Shop.Co.COM " = "shop.co".
Proof.
  assert (Ht : In "com" KNOWN_TLDS) by (cbv [KNOWN_TLDS In]; auto).
  assert (E : Str.strip (Str.lower " Shop.Co.COM ")
              = "shop.co" +:+ "." +:+ "com") by reflexivity.
  split; [split; assumption|].
  exact (clean_domain_known_suffix " Shop.Co.COM " "shop.co" "com" Ht E).
Defined.

(** ** The classifier *)

Lemma table_pairs_industry table (p : string * string) :
  In p (table_pairs table) -> In (fst p) (map fst table).
Proof.
  unfold table_pairs. rewrite in_flat_map. intros (entry & He & Hp).
  rewrite in_map_iff in Hp. destruct Hp as (k & <- & _).
  cbn [fst]. apply in_map. exact He.
Qed.

(** X6. [match_industry] returns either no industry with quality 0, exactly
    when the name contains no keyword of the table, or an industry of the
    table with quality 0.7 or 1. *)
Theorem match_industry_range (domain_name : string) :
  (match_industry domain_name = (None, 0%Q)
   /\ forall p, In p (table_pairs INDUSTRY_KEYWORDS) ->
        Str.contains domain_name (snd p) = false)
  \/ exists ind k,
       In (ind, k) (table_pairs INDUSTRY_KEYWORDS)
       /\ In ind (map fst INDUSTRY_KEYWORDS)
       /\ Str.contains domain_name k = true
       /\ (match_industry domain_name = (Some ind, 1%Q)
           /\ at_edge domain_name k = true
           \/ match_industry domain_name = (Some ind, 7 # 10)
              /\ at_edge domain_name k = false).
Proof.
  rewrite match_industry_in_spec_fixed. unfold match_industry_spec.
  destruct (find (fun q => Str.contains _ (snd q) && _) _) as [q|] eqn:E.
  - right. apply find_some in E as [Hq E]. apply andb_prop in E as [E1 E2].
    exists (fst q), (snd q). rewrite <- surjective_pairing.
    split; [exact Hq|]. split; [apply table_pairs_industry; exact Hq|].
    split; [exact E1|]. left. split; [reflexivity|exact E2].
  - destruct (find (fun q => Str.contains _ (snd q)) _) as [q|] eqn:E'.
    + right. apply find_some in E' as [Hq E1].
      exists (fst q), (snd q). rewrite <- surjective_pairing.
      split; [exact Hq|]. split; [apply table_pairs_industry; exact Hq|].
      split; [exact E1|]. right. split; [reflexivity|].
      pose proof (find_none _ _ E q Hq) as Hn. cbv beta in Hn.
      rewrite E1 in Hn. exact Hn.
    + left. split; [reflexivity|]. intros p Hp.
      exact (find_none _ _ E' p Hp).
Qed.

Lemma find_app_first {A} (f : A -> bool) (l1 l2 : list A) x :
  In x l1 -> f x = true ->
  exists y, find f (l1 ++ l2) = Some y /\ In y l1.
Proof.
  induction l1 as [|a l1 IH]; [intros []|]. intros Hin Hx.
  cbn [app find]. destruct (f a) eqn:Ea.
  - exists a. split; [reflexivity|left; reflexivity].
  - destruct Hin as [->|Hin]; [congruence|].
    destruct (IH Hin Hx) as (y & Hy & Hy'). exists y.
    split; [exact Hy|right; exact Hy'].
Qed.

(** X7. The first industry of the table wins ties: a name that equals,
    starts with or ends with one of the "IT / Software" keywords is
    classified "IT / Software" with quality 1, whatever keywords of other
    industries it also contains. *)
Theorem match_industry_it_first (domain_name keyword : string) :
  In ("IT / Software", keyword) (table_pairs INDUSTRY_KEYWORDS) ->
  Str.contains domain_name keyword = true ->
  at_edge domain_name keyword = true ->
  match_industry domain_name = (Some "IT / Software", 1%Q).
Proof.
  intros Hin Hc He. rewrite match_industry_in_spec_fixed.
  unfold match_industry_spec.
  assert (Hit : In ("IT / Software", keyword)
                  (map (pair "IT / Software")
                     (snd (hd ("", []) INDUSTRY_KEYWORDS)))).
  { cbv [table_pairs INDUSTRY_KEYWORDS flat_map map app fst snd] in Hin.
    cbv [INDUSTRY_KEYWORDS hd snd map].
    repeat (destruct Hin as [Hin|Hin];
            [first [left; exact Hin | right; left; exact Hin
                   | discriminate Hin | idtac]|]).
    all: try (destruct Hin).
    all: cbv [In]; tauto. }
  assert (Hsplit : table_pairs INDUSTRY_KEYWORDS
                   = map (pair "IT / Software")
                       (snd (hd ("", []) INDUSTRY_KEYWORDS))
                     ++ table_pairs (tl INDUSTRY_KEYWORDS))
    by reflexivity.
  rewrite Hsplit.
  destruct (find_app_first
              (fun p => Str.contains domain_name (snd p)
                        && at_edge domain_name (snd p))
              _ (table_pairs (tl INDUSTRY_KEYWORDS)) _ Hit)
    as (y & -> & Hy).
  { cbn [snd]. rewrite Hc, He. reflexivity. }
  rewrite in_map_iff in Hy. destruct Hy as (k & <- & _). reflexivity.
Qed.

(** "healthcaretech" ends with "tech". *)
Lemma match_industry_it_first_witness :
  (In ("IT / Software", "tech") (table_pairs INDUSTRY_KEYWORDS)
   /\ Str.contains "healthcaretech" "tech" = true
   /\ at_edge "healthcaretech" "tech" = true)
  /\ match_industry "healthcaretech" = (Some "IT / Software", 1%Q).
Proof.
  assert (Hin : In ("IT / Software", "tech") (table_pairs INDUSTRY_KEYWORDS))
    by (left; reflexivity).
  assert (Hc : Str.contains "healthcaretech" "tech" = true) by reflexivity.
  assert (He : at_edge "healthcaretech" "tech" = true) by reflexivity.
  split; [repeat split; assumption|].
  exact (match_industry_it_first "healthcaretech" "tech" Hin Hc He).
Defined.

(** ** The scorer *)

Lemma round_half_even_mono (p q : Q) :
  (p <= q)%Q -> (round_half_even p <= round_half_even q)%Z.
Proof.
  intros Hpq.
  pose proof (Qfloor_resp_le _ _ Hpq) as Hf.
  pose proof (Qfloor_le p) as Hp1. pose proof (Qlt_floor p) as Hp2.
  pose proof (Qfloor_le q) as Hq1. pose proof (Qlt_floor q) as Hq2.
  rewrite inject_Z_plus in Hp2, Hq2. change (inject_Z 1) with 1%Q in *.
  unfold round_half_even.
  destruct (Z.eq_dec (Qfloor p) (Qfloor q)) as [E|N].
  - rewrite E in *.
    destruct (Qltb (p - inject_Z (Qfloor q)) (1 # 2)) eqn:P1.
    + destruct (Qltb (q - inject_Z (Qfloor q)) (1 # 2)); [lia|].
      destruct (Qltb (1 # 2) (q - inject_Z (Qfloor q))); [lia|].
      destruct (Z.even (Qfloor q)); lia.
    + apply Qltb_ge in P1.
      destruct (Qltb (q - inject_Z (Qfloor q)) (1 # 2)) eqn:Q1.
      { apply Qltb_lt in Q1. lra. }
      destruct (Qltb (1 # 2) (p - inject_Z (Qfloor q))) eqn:P2.
      { apply Qltb_lt in P2.
        destruct (Qltb (1 # 2) (q - inject_Z (Qfloor q))) eqn:Q2; [lia|].
        apply Qltb_ge in Q2. lra. }
      destruct (Qltb (1 # 2) (q - inject_Z (Qfloor q))).
      * destruct (Z.even (Qfloor q)); lia.
      * lia.
  - assert (Hlt : (Qfloor p + 1 <= Qfloor q)%Z) by lia.
    destruct (Qltb (p - inject_Z (Qfloor p)) (1 # 2));
      destruct (Qltb (1 # 2) (p - inject_Z (Qfloor p)));
      destruct (Qltb (q - inject_Z (Qfloor q)) (1 # 2));
      destruct (Qltb (1 # 2) (q - inject_Z (Qfloor q)));
      destruct (Z.even (Qfloor p)); destruct (Z.even (Qfloor q)); lia.
Qed.

Lemma round2_mono (x y : Q) : (x <= y)%Q -> (round2 x <= round2 y)%Q.
Proof.
  intros H. unfold round2, Qle. cbn [Qnum Qden].
  assert (round_half_even (x * 100) <= round_half_even (y * 100))%Z; [|lia].
  apply round_half_even_mono. lra.
Qed.

Lemma round2_le_100 (x : Q) : (x <= 100)%Q -> (round2 x <= 100)%Q.
Proof.
  intros H. apply (Qle_trans _ (round2 100)); [apply round2_mono, H|].
  vm_compute. discriminate.
Qed.

Lemma unit_ratio_mono (a a' m : Z) :
  (a <= a')%Z -> (0 < m)%Z ->
  (Qmin (inject_Z a / inject_Z m) 1 <= Qmin (inject_Z a' / inject_Z m) 1)%Q.
Proof.
  intros Ha Hm. apply Q.min_le_compat_r.
  unfold Qdiv. apply Qmult_le_compat_r.
  - rewrite <- Zle_Qle. exact Ha.
  - apply Qlt_le_weak, Qinv_lt_0_compat.
    change 0%Q with (inject_Z 0). rewrite <- Zlt_Qlt. exact Hm.
Qed.

Lemma base_score_mono d d' q q' max_age max_backlinks max_traffic :
  tf d' = tf d -> cf d' = cf d ->
  (age d <= age d')%Z -> (traffic d <= traffic d')%Z ->
  (backlinks d + referring_domains d
   <= backlinks d' + referring_domains d')%Z ->
  (q <= q')%Q ->
  (base_score d q max_age max_backlinks max_traffic
   <= base_score d' q' max_age max_backlinks max_traffic)%Q.
Proof.
  intros Et Ec Ha Htr Hb Hq. unfold base_score. rewrite Et, Ec.
  assert (H1 : ((if (0 <? max_age)%Z
                 then Qmin (inject_Z (age d) / inject_Z max_age) 1 else 0)
                <= (if (0 <? max_age)%Z
                    then Qmin (inject_Z (age d') / inject_Z max_age) 1
                    else 0))%Q).
  { destruct (Z.ltb_spec 0 max_age); [|lra].
    apply unit_ratio_mono; assumption. }
  assert (H2 : ((if (0 <? max_backlinks)%Z
                 then Qmin (inject_Z (backlinks d + referring_domains d)
                            / inject_Z (Z.max max_backlinks 1)) 1 else 0)
                <= (if (0 <? max_backlinks)%Z
                    then Qmin (inject_Z (backlinks d' + referring_domains d')
                               / inject_Z (Z.max max_backlinks 1)) 1
                    else 0))%Q).
  { destruct (Z.ltb_spec 0 max_backlinks); [|lra].
    apply unit_ratio_mono; [assumption|lia]. }
  assert (H3 : ((if (0 <? max_traffic)%Z
                 then Qmin (inject_Z (traffic d)
                            / inject_Z (Z.max max_traffic 1)) 1 else 0)
                <= (if (0 <? max_traffic)%Z
                    then Qmin (inject_Z (traffic d')
                               / inject_Z (Z.max max_traffic 1)) 1
                    else 0))%Q).
  { destruct (Z.ltb_spec 0 max_traffic); [|lra].
    apply unit_ratio_mono; [assumption|lia]. }
  revert H1 H2 H3.
  generalize (if (0 <? max_age)%Z
              then Qmin (inject_Z (age d) / inject_Z max_age) 1 else 0%Q).
  generalize (if (0 <? max_age)%Z
              then Qmin (inject_Z (age d') / inject_Z max_age) 1 else 0%Q).
  generalize (if (0 <? max_backlinks)%Z
              then Qmin (inject_Z (backlinks d + referring_domains d)
                         / inject_Z (Z.max max_backlinks 1)) 1 else 0%Q).
  generalize (if (0 <? max_backlinks)%Z
              then Qmin (inject_Z (backlinks d' + referring_domains d')
                         / inject_Z (Z.max max_backlinks 1)) 1 else 0%Q).
  generalize (if (0 <? max_traffic)%Z
              then Qmin (inject_Z (traffic d)
                         / inject_Z (Z.max max_traffic 1)) 1 else 0%Q).
  generalize (if (0 <? max_traffic)%Z
              then Qmin (inject_Z (traffic d')
                         / inject_Z (Z.max max_traffic 1)) 1 else 0%Q).
  generalize (inject_Z (tf d + cf d) / 100)%Q.
  intros. lra.
Qed.



(** X9. The score never falls when the match quality, the age, the traffic
    or the backlink total of a record rises and its trust flow, citation
    flow and TLD stay the same, under the same batch maxima. *)
Theorem combined_score_monotone (d d' : domain_data)
    (max_age max_backlinks max_traffic : Z) (q q' v v' : Q) :
  tf d' = tf d -> cf d' = cf d -> tld d' = tld d ->
  industry_match_quality d = Some q ->
  industry_match_quality d' = Some q' -> (q <= q')%Q ->
  (age d <= age d')%Z -> (traffic d <= traffic d')%Z ->
  (backlinks d + referring_domains d
   <= backlinks d' + referring_domains d')%Z ->
  calculate_combined_score d max_age max_backlinks max_traffic = Some v ->
  calculate_combined_score d' max_age max_backlinks max_traffic = Some v' ->
  (v <= v')%Q.
Proof.
  intros Et Ec Etld Hq Hq' Hqq Ha Htr Hb.
  unfold calculate_combined_score. rewrite Hq, Hq', Etld.
  destruct (tld d) as [t|]; [|discriminate].
  cbn [mbind option_bind]. intros [= <-] [= <-].
  apply round2_mono, Q.min_le_compat_r.
  assert (Hh : health_bonus d' = health_bonus d)
    by (unfold health_bonus; rewrite Et, Ec; reflexivity).
  rewrite Hh. apply Qmult_le_compat_r.
  - apply base_score_mono; assumption.
  - apply Qlt_le_weak, bonus_positive.
Qed.

(** An older copy of the record of the worked example. *)
Lemma combined_score_monotone_witness :
  (calculate_combined_score mytechsolutions 20 200 100 = Some (4225 # 100)
   /\ calculate_combined_score
        (mk_domain_data (domain mytechsolutions) (price mytechsolutions)
           (age mytechsolutions + 5) (tf mytechsolutions)
           (cf mytechsolutions) (traffic mytechsolutions)
           (backlinks mytechsolutions) (referring_domains mytechsolutions)
           (domain_name_clean mytechsolutions) (tld mytechsolutions)
           (industry mytechsolutions) (Some 1%Q)
           (register_date mytechsolutions) None)
        20 200 100 = Some (5475 # 100))
  /\ (4225 # 100 <= 5475 # 100)%Q.
Proof.
  assert (E : calculate_combined_score mytechsolutions 20 200 100
              = Some (4225 # 100)) by (vm_compute; reflexivity).
  assert (E' : calculate_combined_score
        (mk_domain_data (domain mytechsolutions) (price mytechsolutions)
           (age mytechsolutions + 5) (tf mytechsolutions)
           (cf mytechsolutions) (traffic mytechsolutions)
           (backlinks mytechsolutions) (referring_domains mytechsolutions)
           (domain_name_clean mytechsolutions) (tld mytechsolutions)
           (industry mytechsolutions) (Some 1%Q)
           (register_date mytechsolutions) None)
        20 200 100 = Some (5475 # 100)) by (vm_compute; reflexivity).
  split; [split; assumption|].
  refine (combined_score_monotone _ _ 20 200 100 (7 # 10) 1 _ _
            _ _ _ _ _ _ _ _ _ E E');
    try reflexivity; try (vm_compute; discriminate).
Defined.

(** ** The buckets of the filter stage *)

Lemma truthy_some ind0 ind : truthy ind0 = Some ind -> ind0 = Some ind /\ ind <> "".
Proof.
  destruct ind0 as [[|c s]|]; cbn [truthy]; intros H;
    try discriminate H; injection H as <-. split; [reflexivity|discriminate].
Qed.

Lemma placed_bucket_record d b d' :
  placed d = Some (b, d') -> bucket_record d' /\ same_base d' d.
Proof.
  intros H. split; [|exact (placed_base d b d' H)]. revert H.
  unfold placed.
  destruct (match_industry (clean_domain (domain d))) as [ind0 quality] eqn:E.
  destruct (truthy ind0) as [ind|] eqn:Et; [|discriminate].
  apply truthy_some in Et as [-> Hne].
  cbv zeta. cbn [tld set_classification].
  destruct (bool_decide _); [discriminate|].
  destruct (Str.contains _ _); [discriminate|].
  intros H. injection H as <- <-.
  unfold bucket_record.
  cbn [domain tld domain_name_clean register_date age industry
       industry_match_quality set_classification].
  repeat split. exists ind, quality. rewrite E. repeat split. exact Hne.
Qed.

Lemma set_combined_score_bucket_record d s :
  bucket_record d -> bucket_record (set_combined_score d s).
Proof. intros H. exact H. Qed.

Lemma scored_with_bucket_record ma mb mt d :
  bucket_record d -> bucket_record (scored_with ma mb mt d).
Proof.
  intros H. destruct (scored_with_cases ma mb mt d) as [->|[s ->]];
    [exact H|]. exact H.
Qed.

Lemma scored_with_industry ma mb mt d :
  industry (scored_with ma mb mt d) = industry d.
Proof.
  destruct (scored_with_cases ma mb mt d) as [->|[s ->]]; reflexivity.
Qed.

Lemma placed_it_bucket_record (domains : list domain_data) :
  Forall (fun d => bucket_record d /\ industry d = Some "IT / Software")
    (omap placed_it domains).
Proof.
  apply List.Forall_forall. intros d' Hin. apply list_elem_of_In in Hin.
  apply list_elem_of_omap in Hin as (d & _ & Hd).
  rewrite placed_it_eq in Hd.
  destruct (placed d) as [[b x]|] eqn:E; [|discriminate].
  destruct b; [|discriminate]. injection Hd as ->.
  split; [apply (placed_bucket_record d true d' E)|].
  apply placed_facts in E as (_ & _ & _ & _ & Hi). apply Hi. reflexivity.
Qed.

Lemma placed_other_bucket_record (domains : list domain_data) :
  Forall (fun d => bucket_record d /\ industry d <> Some "IT / Software")
    (omap placed_other domains).
Proof.
  apply List.Forall_forall. intros d' Hin. apply list_elem_of_In in Hin.
  apply list_elem_of_omap in Hin as (d & _ & Hd).
  rewrite placed_other_eq in Hd.
  destruct (placed d) as [[b x]|] eqn:E; [|discriminate].
  destruct b; [discriminate|]. injection Hd as ->.
  split; [apply (placed_bucket_record d false d' E)|].
  apply placed_facts in E as (_ & _ & _ & _ & Hi).
  intros H. apply Hi in H. discriminate.
Qed.

(** X10. Every record in the first bucket of [filter_and_score_domains] has
    industry "IT / Software" and every record in the second has another
    industry; in both, the normalized name, the TLD, the industry and the
    match quality are those of the record's own domain, and the
    registration year is the current year minus the age. *)
Theorem buckets_classified (domains it_domains other_domains
    : list domain_data) :
  filter_and_score_domains domains = Some (it_domains, other_domains) ->
  Forall (fun d => bucket_record d /\ industry d = Some "IT / Software")
    it_domains
  /\ Forall (fun d => bucket_record d /\ industry d <> Some "IT / Software")
       other_domains.
Proof.
  intros Hf. rewrite filter_and_score_closed in Hf. injection Hf as <- <-.
  unfold scored_buckets, batch_scorer. cbv zeta.
  generalize (batch_max_age
                (omap placed_it domains ++ omap placed_other domains))
             (batch_max_backlinks
                (omap placed_it domains ++ omap placed_other domains))
             (batch_max_traffic
                (omap placed_it domains ++ omap placed_other domains)).
  intros ma mb mt. rewrite !sort_scored_perm. split.
  - apply Forall_map. eapply Forall_impl; [apply placed_it_bucket_record|].
    intros d [Hb Hi]. split; [apply scored_with_bucket_record, Hb|].
    rewrite scored_with_industry. exact Hi.
  - apply Forall_map. eapply Forall_impl; [apply placed_other_bucket_record|].
    intros d [Hb Hi]. split; [apply scored_with_bucket_record, Hb|].
    rewrite scored_with_industry. exact Hi.
Qed.

(** One record for each bucket. *)
Lemma buckets_classified_witness :
  filter_and_score_domains
    [raw_record "GreenClinic.net" 3 10 10 10 10 10;
     raw_record "techbase.com" 5 10 10 10 10 10]
  = Some ([set_combined_score
             (classify (raw_record "techbase.com" 5 10 10 10 10 10))
             (8400 # 100)],
          [set_combined_score
             (classify (raw_record "GreenClinic.net" 3 10 10 10 10 10))
             (6460 # 100)])
  /\ Forall (fun d => bucket_record d /\ industry d = Some "IT / Software")
       [set_combined_score
          (classify (raw_record "techbase.com" 5 10 10 10 10 10))
          (8400 # 100)].
Proof.
  assert (E : filter_and_score_domains
                [raw_record "GreenClinic.net" 3 10 10 10 10 10;
                 raw_record "techbase.com" 5 10 10 10 10 10]
              = Some ([set_combined_score
                         (classify
                            (raw_record "techbase.com" 5 10 10 10 10 10))
                         (8400 # 100)],
                      [set_combined_score
                         (classify
                            (raw_record "GreenClinic.net" 3 10 10 10 10 10))
                         (6460 # 100)]))
    by (vm_compute; reflexivity).
  split; [exact E|].
  exact (proj1 (buckets_classified _ _ _ E)).
Defined.

Lemma scored_with_score ma mb mt d :
  classified d ->
  is_Some (combined_score (scored_with ma mb mt d))
  /\ combined_score (scored_with ma mb mt d)
     = calculate_combined_score d ma mb mt.
Proof.
  intros [[q Hq] [t Ht]]. unfold scored_with, score_record.
  destruct (calculate_combined_score d ma mb mt) as [s|] eqn:E.
  - cbn [mbind option_bind set_combined_score combined_score].
    split; [eexists|]; reflexivity.
  - unfold calculate_combined_score in E. rewrite Hq, Ht in E.
    discriminate E.
Qed.

Lemma scored_with_same_but_score ma mb mt d :
  same_but_score (scored_with ma mb mt d) d.
Proof.
  destruct (scored_with_cases ma mb mt d) as [->|[s ->]]; reflexivity.
Qed.

Lemma map_scored_with_maxima ma mb mt (l : list domain_data) :
  batch_max_age (map (scored_with ma mb mt) l) = batch_max_age l
  /\ batch_max_backlinks (map (scored_with ma mb mt) l)
     = batch_max_backlinks l
  /\ batch_max_traffic (map (scored_with ma mb mt) l) = batch_max_traffic l.
Proof.
  apply same_but_score_maxima.
  induction l as [|d l IH]; cbn [map]; constructor;
    [apply scored_with_same_but_score | exact IH].
Qed.

Lemma scored_buckets_all domains :
  Permutation
    (fst (scored_buckets domains) ++ snd (scored_buckets domains))
    (map (batch_scorer (all_placed domains)) (all_placed domains)).
Proof.
  unfold scored_buckets. cbv zeta. cbn [fst snd].
  fold (all_placed domains). rewrite !sort_scored_perm.
  unfold all_placed at 4. rewrite map_app. reflexivity.
Qed.

Lemma all_placed_classified domains : Forall classified (all_placed domains).
Proof.
  unfold all_placed. apply Forall_app. split.
  - eapply Forall_impl; [apply placed_it_classified|]. intros d H. apply H.
  - eapply Forall_impl; [apply placed_other_classified|]. intros d H.
    apply H.
Qed.

(** X11. Every record that [filter_and_score_domains] returns carries a
    score, and that score is the value of [calculate_combined_score] on
    the returned record under the largest age, backlink total and traffic
    among the returned records. *)
Theorem bucket_scores_consistent (domains it_domains other_domains
    : list domain_data) :
  filter_and_score_domains domains = Some (it_domains, other_domains) ->
  Forall (scored_in (it_domains ++ other_domains))
    (it_domains ++ other_domains).
Proof.
  intros Hf. rewrite filter_and_score_closed in Hf.
  assert (E : scored_buckets domains = (it_domains, other_domains))
    by congruence.
  replace it_domains with (fst (scored_buckets domains))
    by (rewrite E; reflexivity).
  replace other_domains with (snd (scored_buckets domains))
    by (rewrite E; reflexivity).
  clear E Hf.
  pose proof (scored_buckets_all domains) as Hp.
  destruct (batch_maxima_perm _ _ Hp) as (Ea & Eb & Et).
  unfold scored_in. rewrite Ea, Eb, Et, Hp. clear Hp Ea Eb Et.
  unfold batch_scorer.
  destruct (map_scored_with_maxima
              (batch_max_age (all_placed domains))
              (batch_max_backlinks (all_placed domains))
              (batch_max_traffic (all_placed domains))
              (all_placed domains)) as (-> & -> & ->).
  apply Forall_map.
  eapply Forall_impl; [apply all_placed_classified|].
  intros d Hc.
  destruct (scored_with_score (batch_max_age (all_placed domains))
              (batch_max_backlinks (all_placed domains))
              (batch_max_traffic (all_placed domains)) d Hc) as [Hs Hv].
  split; [exact Hs|]. rewrite Hv.
  symmetry. apply calculate_combined_score_congr, scored_with_same_but_score.
Qed.

(** The scores of a batch of two. *)
Lemma bucket_scores_consistent_witness :
  filter_and_score_domains
    [raw_record "GreenClinic.net" 3 10 10 10 10 10;
     raw_record "techbase.com" 5 10 10 10 10 10]
  = Some ([set_combined_score
             (classify (raw_record "techbase.com" 5 10 10 10 10 10))
             (8400 # 100)],
          [set_combined_score
             (classify (raw_record "GreenClinic.net" 3 10 10 10 10 10))
             (6460 # 100)])
  /\ Forall
       (scored_in
          ([set_combined_score
              (classify (raw_record "techbase.com" 5 10 10 10 10 10))
              (8400 # 100)]
           ++ [set_combined_score
                 (classify (raw_record "GreenClinic.net" 3 10 10 10 10 10))
                 (6460 # 100)]))
       ([set_combined_score
           (classify (raw_record "techbase.com" 5 10 10 10 10 10))
           (8400 # 100)]
        ++ [set_combined_score
              (classify (raw_record "GreenClinic.net" 3 10 10 10 10 10))
              (6460 # 100)]).
Proof.
  assert (E : filter_and_score_domains
                [raw_record "GreenClinic.net" 3 10 10 10 10 10;
                 raw_record "techbase.com" 5 10 10 10 10 10]
              = Some ([set_combined_score
                         (classify
                            (raw_record "techbase.com" 5 10 10 10 10 10))
                         (8400 # 100)],
                      [set_combined_score
                         (classify
                            (raw_record "GreenClinic.net" 3 10 10 10 10 10))
                         (6460 # 100)]))
    by (vm_compute; reflexivity).
  split; [exact E|].
  exact (bucket_scores_consistent _ _ _ E).
Defined.

Lemma scored_buckets_elem domains d' :
  In d' (fst (scored_buckets domains) ++ snd (scored_buckets domains)) ->
  exists d0 b p,
    In d0 domains /\ placed d0 = Some (b, p)
    /\ d' = batch_scorer (all_placed domains) p.
Proof.
  intros Hin. apply (Permutation_in _ (scored_buckets_all domains)) in Hin.
  apply in_map_iff in Hin as (p & <- & Hp).
  unfold all_placed in Hp. apply in_app_or in Hp.
  destruct Hp as [Hp|Hp]; apply list_elem_of_In in Hp;
    apply list_elem_of_omap in Hp as (d0 & Hd0 & Hp);
    apply list_elem_of_In in Hd0.
  - rewrite placed_it_eq in Hp.
    destruct (placed d0) as [[b x]|] eqn:E; [|discriminate].
    destruct b; [|discriminate]. injection Hp as ->.
    exists d0, true, p. repeat split; assumption.
  - rewrite placed_other_eq in Hp.
    destruct (placed d0) as [[b x]|] eqn:E; [|discriminate].
    destruct b; [discriminate|]. injection Hp as ->.
    exists d0, false, p. repeat split; assumption.
Qed.

Lemma base_score_quality d q max_age max_backlinks max_traffic :
  nonneg_fields d ->
  (25 * q <= base_score d q max_age max_backlinks max_traffic)%Q.
Proof.
  intros (Ha & Ht & Hc & Htr & Hb & Hr). unfold base_score.
  set (age_score := if (0 <? max_age)%Z then _ else _).
  set (backlink_score := if (0 <? max_backlinks)%Z then _ else _).
  set (traffic_score := if (0 <? max_traffic)%Z then _ else _).
  assert (0 <= age_score)%Q as H1.
  { subst age_score. destruct (Z.ltb_spec 0 max_age); [|lra].
    apply unit_ratio_bounds; assumption. }
  assert (0 <= backlink_score)%Q as H2.
  { subst backlink_score. destruct (Z.ltb_spec 0 max_backlinks); [|lra].
    apply unit_ratio_bounds; lia. }
  assert (0 <= traffic_score)%Q as H3.
  { subst traffic_score. destruct (Z.ltb_spec 0 max_traffic); [|lra].
    apply unit_ratio_bounds; lia. }
  assert (0 <= inject_Z (tf d + cf d) / 100)%Q as H4.
  { apply (Qdiv_nonneg (tf d + cf d) 100); lia. }
  lra.
Qed.

Lemma bonus_at_least t d : (765 # 1000 <= tld_bonus t * health_bonus d)%Q.
Proof.
  unfold tld_bonus, health_bonus.
  destruct (String.eqb t ".com"); destruct (Qle_bool _ _);
    vm_compute; discriminate.
Qed.

Lemma matched_score_range d ma mb mt q t :
  nonneg_fields d ->
  industry_match_quality d = Some q -> (7 # 10 <= q)%Q ->
  tld d = Some t ->
  exists v,
    calculate_combined_score d ma mb mt = Some v
    /\ (1339 # 100 <= v)%Q /\ (v <= 100)%Q.
Proof.
  intros Hn Hq Hq7 Ht. unfold calculate_combined_score.
  rewrite Hq, Ht. cbn [mbind option_bind]. eexists. split; [reflexivity|].
  split; [|apply round2_le_100, Q.le_min_r].
  pose proof (base_score_quality d q ma mb mt Hn) as Hb.
  pose proof (bonus_at_least t d) as Hbonus.
  revert Hb Hbonus.
  generalize (base_score d q ma mb mt) (tld_bonus t * health_bonus d)%Q.
  intros x y Hx Hy.
  apply (Qle_trans _ (round2 (133875 # 10000))); [vm_compute; discriminate|].
  apply round2_mono, Q.min_glb; [|vm_compute; discriminate].
  apply (Qle_trans _ ((175 # 10) * (765 # 1000))); [vm_compute; discriminate|].
  apply (Qle_trans _ ((175 # 10) * y)).
  - apply Qmult_le_l; [reflexivity|exact Hy].
  - apply Qmult_le_compat_r; lra.
Qed.

Lemma match_industry_some name ind q :
  match_industry name = (Some ind, q) ->
  In ind (map fst INDUSTRY_KEYWORDS) /\ (q = 1%Q \/ q = 7 # 10).
Proof.
  rewrite match_industry_in_spec_fixed. unfold match_industry_spec.
  destruct (find (fun p => Str.contains _ (snd p) && _) _) as [p|] eqn:E.
  - intros [= <- <-]. apply find_some in E as [Hp _].
    split; [apply table_pairs_industry, Hp | left; reflexivity].
  - destruct (find (fun p => Str.contains _ (snd p)) _) as [p|] eqn:E';
      [|discriminate].
    intros [= <- <-]. apply find_some in E' as [Hp _].
    split; [apply table_pairs_industry, Hp | right; reflexivity].
Qed.

Lemma industries_nonempty ind :
  In ind (map fst INDUSTRY_KEYWORDS) -> ind <> "".
Proof.
  intros H. cbv [INDUSTRY_KEYWORDS map fst In] in H.
  repeat (destruct H as [<-|H]; [discriminate|]). destruct H.
Qed.

Lemma same_base_nonneg d d' :
  same_base d' d -> nonneg_fields d -> nonneg_fields d'.
Proof.
  unfold same_base, nonneg_fields.
  intros (_ & _ & -> & -> & -> & -> & -> & ->) H. exact H.
Qed.

(** X12. When no input record has a negative number, every record that
    [filter_and_score_domains] returns has a score between 13.39 and 100:
    a matched record has quality 0.7 at least, and the two penalties
    together take off less than a quarter. *)
Theorem bucket_scores_range (domains it_domains other_domains
    : list domain_data) :
  Forall nonneg_fields domains ->
  filter_and_score_domains domains = Some (it_domains, other_domains) ->
  Forall (fun d => exists v,
            combined_score d = Some v
            /\ (1339 # 100 <= v)%Q /\ (v <= 100)%Q)
    (it_domains ++ other_domains).
Proof.
  intros Hn Hf. rewrite filter_and_score_closed in Hf.
  assert (E : scored_buckets domains = (it_domains, other_domains))
    by congruence.
  replace it_domains with (fst (scored_buckets domains))
    by (rewrite E; reflexivity).
  replace other_domains with (snd (scored_buckets domains))
    by (rewrite E; reflexivity).
  clear E Hf. apply List.Forall_forall. intros d' Hd'.
  apply scored_buckets_elem in Hd' as (d0 & b & p & Hd0 & Hp & ->).
  destruct (placed_bucket_record d0 b p Hp)
    as [(_ & Ht & _ & ind & q & Hm & _ & _ & Hq) Hbase].
  rewrite List.Forall_forall in Hn.
  pose proof (same_base_nonneg d0 p Hbase (Hn d0 Hd0)) as Hnp.
  assert (Hq7 : (7 # 10 <= q)%Q).
  { apply match_industry_some in Hm as [_ [->| ->]];
      vm_compute; discriminate. }
  assert (Hc : classified p) by (split; eexists; eassumption).
  unfold batch_scorer.
  generalize (batch_max_age (all_placed domains))
             (batch_max_backlinks (all_placed domains))
             (batch_max_traffic (all_placed domains)).
  intros ma mb mt.
  destruct (scored_with_score ma mb mt p Hc) as [_ ->].
  exact (matched_score_range p ma mb mt q _ Hnp Hq Hq7 Ht).
Qed.

(** The scores of a batch of two. *)
Lemma bucket_scores_range_witness :
  (Forall nonneg_fields
     [raw_record "GreenClinic.net" 3 10 10 10 10 10;
      raw_record "techbase.com" 5 10 10 10 10 10]
   /\ filter_and_score_domains
        [raw_record "GreenClinic.net" 3 10 10 10 10 10;
         raw_record "techbase.com" 5 10 10 10 10 10]
      = Some ([set_combined_score
                 (classify (raw_record "techbase.com" 5 10 10 10 10 10))
                 (8400 # 100)],
              [set_combined_score
                 (classify (raw_record "GreenClinic.net" 3 10 10 10 10 10))
                 (6460 # 100)]))
  /\ Forall (fun d => exists v,
               combined_score d = Some v
               /\ (1339 # 100 <= v)%Q /\ (v <= 100)%Q)
       ([set_combined_score
           (classify (raw_record "techbase.com" 5 10 10 10 10 10))
           (8400 # 100)]
        ++ [set_combined_score
              (classify (raw_record "GreenClinic.net" 3 10 10 10 10 10))
              (6460 # 100)]).
Proof.
  assert (Hn : Forall nonneg_fields
                 [raw_record "GreenClinic.net" 3 10 10 10 10 10;
                  raw_record "techbase.com" 5 10 10 10 10 10]).
  { repeat constructor; cbn; lia. }
  assert (E : filter_and_score_domains
                [raw_record "GreenClinic.net" 3 10 10 10 10 10;
                 raw_record "techbase.com" 5 10 10 10 10 10]
              = Some ([set_combined_score
                         (classify
                            (raw_record "techbase.com" 5 10 10 10 10 10))
                         (8400 # 100)],
                      [set_combined_score
                         (classify
                            (raw_record "GreenClinic.net" 3 10 10 10 10 10))
                         (6460 # 100)]))
    by (vm_compute; reflexivity).
  split; [split; assumption|].
  exact (bucket_scores_range _ _ _ Hn E).
Defined.

Lemma placed_split_length (l : list domain_data) :
  (length (omap placed_it l) + length (omap placed_other l) <= length l)%nat.
Proof.
  induction l as [|d l IH]; [rewrite !omap_nil_eq; cbn; lia|].
  rewrite !omap_cons_match, placed_it_eq, placed_other_eq.
  destruct (placed d) as [[[|] p]|]; cbn [length]; lia.
Qed.

Lemma placed_when_matched d ind q :
  match_industry (clean_domain (domain d)) = (Some ind, q) ->
  get_tld (domain d) <> ".org" ->
  Str.contains (clean_domain (domain d)) "horizon" = false ->
  exists b p, placed d = Some (b, p).
Proof.
  intros Hm Htld Hhz. rewrite placed_eq.
  pose proof (match_industry_some _ _ _ Hm) as [Hind _].
  apply industries_nonempty in Hind.
  rewrite Hm. cbn [fst snd].
  assert (Et : truthy (Some ind) = Some ind)
    by (destruct ind; [congruence|reflexivity]).
  rewrite Et, Hhz.
  destruct (bool_decide_reflect (Some (get_tld (domain d)) = Some ".org"))
    as [Horg|_]; [congruence|].
  eexists _, _. reflexivity.
Qed.

Lemma placed_in_all_placed (domains : list domain_data) d b p :
  In d domains -> placed d = Some (b, p) -> In p (all_placed domains).
Proof.
  intros Hd Hp. unfold all_placed. apply in_or_app.
  apply list_elem_of_In in Hd.
  destruct b; [left|right]; apply list_elem_of_In, list_elem_of_omap;
    exists d; (split; [exact Hd|]).
  - rewrite placed_it_eq, Hp. reflexivity.
  - rewrite placed_other_eq, Hp. reflexivity.
Qed.

(** X13. [filter_and_score_domains] drops records and adds keys, nothing
    else: every returned record is an input record with its loaded fields
    unchanged, the two buckets together are no longer than the input, and
    an input record whose normalized name matches an industry, whose TLD
    is not ".org" and whose name does not contain "horizon" is returned
    with that industry. *)
Theorem buckets_sound_complete (domains it_domains other_domains
    : list domain_data) :
  filter_and_score_domains domains = Some (it_domains, other_domains) ->
  (length it_domains + length other_domains <= length domains)%nat
  /\ (forall d', In d' (it_domains ++ other_domains) ->
        exists d, In d domains /\ same_base d' d)
  /\ (forall d ind q,
        In d domains ->
        match_industry (clean_domain (domain d)) = (Some ind, q) ->
        get_tld (domain d) <> ".org" ->
        Str.contains (clean_domain (domain d)) "horizon" = false ->
        exists d',
          In d' (it_domains ++ other_domains)
          /\ same_base d' d /\ industry d' = Some ind).
Proof.
  intros Hf. rewrite filter_and_score_closed in Hf.
  assert (E : scored_buckets domains = (it_domains, other_domains))
    by congruence.
  replace it_domains with (fst (scored_buckets domains))
    by (rewrite E; reflexivity).
  replace other_domains with (snd (scored_buckets domains))
    by (rewrite E; reflexivity).
  clear E Hf. split; [|split].
  - rewrite <- length_app.
    rewrite (Permutation_length (scored_buckets_all domains)).
    rewrite length_map. unfold all_placed. rewrite length_app.
    apply placed_split_length.
  - intros d' Hd'.
    apply scored_buckets_elem in Hd' as (d0 & b & p & Hd0 & Hp & ->).
    exists d0. split; [exact Hd0|].
    apply (same_base_trans _ p _); [apply batch_scorer_base|].
    exact (placed_base d0 b p Hp).
  - intros d ind q Hd Hm Htld Hhz.
    destruct (placed_when_matched d ind q Hm Htld Hhz) as (b & p & Hp).
    exists (batch_scorer (all_placed domains) p). split; [|split].
    + apply (Permutation_in _ (Permutation_sym (scored_buckets_all domains))).
      apply in_map. exact (placed_in_all_placed domains d b p Hd Hp).
    + apply (same_base_trans _ p _); [apply batch_scorer_base|].
      exact (placed_base d b p Hp).
    + unfold batch_scorer. rewrite scored_with_industry.
      destruct (placed_bucket_record d b p Hp)
        as [(_ & _ & _ & ind' & q' & Hm' & _ & Hi & _) Hbase].
      destruct Hbase as [Hdom _]. rewrite Hdom, Hm in Hm'.
      injection Hm' as -> _. exact Hi.
Qed.

(** A batch of two, both returned. *)
Lemma buckets_sound_complete_witness :
  filter_and_score_domains
    [raw_record "GreenClinic.net" 3 10 10 10 10 10;
     raw_record "techbase.com" 5 10 10 10 10 10]
  = Some ([set_combined_score
             (classify (raw_record "techbase.com" 5 10 10 10 10 10))
             (8400 # 100)],
          [set_combined_score
             (classify (raw_record "GreenClinic.net" 3 10 10 10 10 10))
             (6460 # 100)])
  /\ (length [set_combined_score
                (classify (raw_record "techbase.com" 5 10 10 10 10 10))
                (8400 # 100)]
      + length [set_combined_score
                  (classify (raw_record "GreenClinic.net" 3 10 10 10 10 10))
                  (6460 # 100)]
      <= length [raw_record "GreenClinic.net" 3 10 10 10 10 10;
                 raw_record "techbase.com" 5 10 10 10 10 10])%nat.
Proof.
  assert (E : filter_and_score_domains
                [raw_record "GreenClinic.net" 3 10 10 10 10 10;
                 raw_record "techbase.com" 5 10 10 10 10 10]
              = Some ([set_combined_score
                         (classify
                            (raw_record "techbase.com" 5 10 10 10 10 10))
                         (8400 # 100)],
                      [set_combined_score
                         (classify
                            (raw_record "GreenClinic.net" 3 10 10 10 10 10))
                         (6460 # 100)]))
    by (vm_compute; reflexivity).
  split; [exact E|].
  exact (proj1 (buckets_sound_complete _ _ _ E)).
Defined.

(** ** Order of the buckets and of the selection *)

Section Stability.
Context {A : Type} (key : A -> Q).

Lemma insert_desc_filter (P : A -> bool) x l :
  (forall a b, P a = true -> P b = true -> Qltb (key a) (key b) = false) ->
  List.filter P (insert_desc key x l) = List.filter P (x :: l).
Proof.
  intros HP. induction l as [|y l IH]; [reflexivity|].
  cbn [insert_desc]. destruct (Qltb (key x) (key y)) eqn:E; [|reflexivity].
  cbn [List.filter] in IH |- *. rewrite IH.
  destruct (P x) eqn:Px; destruct (P y) eqn:Py; try reflexivity.
  rewrite (HP x y Px Py) in E. discriminate E.
Qed.

Lemma sort_desc_filter (P : A -> bool) l :
  (forall a b, P a = true -> P b = true -> Qltb (key a) (key b) = false) ->
  List.filter P (sort_desc key l) = List.filter P l.
Proof.
  intros HP. induction l as [|x l IH]; [reflexivity|].
  cbn [sort_desc fold_right]. rewrite (insert_desc_filter P _ _ HP).
  cbn [List.filter]. fold (sort_desc key l). rewrite IH. reflexivity.
Qed.

End Stability.

Lemma Qltb_equal a b s :
  Qeq_bool a s = true -> Qeq_bool b s = true -> Qltb a b = false.
Proof.
  intros Ha Hb. apply Qeq_bool_iff in Ha, Hb. unfold Qltb.
  assert (H : Qle_bool b a = true) by (apply Qle_bool_iff; lra).
  rewrite H. reflexivity.
Qed.

Lemma filter_map_snd {K} (P : domain_data -> bool)
    (l : list (K * domain_data)) :
  List.filter P (map snd l) = map snd (List.filter (fun p => P (snd p)) l).
Proof.
  induction l as [|p l IH]; [reflexivity|]. cbn [map List.filter].
  rewrite IH. destruct (P (snd p)); reflexivity.
Qed.

(** Decorate, sort, undecorate: records with the same score keep their
    order. *)
Lemma sort_keyed_stable (keyed : list (Q * domain_data)) s :
  Forall (fun p => score_of (snd p) = fst p) keyed ->
  List.filter (scores s) (map snd (sort_desc fst keyed))
  = List.filter (scores s) (map snd keyed).
Proof.
  intros Hk. rewrite !filter_map_snd. f_equal.
  assert (Hk' : Forall (fun p => score_of (snd p) = fst p)
                  (sort_desc fst keyed)).
  { rewrite (sort_desc_perm fst keyed). exact Hk. }
  rewrite List.Forall_forall in Hk, Hk'.
  rewrite (filter_ext_in (fun p => scores s (snd p))
             (fun p => Qeq_bool (fst p) s) (sort_desc fst keyed)).
  2:{ intros p Hp. unfold scores. rewrite (Hk' p Hp). reflexivity. }
  rewrite (filter_ext_in (fun p => scores s (snd p))
             (fun p => Qeq_bool (fst p) s) keyed).
  2:{ intros p Hp. unfold scores. rewrite (Hk p Hp). reflexivity. }
  apply sort_desc_filter. intros a b Ha Hb.
  exact (Qltb_equal _ _ s Ha Hb).
Qed.

Lemma sort_scored_stable l s :
  List.filter (scores s) (sort_scored l) = List.filter (scores s) l.
Proof.
  unfold sort_scored. rewrite sort_keyed_stable.
  - rewrite map_map. cbn [snd]. rewrite map_id. reflexivity.
  - apply List.Forall_forall. intros p Hp.
    apply in_map_iff in Hp as (d & <- & _). reflexivity.
Qed.

Lemma sort_by_score_stable l sel s :
  sort_by_score l = Some sel ->
  List.filter (scores s) sel = List.filter (scores s) l.
Proof.
  unfold sort_by_score. intros H.
  destruct (mapM score_key l) as [keyed|] eqn:E; [|discriminate].
  cbn in H. injection H as <-.
  apply mapM_score_key in E as [El Hkeys].
  rewrite sort_keyed_stable, El; [reflexivity|].
  eapply Forall_impl; [exact Hkeys|]. intros p Hp. cbn beta.
  unfold score_of. rewrite Hp. reflexivity.
Qed.

Lemma sort_scored_descending l : descending score_of (sort_scored l).
Proof.
  unfold sort_scored. apply descending_map.
  apply (descending_ext fst); [|apply sort_desc_descending].
  rewrite (sort_desc_perm fst _).
  apply List.Forall_forall. intros p Hp.
  apply in_map_iff in Hp as (d & <- & _). reflexivity.
Qed.

Lemma filter_sublist {A} (P : A -> bool) (l : list A) :
  sublist (List.filter P l) l.
Proof.
  induction l as [|x l IH]; [constructor|]. cbn [List.filter].
  destruct (P x); [apply sublist_skip | apply sublist_cons]; exact IH.
Qed.

Lemma map_sublist {A B} (f : A -> B) (l1 l2 : list A) :
  sublist l1 l2 -> sublist (map f l1) (map f l2).
Proof.
  induction 1; cbn [map]; [constructor | apply sublist_skip
                                       | apply sublist_cons]; assumption.
Qed.

Lemma omap_domains_sublist (f : domain_data -> option domain_data)
    (l : list domain_data) :
  (forall d d', f d = Some d' -> domain d' = domain d) ->
  sublist (map domain (omap f l)) (map domain l).
Proof.
  intros Hf. induction l as [|d l IH]; [rewrite omap_nil_eq; constructor|].
  rewrite omap_cons_match. cbn [map]. destruct (f d) as [d'|] eqn:E.
  - cbn [map]. rewrite (Hf d d' E). apply sublist_skip, IH.
  - apply sublist_cons, IH.
Qed.

Lemma placed_it_domain d d' : placed_it d = Some d' -> domain d' = domain d.
Proof.
  rewrite placed_it_eq. destruct (placed d) as [[[|] p]|] eqn:E;
    try discriminate. intros [= <-].
  apply placed_facts in E as [H _]. exact H.
Qed.

Lemma placed_other_domain d d' :
  placed_other d = Some d' -> domain d' = domain d.
Proof.
  rewrite placed_other_eq. destruct (placed d) as [[[|] p]|] eqn:E;
    try discriminate. intros [= <-].
  apply placed_facts in E as [H _]. exact H.
Qed.

Lemma map_domain_scorer all (l : list domain_data) :
  map domain (map (batch_scorer all) l) = map domain l.
Proof.
  induction l as [|d l IH]; [reflexivity|]. cbn [map]. rewrite IH.
  f_equal. unfold batch_scorer. apply scored_with_domain.
Qed.

Lemma scored_bucket_ties (f : domain_data -> option domain_data)
    (domains all : list domain_data) s :
  (forall d d', f d = Some d' -> domain d' = domain d) ->
  sublist
    (map domain
       (List.filter (scores s)
          (sort_scored (map (batch_scorer all) (omap f domains)))))
    (map domain domains).
Proof.
  intros Hf.
  pose proof (sort_scored_stable (map (batch_scorer all) (omap f domains)) s)
    as Est.
  pose proof (map_sublist domain _ _
                (filter_sublist (scores s)
                   (map (batch_scorer all) (omap f domains)))) as H1.
  pose proof (omap_domains_sublist f domains Hf) as H2.
  rewrite <- (map_domain_scorer all) in H2.
  rewrite <- Est in H1.
  etransitivity; [exact H1 | exact H2].
Qed.

(** X14. Each bucket that [filter_and_score_domains] returns is in
    descending order of score, and records of a bucket with the same score
    stand in the order in which the input listed them. *)
Theorem buckets_sorted_stable (domains it_domains other_domains
    : list domain_data) :
  filter_and_score_domains domains = Some (it_domains, other_domains) ->
  (descending score_of it_domains /\ descending score_of other_domains)
  /\ forall s,
       sublist (map domain (List.filter (scores s) it_domains))
         (map domain domains)
       /\ sublist (map domain (List.filter (scores s) other_domains))
            (map domain domains).
Proof.
  intros Hf. rewrite filter_and_score_closed in Hf.
  injection Hf as <- <-. split; [split; apply sort_scored_descending|].
  intros s. split; apply scored_bucket_ties.
  - apply placed_it_domain.
  - apply placed_other_domain.
Qed.

(** Two records with the same score stay in input order. *)
Lemma buckets_sorted_stable_witness :
  filter_and_score_domains
    [raw_record "techbase.com" 5 10 10 10 10 10;
     raw_record "cloudbase.com" 5 10 10 10 10 10]
  = Some ([set_combined_score
             (classify (raw_record "techbase.com" 5 10 10 10 10 10))
             (8400 # 100);
           set_combined_score
             (classify (raw_record "cloudbase.com" 5 10 10 10 10 10))
             (8400 # 100)], [])
  /\ descending score_of
       [set_combined_score
          (classify (raw_record "techbase.com" 5 10 10 10 10 10))
          (8400 # 100);
        set_combined_score
          (classify (raw_record "cloudbase.com" 5 10 10 10 10 10))
          (8400 # 100)].
Proof.
  assert (E : filter_and_score_domains
                [raw_record "techbase.com" 5 10 10 10 10 10;
                 raw_record "cloudbase.com" 5 10 10 10 10 10]
              = Some ([set_combined_score
                         (classify
                            (raw_record "techbase.com" 5 10 10 10 10 10))
                         (8400 # 100);
                       set_combined_score
                         (classify
                            (raw_record "cloudbase.com" 5 10 10 10 10 10))
                         (8400 # 100)], []))
    by (vm_compute; reflexivity).
  split; [exact E|].
  exact (proj1 (proj1 (buckets_sorted_stable _ _ _ E))).
Defined.

(** X15. A selection that [select_top_domains] returns is in descending
    order of score, and among its records with the same score the IT
    records come first, each group in the order of its bucket. *)
Theorem selection_sorted_stable (it_domains other_domains
    : list domain_data) (total_count : Z) (it_percentage : Q)
    (selected : list domain_data) :
  select_top_domains it_domains other_domains total_count it_percentage
  = Some selected ->
  descending score_of selected
  /\ exists a b,
       forall s,
         List.filter (scores s) selected
         = List.filter (scores s) (firstn a it_domains)
           ++ List.filter (scores s) (firstn b other_domains).
Proof.
  intros Hsel. split; [exact (select_top_domains_descending _ _ _ _ _ Hsel)|].
  apply select_top_domains_sorts in Hsel.
  destruct (selected_buckets_prefixes it_domains other_domains
              total_count it_percentage) as (a & b & Hab).
  rewrite Hab in Hsel. cbn [fst snd] in Hsel.
  exists a, b. intros s.
  rewrite (sort_by_score_stable _ _ s Hsel). apply List.filter_app.
Qed.

(** Ties between the buckets: the IT records come first. *)
Lemma selection_sorted_stable_witness :
  select_top_domains
    [sample_record "a.com" 50; sample_record "b.com" 40]
    [sample_record "c.com" 50; sample_record "d.com" 45] 4 (1 # 2)
  = Some [sample_record "a.com" 50; sample_record "c.com" 50;
          sample_record "d.com" 45; sample_record "b.com" 40]
  /\ descending score_of
       [sample_record "a.com" 50; sample_record "c.com" 50;
        sample_record "d.com" 45; sample_record "b.com" 40].
Proof.
  assert (E : select_top_domains
                [sample_record "a.com" 50; sample_record "b.com" 40]
                [sample_record "c.com" 50; sample_record "d.com" 45]
                4 (1 # 2)
              = Some [sample_record "a.com" 50; sample_record "c.com" 50;
                      sample_record "d.com" 45; sample_record "b.com" 40])
    by (vm_compute; reflexivity).
  split; [exact E|].
  exact (proj1 (selection_sorted_stable _ _ _ _ _ E)).
Defined.


Lemma scored_buckets_have_score domains :
  Forall has_score
    (fst (scored_buckets domains) ++ snd (scored_buckets domains)).
Proof.
  apply List.Forall_forall. intros d' Hd'.
  apply scored_buckets_elem in Hd' as (d0 & b & p & _ & Hp & ->).
  apply placed_facts in Hp as (_ & Hc & _).
  unfold batch_scorer. apply scored_with_score, Hc.
Qed.



(** ** The loader and the exclusion file *)

Lemma loaded_from_row py_float files excluded_domains d :
  In d (load_csv_files py_float files excluded_domains) ->
  (domain_key d ∉ excluded_domains)
  /\ exists row,
       In row (concat files) /\ row_record py_float row = Some d.
Proof.
  intros Hd. unfold load_csv_files in Hd.
  rewrite load_state_of_concat in Hd.
  destruct (load_invariant_fold py_float excluded_domains (concat files))
    as [_ Hall _].
  apply Hall in Hd as (i & row & key & (Hi & Hk & _) & Hex & Hrec).
  pose proof (row_record_key py_float row d Hrec) as Hk'.
  rewrite Hk in Hk'. injection Hk' as ->.
  split; [exact Hex|]. exists row. split; [|exact Hrec].
  apply list_elem_of_In. eapply list_elem_of_lookup_2. exact Hi.
Qed.

Lemma selected_from_loaded py_float files excluded_domains N r sel d :
  main_selection py_float files excluded_domains N r = Some sel ->
  In d sel ->
  exists d0,
    In d0 (load_csv_files py_float files excluded_domains)
    /\ same_base d d0.
Proof.
  intros Hsel Hd.
  apply main_selection_stages in Hsel as (it & other & Hf & Hsel).
  pose proof (select_top_domains_from _ _ _ _ _ Hsel d Hd) as Hin.
  rewrite filter_and_score_closed in Hf.
  assert (E : scored_buckets
                (load_csv_files py_float files excluded_domains)
              = (it, other)) by congruence.
  replace it with (fst (scored_buckets
                          (load_csv_files py_float files excluded_domains)))
    in Hin by (rewrite E; reflexivity).
  replace other with (snd (scored_buckets
                          (load_csv_files py_float files excluded_domains)))
    in Hin by (rewrite E; reflexivity).
  apply scored_buckets_elem in Hin as (d0 & b & p & Hd0 & Hp & ->).
  exists d0. split; [exact Hd0|].
  apply (same_base_trans _ p _); [apply batch_scorer_base|].
  exact (placed_base d0 b p Hp).
Qed.

(** X17. A domain of the exclusion set is never loaded and never selected,
    in whatever letter case and with whatever surrounding blanks the input
    files spell it. *)
Theorem excluded_never_loaded (py_float : string -> option Q)
    (files : list (list (gmap string string)))
    (excluded_domains : gset string) :
  (forall d,
     In d (load_csv_files py_float files excluded_domains) ->
     Str.lower (domain d) ∉ excluded_domains)
  /\ (forall N r selected d,
        main_selection py_float files excluded_domains N r = Some selected ->
        In d selected ->
        Str.lower (domain d) ∉ excluded_domains).
Proof.
  split.
  - intros d Hd. exact (proj1 (loaded_from_row _ _ _ d Hd)).
  - intros N r selected d Hsel Hd.
    destruct (selected_from_loaded _ _ _ _ _ _ d Hsel Hd)
      as (d0 & Hd0 & Hbase).
    destruct Hbase as [-> _].
    exact (proj1 (loaded_from_row _ _ _ d0 Hd0)).
Qed.

(** An exclusion set that names a domain of the sample files in lower
    case. *)
Lemma excluded_never_loaded_witness :
  map domain
    (load_csv_files int_as_float sample_files {[ "citymedical.net" ]})
  = ["MyTechSolutions.com"; "bestjobs.io"]
  /\ forall d,
       In d (load_csv_files int_as_float sample_files
               {[ "citymedical.net" ]}) ->
       Str.lower (domain d) ∉ ({[ "citymedical.net" ]} : gset string).
Proof.
  split; [vm_compute; reflexivity|].
  exact (proj1 (excluded_never_loaded int_as_float sample_files
                  {[ "citymedical.net" ]})).
Defined.

Section LoadOrder.
Variable py_float : string -> option Q.
Variable excluded_domains : gset string.

Lemma load_row_keys st row :
  let st' := load_row py_float excluded_domains st row in
  (all_domains st' = all_domains st
   \/ exists d,
        all_domains st' = all_domains st ++ [d]
        /\ row_key row = Some (domain_key d)).
Proof.
  cbv zeta. rewrite load_row_eq.
  destruct (row_key row) as [key|] eqn:Ek; [|left; reflexivity].
  destruct (bool_decide (key ∈ seen_domains st)); [left; reflexivity|].
  destruct (bool_decide (key ∈ excluded_domains)); [left; reflexivity|].
  destruct (row_record py_float row) as [d|] eqn:Er; [|left; reflexivity].
  right. exists d. split; [reflexivity|].
  rewrite <- Ek. apply (row_record_key py_float row d Er).
Qed.

Lemma load_fold_order rows :
  sublist
    (map domain_key
       (all_domains (fold_left (load_row py_float excluded_domains) rows
                       (mk_load_state [] ∅ 0))))
    (omap row_key rows).
Proof.
  induction rows as [|r rows IH] using rev_ind; [constructor|].
  rewrite fold_left_app. cbn [fold_left].
  set (st := fold_left (load_row py_float excluded_domains) rows
               (mk_load_state [] ∅ 0)) in *.
  rewrite omap_app.
  destruct (load_row_keys st r) as [->|(d & -> & Hk)].
  - apply sublist_inserts_r, IH.
  - rewrite map_app. apply sublist_app; [exact IH|].
    cbn [map]. rewrite omap_cons_match, Hk, omap_nil_eq. reflexivity.
Qed.

End LoadOrder.

Lemma omap_length_le {A B} (f : A -> option B) (l : list A) :
  (length (omap f l) <= length l)%nat.
Proof.
  induction l as [|x l IH]; [rewrite omap_nil_eq; reflexivity|].
  rewrite omap_cons_match. destruct (f x); cbn [length]; lia.
Qed.

(** X18. [load_csv_files] keeps the order of the input: the lowercase
    domains of the loaded records, in the order of the returned list, are
    picked in order from the lowercase domains of the rows, files in
    directory order and rows in file order; so no more records are loaded
    than there are rows. *)
Theorem load_order_preserved (py_float : string -> option Q)
    (files : list (list (gmap string string)))
    (excluded_domains : gset string) :
  sublist
    (map domain_key (load_csv_files py_float files excluded_domains))
    (omap row_key (concat files))
  /\ (length (load_csv_files py_float files excluded_domains)
      <= length (concat files))%nat.
Proof.
  assert (H : sublist
                (map domain_key
                   (load_csv_files py_float files excluded_domains))
                (omap row_key (concat files))).
  { unfold load_csv_files. rewrite load_state_of_concat.
    apply load_fold_order. }
  split; [exact H|].
  apply sublist_length in H. rewrite length_map in H.
  etransitivity; [exact H|]. apply omap_length_le.
Qed.

Lemma excluded_of_rows_spec (acc : gset string) rows key :
  (key ∈ excluded_of_rows acc rows)
  <-> ((key ∈ acc)
       \/ exists row, In row (rows_read rows) /\ row_key row = Some key).
Proof.
  revert acc. induction rows as [|r rows IH]; intros acc.
  - cbn [excluded_of_rows rows_read]. split; [left; assumption|].
    intros [H|(row & [] & _)]. exact H.
  - cbn [excluded_of_rows rows_read].
    destruct (r !! "Domain Name") as [cell|] eqn:Ec.
    + rewrite IH, elem_of_union, elem_of_singleton. split.
      * intros [[H| ->]|(row & Hrow & Hk)].
        -- left. exact H.
        -- right. exists r. split; [left; reflexivity|].
           unfold row_key. rewrite Ec. reflexivity.
        -- right. exists row. split; [right; exact Hrow | exact Hk].
      * intros [H|(row & [<-|Hrow] & Hk)].
        -- left. left. exact H.
        -- left. right. unfold row_key in Hk. rewrite Ec in Hk.
           injection Hk as <-. reflexivity.
        -- right. exists row. split; assumption.
    + split; [left; assumption|]. intros [H|(row & [] & _)]. exact H.
Qed.

(** X19. [load_excluded_domains] returns the lowercase, stripped domains of
    the rows in front of the first row without a "Domain Name" column, and
    the empty set when there is no file or its first row has no such
    column; no record that [load_csv_files] loads under that set has the
    domain of one of those rows. *)
Theorem exclusion_file_respected
    (file : option (list (gmap string string))) :
  (forall key,
     (key ∈ load_excluded_domains file)
     <-> exists rows row,
           file = Some rows /\ In row (rows_read rows)
           /\ row_key row = Some key)
  /\ (forall rows r rest,
        file = Some rows -> rows = r :: rest -> r !! "Domain Name" = None ->
        load_excluded_domains file = ∅)
  /\ (forall py_float files rows row d,
        file = Some rows -> In row (rows_read rows) ->
        In d (load_csv_files py_float files (load_excluded_domains file)) ->
        row_key row <> Some (Str.lower (domain d))).
Proof.
  assert (Hspec : forall key,
            (key ∈ load_excluded_domains file)
            <-> exists rows row,
                  file = Some rows /\ In row (rows_read rows)
                  /\ row_key row = Some key).
  { intros key. destruct file as [rows|]; cbn [load_excluded_domains].
    - rewrite excluded_of_rows_spec. split.
      + intros [H|(row & Hrow & Hk)].
        * apply not_elem_of_empty in H. contradiction.
        * exists rows, row. repeat split; assumption.
      + intros (rows' & row & E & Hrow & Hk). injection E as <-.
        right. exists row. split; assumption.
    - split.
      + intros H. apply not_elem_of_empty in H. contradiction.
      + intros (rows & row & E & _). discriminate E. }
  split; [exact Hspec|]. split.
  - intros rows r rest -> -> Hr. cbn [load_excluded_domains excluded_of_rows].
    rewrite Hr. reflexivity.
  - intros py_float files rows row d E Hrow Hd Hk.
    apply loaded_from_row in Hd as [Hex _]. apply Hex, Hspec.
    exists rows, row. repeat split; assumption.
Qed.

(** An exclusion file of two rows, spelled unlike the input files. *)
Lemma exclusion_file_respected_witness :
  load_excluded_domains
    (Some [csv_row " CityMedical.NET" "" "" "" "" "" "" "";
           csv_row "BestJobs.io" "" "" "" "" "" "" ""])
  = ({[ "citymedical.net" ]} ∪ {[ "bestjobs.io" ]} : gset string)
  /\ map domain
       (load_csv_files int_as_float sample_files
          (load_excluded_domains
             (Some [csv_row " CityMedical.NET" "" "" "" "" "" "" "";
                    csv_row "BestJobs.io" "" "" "" "" "" "" ""])))
     = ["MyTechSolutions.com"]
  /\ forall py_float files rows row d,
       Some [csv_row " CityMedical.NET" "" "" "" "" "" "" "";
             csv_row "BestJobs.io" "" "" "" "" "" "" ""] = Some rows ->
       In row (rows_read rows) ->
       In d (load_csv_files py_float files
               (load_excluded_domains
                  (Some [csv_row " CityMedical.NET" "" "" "" "" "" "" "";
                         csv_row "BestJobs.io" "" "" "" "" "" "" ""]))) ->
       row_key row <> Some (Str.lower (domain d)).
Proof.
  split; [|split].
  - apply set_eq. intros key.
    cbn [load_excluded_domains excluded_of_rows].
    assert (E1 : csv_row " CityMedical.NET" "" "" "" "" "" "" ""
                 !! "Domain Name" = Some " CityMedical.NET")
      by (vm_compute; reflexivity).
    assert (E2 : csv_row "BestJobs.io" "" "" "" "" "" "" ""
                 !! "Domain Name" = Some "BestJobs.io")
      by (vm_compute; reflexivity).
    rewrite E1, E2.
    assert (L1 : Str.lower (Str.strip " CityMedical.NET") = "citymedical.net")
      by reflexivity.
    assert (L2 : Str.lower (Str.strip "BestJobs.io") = "bestjobs.io")
      by reflexivity.
    rewrite L1, L2. rewrite !elem_of_union, !elem_of_singleton.
    split; [intros [[H|H]|H]|intros [H|H]]; auto.
    apply not_elem_of_empty in H. contradiction.
  - vm_compute. reflexivity.
  - exact (proj2 (proj2 (exclusion_file_respected _))).
Defined.

(** ** The comment *)











Lemma generate_comment_ends d c :
  generate_comment d = Some c -> Str.endswith c "." = true.
Proof.
  unfold generate_comment.
  destruct (combined_score d) as [score|]; [|discriminate].
  cbn [mbind option_bind]. intros [= <-].
  destruct (comments d score) as [|c0 [|c1 l]].
  - reflexivity.
  - apply endswith_app. reflexivity.
  - do 3 apply endswith_app. reflexivity.
Qed.

Lemma build_record_unscored py_float row name d :
  build_record py_float row name = Some d -> combined_score d = None.
Proof.
  unfold build_record. intros H.
  repeat match type of H with
  | (?o ≫= _) = Some _ =>
      destruct o; cbn [mbind option_bind] in H; [|discriminate H]
  end.
  injection H as <-. reflexivity.
Qed.

(** X21. Every record of a selection drawn from the buckets of
    [filter_and_score_domains] gets a comment, and the comment ends with a
    full stop; a record as [load_csv_files] returns it has no score yet,
    and [generate_comment] raises on it. *)
Theorem selected_records_get_comment (domains it_domains other_domains
    : list domain_data) (total_count : Z) (it_percentage : Q)
    (selected : list domain_data) :
  filter_and_score_domains domains = Some (it_domains, other_domains) ->
  select_top_domains it_domains other_domains total_count it_percentage
  = Some selected ->
  Forall (fun d => exists c,
            generate_comment d = Some c /\ Str.endswith c "." = true)
    selected
  /\ forall py_float files excluded_domains d,
       In d (load_csv_files py_float files excluded_domains) ->
       generate_comment d = None.
Proof.
  intros Hf Hsel. split.
  - rewrite filter_and_score_closed in Hf.
    assert (E : scored_buckets domains = (it_domains, other_domains))
      by congruence.
    pose proof (scored_buckets_have_score domains) as Hs.
    rewrite E in Hs. cbn [fst snd] in Hs.
    rewrite List.Forall_forall in Hs |- *. intros d Hd.
    pose proof (select_top_domains_from _ _ _ _ _ Hsel d Hd) as Hin.
    destruct (Hs d Hin) as [score Hscore].
    destruct (generate_comment d) as [c|] eqn:Ec.
    + exists c. split; [reflexivity|]. exact (generate_comment_ends d c Ec).
    + unfold generate_comment in Ec. rewrite Hscore in Ec. discriminate Ec.
  - intros py_float files excluded_domains d Hd.
    apply loaded_from_row in Hd as (_ & row & _ & Hrec).
    unfold row_record in Hrec.
    destruct (row !! "Domain Name") as [cell|]; [|discriminate Hrec].
    cbn [mbind option_bind] in Hrec.
    apply build_record_unscored in Hrec.
    unfold generate_comment. rewrite Hrec. reflexivity.
Qed.

(** The comment of an aged record with some trust flow. *)
Lemma selected_records_get_comment_witness :
  (filter_and_score_domains [raw_record "techbase.com" 12 15 10 10 10 10]
   = Some ([set_combined_score
              (classify (raw_record "techbase.com" 12 15 10 10 10 10))
              (8500 # 100)], [])
   /\ select_top_domains
        [set_combined_score
           (classify (raw_record "techbase.com" 12 15 10 10 10 10))
           (8500 # 100)] [] 1 (8 # 10)
      = Some [set_combined_score
                (classify (raw_record "techbase.com" 12 15 10 10 10 10))
                (8500 # 100)])
  /\ generate_comment
       (set_combined_score
          (classify (raw_record "techbase.com" 12 15 10 10 10 10))
          (8500 # 100))
     = Some ("Mature 12-year domain with proven history. "
             +:+ "Excellent Trust Flow (15) indicates quality backlinks.")
  /\ Forall (fun d => exists c,
               generate_comment d = Some c /\ Str.endswith c "." = true)
       [set_combined_score
          (classify (raw_record "techbase.com" 12 15 10 10 10 10))
          (8500 # 100)].
Proof.
  assert (E : filter_and_score_domains
                [raw_record "techbase.com" 12 15 10 10 10 10]
              = Some ([set_combined_score
                         (classify
                            (raw_record "techbase.com" 12 15 10 10 10 10))
                         (8500 # 100)], []))
    by (vm_compute; reflexivity).
  assert (E' : select_top_domains
                 [set_combined_score
                    (classify (raw_record "techbase.com" 12 15 10 10 10 10))
                    (8500 # 100)] [] 1 (8 # 10)
               = Some [set_combined_score
                         (classify
                            (raw_record "techbase.com" 12 15 10 10 10 10))
                         (8500 # 100)])
    by (vm_compute; reflexivity).
  split; [split; assumption|]. split; [vm_compute; reflexivity|].
  exact (proj1 (selected_records_get_comment _ _ _ _ _ _ E E')).
Defined.

(** X22. When two or more of the age, trust, traffic and price phrases
    apply, the comment is made of the first two of them and does not depend
    on the score: the recommendation is left out however high the score. *)
Theorem comment_hides_recommendation (d : domain_data) (s s' : Q) :
  (2 <= length (age_comment d ++ trust_comment d ++ traffic_comment d
                ++ price_comment d))%nat ->
  generate_comment (set_combined_score d s)
  = generate_comment (set_combined_score d s')
  /\ exists c0 c1 rest,
       age_comment d ++ trust_comment d ++ traffic_comment d
       ++ price_comment d = c0 :: c1 :: rest
       /\ generate_comment (set_combined_score d s)
          = Some (c0 +:+ ". " +:+ c1 +:+ ".").
Proof.
  intros Hlen.
  assert (Hc : forall x,
            generate_comment (set_combined_score d x)
            = Some match comments d x with
                   | c0 :: c1 :: _ => c0 +:+ ". " +:+ c1 +:+ "."
                   | [c0] => c0 +:+ "."
                   | [] => fallback_comment
                   end) by reflexivity.
  assert (Hcs : forall x,
            comments d x
            = (age_comment d ++ trust_comment d ++ traffic_comment d
               ++ price_comment d) ++ score_comment x).
  { intros x. unfold comments. rewrite <- !app_assoc. reflexivity. }
  rewrite !Hc, !Hcs.
  destruct (age_comment d ++ trust_comment d ++ traffic_comment d
            ++ price_comment d) as [|c0 [|c1 rest]];
    cbn [length] in Hlen; try lia.
  cbn [app]. split; [reflexivity|].
  exists c0, c1, rest. split; reflexivity.
Qed.

(** A record with all four phrases and a score of 90. *)
Lemma comment_hides_recommendation_witness :
  (2 <= length (age_comment (raw_record "techbase.com" 12 15 10 30 10 10)
                ++ trust_comment (raw_record "techbase.com" 12 15 10 30 10 10)
                ++ traffic_comment
                     (raw_record "techbase.com" 12 15 10 30 10 10)
                ++ price_comment
                     (raw_record "techbase.com" 12 15 10 30 10 10)))%nat
  /\ generate_comment
       (set_combined_score (raw_record "techbase.com" 12 15 10 30 10 10) 90)
     = generate_comment
         (set_combined_score (raw_record "techbase.com" 12 15 10 30 10 10) 0).
Proof.
  assert (H : (2 <= length
                 (age_comment (raw_record "techbase.com" 12 15 10 30 10 10)
                  ++ trust_comment
                       (raw_record "techbase.com" 12 15 10 30 10 10)
                  ++ traffic_comment
                       (raw_record "techbase.com" 12 15 10 30 10 10)
                  ++ price_comment
                       (raw_record "techbase.com" 12 15 10 30 10 10)))%nat)
    by (vm_compute; lia).
  split; [exact H|].
  exact (proj1 (comment_hides_recommendation
                  (raw_record "techbase.com" 12 15 10 30 10 10) 90 0 H)).
Defined.

(** ** The user's answers *)

Section UserInputFacts.
Variable path_exists : string -> bool.
Variable float_of : string -> option pyfloat.

Lemma ask_domain_count_positive lines n rest :
  ask_domain_count lines = Some (n, rest) -> (0 < n)%Z.
Proof.
  induction lines as [|line lines IH]; [discriminate|].
  cbn [ask_domain_count].
  destruct (if String.eqb (Str.strip line) "" then Some 50%Z
            else py_int (Str.strip line)) as [k|]; [|exact IH].
  destruct (Z.leb_spec k 0); [exact IH|].
  intros [= <- _]. assumption.
Qed.

Lemma ask_it_percent_accepted lines x rest :
  ask_it_percent float_of lines = Some (x, rest) -> accepted_ratio x.
Proof.
  induction lines as [|line lines IH]; [discriminate|].
  cbn [ask_it_percent].
  destruct (if String.eqb (Str.strip line) "" then Some (Finite 80)
            else float_of (Str.strip line)) as [f|]; [|exact IH].
  destruct (out_of_percent_range f) eqn:E; [exact IH|].
  intros [= <- _]. destruct f as [q| | |]; try discriminate E.
  - right. exists (q / 100)%Q. split; [reflexivity|].
    cbn [out_of_percent_range] in E. apply orb_false_elim in E as [E1 E2].
    apply Qltb_ge in E1, E2. split.
    + apply Qle_shift_div_l; lra.
    + apply Qle_shift_div_r; lra.
  - left. reflexivity.
Qed.

End UserInputFacts.

(** X23. A configuration that [get_user_inputs] returns names an existing
    input folder, a positive number of domains, an output file whose name
    ends with ".csv", and an exclusion file that is dropped, empty or
    existing; its IT ratio lies between 0 and 1, unless the answer parsed
    to a not-a-number, which both range tests let through. *)
Theorem user_inputs_valid (path_exists : string -> bool)
    (float_of : string -> option pyfloat) (lines : list string)
    (c : config) :
  get_user_inputs path_exists float_of lines = Some (Some c) ->
  path_exists (input_folder c) = true
  /\ (0 < domain_count c)%Z
  /\ accepted_ratio (it_percentage c)
  /\ accepted_exclusion path_exists (exclude_file c)
  /\ Str.endswith (output_file c) ".csv" = true.
Proof.
  unfold get_user_inputs.
  destruct lines as [|l1 lines]; [discriminate|]. cbv zeta.
  destruct (path_exists (if String.eqb (Str.strip l1) "" then default_folder
                         else Str.strip l1)) eqn:Hfolder;
    cbn [negb]; [|discriminate].
  destruct (ask_domain_count lines) as [[n lines1]|] eqn:Hn;
    [|discriminate]. cbn [mbind option_bind].
  destruct (ask_it_percent float_of lines1) as [[x lines2]|] eqn:Hx;
    [|discriminate]. cbn [mbind option_bind].
  destruct lines2 as [|l4 [|l5 lines3]]; try discriminate.
  intros [= <-].
  cbn [input_folder domain_count it_percentage exclude_file output_file].
  split; [exact Hfolder|].
  split; [exact (ask_domain_count_positive _ _ _ Hn)|].
  split; [exact (ask_it_percent_accepted float_of _ _ _ Hx)|].
  split.
  - unfold accepted_exclusion.
    destruct (String.eqb_spec (Str.strip l4) "") as [->|_]; cbn [negb andb].
    + right. left. reflexivity.
    + destruct (path_exists (Str.strip l4)) eqn:He; cbn [negb].
      * right. right. eexists. split; [reflexivity|exact He].
      * left. reflexivity.
  - destruct (Str.endswith (if String.eqb (Str.strip l5) ""
                            then "filtered_domains_" +:+ str_int n +:+ ".csv"
                            else Str.strip l5) ".csv") eqn:Hend.
    + exact Hend.
    + apply endswith_app. reflexivity.
Qed.

(** Answers with two rejected counts and a rejected percentage. *)
Lemma user_inputs_valid_witness :
  get_user_inputs sample_exists sample_float
    [""; "many"; "-4"; " 20 "; "150"; "70"; ""; "picks"]
  = Some (Some {| input_folder := default_folder;
                  domain_count := 20;
                  it_percentage := Finite (70 / 100);
                  exclude_file := Some "";
                  output_file := "picks.csv" |})
  /\ accepted_ratio (Finite (70 / 100))
  /\ Str.endswith "picks.csv" ".csv" = true.
Proof.
  assert (E : get_user_inputs sample_exists sample_float
                [""; "many"; "-4"; " 20 "; "150"; "70"; ""; "picks"]
              = Some (Some {| input_folder := default_folder;
                              domain_count := 20;
                              it_percentage := Finite (70 / 100);
                              exclude_file := Some "";
                              output_file := "picks.csv" |}))
    by reflexivity.
  split; [exact E|].
  pose proof (user_inputs_valid sample_exists sample_float _ _ E) as H.
  cbn [it_percentage output_file] in H.
  split; [exact (proj1 (proj2 (proj2 H)))
         | exact (proj2 (proj2 (proj2 (proj2 H))))].
Defined.

(** The answer "nan" is accepted as a percentage. *)
Lemma user_inputs_nan :
  it_percentage
  <$> default None
        (get_user_inputs sample_exists sample_float
           [""; ""; "nan"; ""; ""])
  = Some NaN.
Proof. reflexivity. Qed.




(** ** From the input rows to the selection *)

Lemma main_selection_nonempty py_float files excluded_domains N r sel :
  main_selection py_float files excluded_domains N r = Some sel ->
  sel <> [].
Proof.
  unfold main_selection.
  generalize (load_csv_files py_float files excluded_domains).
  intros loaded. destruct loaded as [|d loaded]; [discriminate|].
  generalize (filter_and_score_domains (d :: loaded)).
  intros [[it other]|]; [|discriminate]. cbn [mbind option_bind].
  destruct (it ++ other); [discriminate|].
  destruct (select_top_domains it other N r) as [sel'|]; [|discriminate].
  cbn [mbind option_bind]. destruct sel'; [discriminate|].
  intros [= <-]. discriminate.
Qed.

(** X25. A selection that [main] hands to the output stage is not empty,
    and each of its records is a row of the input files: it carries the
    domain and the numbers parsed from that row, the classification of its
    own domain, and a score. *)
Theorem selection_from_input_rows (py_float : string -> option Q)
    (files : list (list (gmap string string)))
    (excluded_domains : gset string) (total_count : Z) (it_percentage : Q)
    (selected : list domain_data) :
  main_selection py_float files excluded_domains total_count it_percentage
  = Some selected ->
  selected <> []
  /\ Forall (fun d =>
               (exists row d0,
                  In row (concat files)
                  /\ row_record py_float row = Some d0
                  /\ same_base d d0)
               /\ bucket_record d /\ has_score d)
       selected.
Proof.
  intros Hmain. split; [exact (main_selection_nonempty _ _ _ _ _ _ Hmain)|].
  apply main_selection_stages in Hmain as (it & other & Hf & Hsel).
  rewrite filter_and_score_closed in Hf.
  assert (E : scored_buckets
                (load_csv_files py_float files excluded_domains)
              = (it, other)) by congruence.
  apply List.Forall_forall. intros d Hd.
  pose proof (select_top_domains_from _ _ _ _ _ Hsel d Hd) as Hin.
  replace it with (fst (scored_buckets
                          (load_csv_files py_float files excluded_domains)))
    in Hin by (rewrite E; reflexivity).
  replace other with (snd (scored_buckets
                          (load_csv_files py_float files excluded_domains)))
    in Hin by (rewrite E; reflexivity).
  apply scored_buckets_elem in Hin as (d0 & b & p & Hd0 & Hp & ->).
  destruct (placed_bucket_record d0 b p Hp) as [Hbr Hbase].
  pose proof (placed_facts d0 b p Hp) as (_ & Hcl & _).
  apply loaded_from_row in Hd0 as (_ & row & Hrow & Hrec).
  unfold batch_scorer. split; [|split].
  - exists row, d0. split; [exact Hrow|]. split; [exact Hrec|].
    apply (same_base_trans _ p _); [apply scored_with_base | exact Hbase].
  - apply scored_with_bucket_record, Hbr.
  - apply scored_with_score, Hcl.
Qed.

(** The selection from the sample files. *)
Lemma selection_from_input_rows_witness :
  exists selected,
    main_selection int_as_float sample_files ∅ 10 (8 # 10) = Some selected
    /\ map domain selected
       = ["CityMedical.net"; "MyTechSolutions.com"; "bestjobs.io"]
    /\ selected <> [].
Proof.
  destruct (main_selection int_as_float sample_files ∅ 10 (8 # 10))
    as [selected|] eqn:E; [|vm_compute in E; discriminate E].
  exists selected. split; [reflexivity|]. split.
  - vm_compute in E. injection E as <-. reflexivity.
  - exact (proj1 (selection_from_input_rows int_as_float sample_files ∅
                    10%Z (8 # 10) selected E)).
Defined.
